(** * Video catalogue data-access layer: a shallow embedding

    The development follows the two TypeScript services of the repository,
    [src/services/VideoService.ts] and [src/services/AppwriteSchemaManager.ts].

    - [JS] : the fragment of the JavaScript runtime the services rely on
      (values, truthiness, numbers, string methods, numeric parsing,
      [Array.prototype.sort] and [slice]).
    - [Effects] : the calls to the hosted backend, as an exception/state
      monad over an arbitrary backend.
    - [VideoService], [AppwriteSchemaManager] : the services themselves.
    - [Fixtures] : a small in-memory backend to run them on.
    - [Observations] : what the further properties are stated with (the
      requests of a run, sort keys, missing attributes).
    - [JSFacts], [EffectFacts] : lemmas about the runtime and the monad.
    - [DurationFacts], [NormalizationFacts], [SchemaFacts], [ServiceFacts],
      [PaginationFacts], [SearchFacts] : the properties of the services.
    - [Examples] : the services run on small catalogues.
    - [TraceFacts], [SortFacts], [ReconciliationFacts], [PageFacts],
      [NumeralFacts] : further properties, numbered X1 to X18: the requests
      each operation sends, the order of a listing, what a reconciliation
      creates, pages at the bounds, durations and prices as decimal
      numerals.

    Modelling conventions.
    - A JavaScript string is a sequence of 16-bit code units.  It is held
      in a [string] with each code unit in its UTF-8 form: one byte up to
      U+007F, two up to U+07FF, three beyond (a lone surrogate included).
      No byte that starts a code unit occurs inside another one, so that
      concatenation, equality, [includes] and [split] on the bytes are the
      ones on the code units, and every ASCII character is itself.  White
      space is spelled out with its bytes; the case mappings of Unicode
      are the engine's ([toLowerCase] of [Engine]).  The length of a
      string is only taken of numerals.
    - A JavaScript number is [NaN], an infinity or a finite value carried by an
      exact rational: rounding to binary64, overflow and the sign of zero are
      not represented.  Integers of the magnitudes the services handle
      (seconds, page numbers, lengths) are exact in both; a property that
      rests on a sum, a product, a quotient or a number read from a text
      is stated where the two agree, on binary64 numbers and within the
      safe integers ([MAX_SAFE_INTEGER]).
    - [AppwriteSchemaManager.ts] holds two revisions of the class, one
      after the other.  The first (lines 1 to 329) is followed in full; of
      the second, the reconciliation of the video collection. *)

From Stdlib Require Import ZArith QArith Qround String Ascii List Lia.
From Stdlib Require Import DecimalString DecimalZ Permutation Sorted.
From stdpp Require Import gmap strings.

Open Scope string_scope.
Open Scope Z_scope.

(* ===================================================================== *)
(** * The JavaScript fragment *)
(* ===================================================================== *)

Module JS.

(** ** Numbers *)

Inductive number : Type :=
| NaN
| Infinity (negative : bool)
| Fin (q : Q).

Definition int (z : Z) : number := Fin (inject_Z z).

Definition Qis_zero (q : Q) : bool := Qnum q =? 0.
Definition Qis_neg (q : Q) : bool := Qnum q <? 0.

(** [Math.trunc] on a rational: rounding toward zero. *)
Definition Qtrunc (q : Q) : Z := Z.quot (Qnum q) (Zpos (Qden q)).

Definition num_neg (a : number) : number :=
  match a with
  | NaN => NaN
  | Infinity s => Infinity (negb s)
  | Fin q => Fin (Qopp q)
  end.

Definition num_add (a b : number) : number :=
  match a, b with
  | NaN, _ | _, NaN => NaN
  | Infinity s, Infinity t => if Bool.eqb s t then Infinity s else NaN
  | Infinity s, Fin _ => Infinity s
  | Fin _, Infinity t => Infinity t
  | Fin x, Fin y => Fin (Qplus x y)
  end.

Definition num_sub (a b : number) : number := num_add a (num_neg b).

Definition num_mul (a b : number) : number :=
  match a, b with
  | NaN, _ | _, NaN => NaN
  | Infinity s, Infinity t => Infinity (xorb s t)
  | Infinity s, Fin y =>
      if Qis_zero y then NaN else Infinity (xorb s (Qis_neg y))
  | Fin x, Infinity t =>
      if Qis_zero x then NaN else Infinity (xorb (Qis_neg x) t)
  | Fin x, Fin y => Fin (Qmult x y)
  end.

Definition num_div (a b : number) : number :=
  match a, b with
  | NaN, _ | _, NaN => NaN
  | Infinity _, Infinity _ => NaN
  | Infinity s, Fin y => Infinity (xorb s (Qis_neg y))
  | Fin _, Infinity _ => Fin 0
  | Fin x, Fin y =>
      if Qis_zero y
      then (if Qis_zero x then NaN else Infinity (Qis_neg x))
      else Fin (Qdiv x y)
  end.

(** The [%] operator: the remainder takes the sign of the dividend. *)
Definition num_rem (a b : number) : number :=
  match a, b with
  | NaN, _ | _, NaN => NaN
  | Infinity _, _ => NaN
  | Fin x, Infinity _ => Fin x
  | Fin x, Fin y =>
      if Qis_zero y then NaN
      else Fin (Qminus x (Qmult y (inject_Z (Qtrunc (Qdiv x y)))))
  end.

(** [a < b]; any comparison with [NaN] is false. *)
Definition num_lt (a b : number) : bool :=
  match a, b with
  | NaN, _ | _, NaN => false
  | Infinity s, Infinity t => s && negb t
  | Infinity s, Fin _ => s
  | Fin _, Infinity t => negb t
  | Fin x, Fin y => negb (Qle_bool y x)
  end.

Definition Math_floor (a : number) : number :=
  match a with
  | Fin q => Fin (inject_Z (Qfloor q))
  | _ => a
  end.

Definition Math_ceil (a : number) : number :=
  match a with
  | Fin q => Fin (inject_Z (Qceiling q))
  | _ => a
  end.

Definition num_truthy (a : number) : bool :=
  match a with
  | NaN => false
  | Infinity _ => true
  | Fin q => negb (Qis_zero q)
  end.

(** ** Strings *)

(** The one-byte white space and line terminators: TAB, LF, VT, FF, CR and
    the space. *)
Definition is_whitespace (c : ascii) : bool :=
  let n := nat_of_ascii c in
  ((9 <=? n) && (n <=? 13) || (n =? 32))%nat.

(** The white space beyond U+007F, in the bytes that hold it: the no-break
    space U+00A0; U+1680, U+2000 to U+200A, the line and paragraph
    separators U+2028 and U+2029, U+202F, U+205F, U+3000, and the byte
    order mark U+FEFF. *)
Definition starts_blank (c : ascii) : bool :=
  let n := nat_of_ascii c in
  ((n =? 194) || (n =? 225) || (n =? 226) || (n =? 227) || (n =? 239))%nat.

Definition blank2 (c d : ascii) : bool :=
  ((nat_of_ascii c =? 194) && (nat_of_ascii d =? 160))%nat.

Definition blank3 (c d e : ascii) : bool :=
  let '(x, y, z) := (nat_of_ascii c, nat_of_ascii d, nat_of_ascii e) in
  ((x =? 225) && (y =? 154) && (z =? 128)
   || (x =? 226) && (y =? 128)
      && ((128 <=? z) && (z <=? 138) || (z =? 168) || (z =? 169) || (z =? 175))
   || (x =? 226) && (y =? 129) && (z =? 159)
   || (x =? 227) && (y =? 128) && (z =? 128)
   || (x =? 239) && (y =? 187) && (z =? 191))%nat.

Fixpoint trimStart (s : string) : string :=
  match s with
  | String c r =>
      if is_whitespace c then trimStart r
      else if starts_blank c then
        match r with
        | String d r1 =>
            if blank2 c d then trimStart r1
            else match r1 with
                 | String e r2 => if blank3 c d e then trimStart r2 else s
                 | EmptyString => s
                 end
        | EmptyString => s
        end
      else s
  | EmptyString => EmptyString
  end.

(** A string of white space only. *)
Fixpoint all_blank (s : string) : bool :=
  match s with
  | String c r =>
      if is_whitespace c then all_blank r
      else if starts_blank c then
        match r with
        | String d r1 =>
            if blank2 c d then all_blank r1
            else match r1 with
                 | String e r2 => blank3 c d e && all_blank r2
                 | EmptyString => false
                 end
        | EmptyString => false
        end
      else false
  | EmptyString => true
  end.

Fixpoint trimEnd (s : string) : string :=
  match s with
  | String c r => if all_blank s then EmptyString else String c (trimEnd r)
  | EmptyString => EmptyString
  end.

Definition trim (s : string) : string := trimEnd (trimStart s).

(** Lower case for the letters A to Z.  [String.prototype.toLowerCase]
    itself follows the case mappings of the Unicode version of the engine
    and is a field of [Engine] below; on text of one-byte characters it is
    this function. *)
Definition lower_char (c : ascii) : ascii :=
  let n := nat_of_ascii c in
  if ((65 <=? n) && (n <=? 90))%nat then ascii_of_nat (n + 32) else c.

Fixpoint toLowerCase_ascii (s : string) : string :=
  match s with
  | String c r => String (lower_char c) (toLowerCase_ascii r)
  | EmptyString => EmptyString
  end.

Fixpoint is_ascii (s : string) : bool :=
  match s with
  | String c r => (nat_of_ascii c <? 128)%nat && is_ascii r
  | EmptyString => true
  end.

(** [hay.includes(needle)] *)
Fixpoint includes (hay needle : string) : bool :=
  String.prefix needle hay ||
  match hay with
  | String _ r => includes r needle
  | EmptyString => false
  end.

(** [s.split(sep)] for a one-character separator. *)
Fixpoint split (sep : ascii) (s : string) : list string :=
  match s with
  | EmptyString => [EmptyString]
  | String c r =>
      if Ascii.eqb c sep then EmptyString :: split sep r
      else match split sep r with
           | h :: t => String c h :: t
           | [] => [String c EmptyString]
           end
  end.

Fixpoint repeat_char (c : ascii) (n : nat) : string :=
  match n with
  | O => EmptyString
  | S k => String c (repeat_char c k)
  end.

(** [s.padStart(target, fill)] for a one-character filler. *)
Definition padStart (target : nat) (fill : ascii) (s : string) : string :=
  (repeat_char fill (target - String.length s) ++ s)%string.

(** [arr.join(sep)] *)
Fixpoint join (sep : string) (l : list string) : string :=
  match l with
  | [] => EmptyString
  | [x] => x
  | x :: r => (x ++ sep ++ join sep r)%string
  end.

(** ** Number to string

    [Number.prototype.toString]: an integral value below 10^21 in magnitude
    prints as its decimal numeral.  The digits of the other finite values
    (fractions, exponent notation) come from the engine's shortest
    round-trip printer, which is left as the parameter [other]. *)

Definition integer_numeral (z : Z) : string :=
  NilZero.string_of_int (Z.to_int z).

Definition number_toString (other : Q -> string) (a : number) : string :=
  match a with
  | NaN => "NaN"
  | Infinity false => "Infinity"
  | Infinity true => "-Infinity"
  | Fin q =>
      let r := Qred q in
      if Pos.eqb (Qden r) 1 && (Z.abs (Qnum r) <? 10 ^ 21)
      then integer_numeral (Qnum r)
      else other q
  end.

(** ** String to number

    [scan_StrDecimalLiteral] reads the longest prefix of its argument that is
    a [StrDecimalLiteral] of the language grammar: an optional sign followed
    by [Infinity] or by decimal digits with an optional fraction and an
    optional exponent.  [parseFloat] keeps the value of that prefix;
    [StringToNumber] (the conversion behind [Number(s)]) wants the whole
    trimmed string to be a literal, and also knows the radix prefixes. *)

Definition digit_value (radix : Z) (c : ascii) : option Z :=
  let n := Z.of_nat (nat_of_ascii c) in
  let v :=
    if (48 <=? n) && (n <=? 57) then Some (n - 48)
    else if (97 <=? n) && (n <=? 122) then Some (n - 87)
    else if (65 <=? n) && (n <=? 90) then Some (n - 55)
    else None in
  match v with
  | Some d => if d <? radix then Some d else None
  | None => None
  end.

Fixpoint scan_digits (radix : Z) (s : string) (acc : Z) (count : nat)
  : Z * nat * string :=
  match s with
  | String c r =>
      match digit_value radix c with
      | Some d => scan_digits radix r (acc * radix + d) (S count)
      | None => (acc, count, s)
      end
  | EmptyString => (acc, count, s)
  end.

Definition scan_sign (s : string) : bool * string :=
  match s with
  | String "-" r => (true, r)
  | String "+" r => (false, r)
  | _ => (false, s)
  end.

(** An exponent part is consumed only when it has at least one digit. *)
Definition scan_exponent (s : string) : Z * string :=
  match s with
  | String c r =>
      if Ascii.eqb c "e" || Ascii.eqb c "E" then
        let '(neg, r1) := scan_sign r in
        let '(e, n, r2) := scan_digits 10 r1 0 0 in
        match n with
        | O => (0, s)
        | _ => (if neg then - e else e, r2)
        end
      else (0, s)
  | EmptyString => (0, s)
  end.

Definition decimal_value (ip fp : Z) (fraction_digits : nat) (e : Z) : Q :=
  let k := Z.of_nat fraction_digits in
  Qmult (inject_Z (ip * 10 ^ k + fp)) (Qpower (inject_Z 10) (e - k)).

Definition scan_unsigned_decimal (s : string) : option (Q * string) :=
  let '(ip, n1, r1) := scan_digits 10 s 0 0 in
  match r1 with
  | String "." r =>
      let '(fp, n2, r2) := scan_digits 10 r 0 0 in
      match n1, n2 with
      | O, O => None
      | _, _ =>
          let '(e, r3) := scan_exponent r2 in
          Some (decimal_value ip fp n2 e, r3)
      end
  | _ =>
      match n1 with
      | O => None
      | _ =>
          let '(e, r3) := scan_exponent r1 in
          Some (decimal_value ip 0 0 e, r3)
      end
  end.

Definition drop (n : nat) (s : string) : string :=
  String.substring n (String.length s - n) s.

Definition scan_StrDecimalLiteral (s : string) : option (number * string) :=
  let '(neg, r) := scan_sign s in
  if String.prefix "Infinity" r then Some (Infinity neg, drop 8 r)
  else
    match scan_unsigned_decimal r with
    | Some (q, rest) => Some (Fin (if neg then Qopp q else q), rest)
    | None => None
    end.

(** [parseFloat(s)] for a string argument. *)
Definition parseFloat_string (s : string) : number :=
  match scan_StrDecimalLiteral (trimStart s) with
  | Some (v, _) => v
  | None => NaN
  end.

Definition radix_of_prefix (c : ascii) : option Z :=
  if Ascii.eqb c "x" || Ascii.eqb c "X" then Some 16
  else if Ascii.eqb c "o" || Ascii.eqb c "O" then Some 8
  else if Ascii.eqb c "b" || Ascii.eqb c "B" then Some 2
  else None.

Definition decimal_literal (t : string) : number :=
  match scan_StrDecimalLiteral t with
  | Some (v, EmptyString) => v
  | _ => NaN
  end.

(** [Number(s)] for a string argument. *)
Definition StringToNumber (s : string) : number :=
  match trim s with
  | EmptyString => Fin 0
  | String "0" (String p r) as t =>
      match radix_of_prefix p with
      | Some radix =>
          match scan_digits radix r 0 0 with
          | (v, S _, EmptyString) => Fin (inject_Z v)
          | _ => NaN
          end
      | None => decimal_literal t
      end
  | t => decimal_literal t
  end.

(** ** Values

    The values a stored document can hold in a field.  [JObj] is an object
    that is not an array (a nested document): the services only observe that
    it is truthy, that it is not a number or a string, and its default
    conversion to a string. *)

#[warnings="-register-all"]
Inductive JsValue : Type :=
| JUndefined
| JNull
| JBool (b : bool)
| JNum (n : number)
| JStr (s : string)
| JArr (items : list JsValue)
| JObj.

Definition truthy (v : JsValue) : bool :=
  match v with
  | JUndefined | JNull => false
  | JBool b => b
  | JNum n => num_truthy n
  | JStr s => negb (String.eqb s EmptyString)
  | JArr _ | JObj => true
  end.

(** [a || b] *)
Definition js_or (a b : JsValue) : JsValue := if truthy a then a else b.

(** [typeof v === 'number'] *)
Definition is_number (v : JsValue) : bool :=
  match v with
  | JNum _ => true
  | _ => false
  end.

Section Conversions.

(** The printer of the finite numbers that are not small integers. *)
Variable other : Q -> string.

(** [String(v)]; an array joins its elements with commas, printing
    [null] and [undefined] elements as empty. *)
Fixpoint ToString (v : JsValue) : string :=
  match v with
  | JUndefined => "undefined"
  | JNull => "null"
  | JBool true => "true"
  | JBool false => "false"
  | JNum n => number_toString other n
  | JStr s => s
  | JArr items =>
      join ","
        ((fix elements (l : list JsValue) : list string :=
            match l with
            | [] => []
            | x :: r =>
                match x with
                | JUndefined | JNull => EmptyString
                | _ => ToString x
                end :: elements r
            end) items)
  | JObj => "[object Object]"
  end.

(** [parseFloat(v)]: the argument is first converted to a string. *)
Definition parseFloat (v : JsValue) : number :=
  parseFloat_string (ToString v).

Definition ToNumber (v : JsValue) : number :=
  match v with
  | JUndefined => NaN
  | JNull => Fin 0
  | JBool true => Fin 1
  | JBool false => Fin 0
  | JNum n => n
  | JStr s => StringToNumber s
  | JArr _ | JObj => StringToNumber (ToString v)
  end.

(** [a + b]: concatenation as soon as one operand is a string or an
    object, addition of numbers otherwise. *)
Definition js_plus (a b : JsValue) : JsValue :=
  match a, b with
  | (JStr _ | JArr _ | JObj), _ | _, (JStr _ | JArr _ | JObj) =>
      JStr (ToString a ++ ToString b)
  | _, _ => JNum (num_add (ToNumber a) (ToNumber b))
  end.

End Conversions.

(** ** Arrays *)

Section Sort.

Context {A : Type}.
Variable comparator : A -> A -> number.

(** [Array.prototype.sort(comparator)] is stable, and a comparator result
    that is [NaN] counts as zero.  An element moves behind another one
    exactly when the comparator is positive on the pair; for a consistent
    comparator this is the order every engine produces. *)
Fixpoint insert_sorted (x : A) (l : list A) : list A :=
  match l with
  | [] => [x]
  | y :: r =>
      if num_lt (Fin 0) (comparator x y) then y :: insert_sorted x r
      else x :: l
  end.

Definition sort (l : list A) : list A := fold_right insert_sorted [] l.

End Sort.

(** The index an argument of [slice] denotes in an array of [len] elements:
    truncated toward zero, counted from the end when negative, clamped. *)
Definition relative_index (len : nat) (a : number) : nat :=
  match a with
  | NaN => O
  | Infinity true => O
  | Infinity false => len
  | Fin q =>
      let k := Qtrunc q in
      if k <? 0 then Z.to_nat (Z.max (Z.of_nat len + k) 0)
      else Z.to_nat (Z.min k (Z.of_nat len))
  end.

(** [arr.slice(start, end)] *)
Definition slice {A : Type} (l : list A) (start_ end_ : number) : list A :=
  let k := relative_index (List.length l) start_ in
  let final := relative_index (List.length l) end_ in
  firstn (final - k) (skipn k l).

End JS.

(* ===================================================================== *)
(** * The backend and the effects of the services *)
(* ===================================================================== *)

Module Effects.
Import JS.

(** A stored document: field name to value; reading a field that is not
    there gives [undefined]. *)
Abbreviation Document := (gmap string JsValue).

Definition field (d : Document) (name : string) : JsValue :=
  default JUndefined (d !! name).

Record DocumentList : Type := { documents : list Document }.

(** What the backend reports about an existing attribute of a collection. *)
Record Attribute : Type := { key : string }.

(** A collection as [getCollection] answers it, and the list
    [listAttributes] answers with: both are read through [attributes]
    only. *)
Record Collection : Type := { attributes : list Attribute }.

(** The [URL] object [storage.getFileView] returns.  A URL serialises as
    its scheme, a colon and the rest. *)
Record URL : Type := { scheme : string; after_scheme : string }.

Definition href (u : URL) : string :=
  (scheme u ++ String ":" (after_scheme u))%string.

Inductive JsError : Type :=
| TypeError (message : string)
| AppwriteException (code : Z) (message : string).

Inductive Result (A : Type) : Type :=
| Ok (a : A)
| Throw (e : JsError).
Arguments Ok {A} a.
Arguments Throw {A} e.

(** The requests the services send through the SDK objects [databases] and
    [storage], indexed by the type of the answer. *)
Inductive Api : Type -> Type :=
| listDocuments (databaseId collectionId : string) (queries : list string)
  : Api DocumentList
| getDocument (databaseId collectionId documentId : string) : Api Document
| updateDocument (databaseId collectionId documentId : string) (data : Document)
  : Api Document
| getFileView (bucketId : string) (fileId : JsValue) : Api URL
| getCollection (databaseId collectionId : string) : Api Collection
| listAttributes (databaseId collectionId : string) : Api Collection
| createStringAttribute (databaseId collectionId key : string)
    (required : bool) (default : JsValue) (size : Z) (array : option bool)
  : Api unit
| createIntegerAttribute (databaseId collectionId key : string)
    (required : bool) (default min max : JsValue) : Api unit
| createFloatAttribute (databaseId collectionId key : string)
    (required : bool) (default min max : JsValue) : Api unit
| createBooleanAttribute (databaseId collectionId key : string)
    (required : bool) (default : JsValue) : Api unit
| createDatetimeAttribute (databaseId collectionId key : string)
    (required : bool) (default : JsValue) : Api unit.

(** What a run leaves behind: the requests sent and the pauses taken. *)
Inductive Event : Type :=
| Called {R : Type} (request : Api R)
| Slept (milliseconds : Z).

Definition is_creation (e : Event) : bool :=
  match e with
  | Called (createStringAttribute _ _ _ _ _ _ _)
  | Called (createIntegerAttribute _ _ _ _ _ _ _)
  | Called (createFloatAttribute _ _ _ _ _ _ _)
  | Called (createBooleanAttribute _ _ _ _ _)
  | Called (createDatetimeAttribute _ _ _ _ _) => true
  | _ => false
  end.

(** A request that changes the backend. *)
Definition is_write (e : Event) : bool :=
  match e with
  | Called (updateDocument _ _ _ _) => true
  | _ => is_creation e
  end.

(** The identifiers exported by the module [./node_appwrite], whose values
    the services do not depend on. *)
Record Config : Type := {
  databaseId : string;
  videoCollectionId : string;
  userCollectionId : string;
  siteConfigCollectionId : string;
  sessionCollectionId : string;
  videosBucketId : string;
  thumbnailsBucketId : string
}.

(** What the engine provides and this development does not spell out. *)
Record Engine : Type := {
  (** the digits [toString] prints for a fraction or a huge integer *)
  fraction_digits : Q -> string;
  (** [new Date(v).getTime()] *)
  Date_getTime : JsValue -> number;
  (** [s.toLowerCase()], by the case mappings of the engine's Unicode
      tables; on text of the characters U+0000 to U+007F it turns the
      letters A to Z into a to z *)
  toLowerCase : string -> string;
  toLowerCase_ascii_text :
    forall t, is_ascii t = true -> toLowerCase t = toLowerCase_ascii t
}.

Section Monad.

(** The state of the remote backend, about which nothing is assumed:
    every request may succeed or fail and change the state at will.
    [clock] is [new Date().toISOString()]. *)
Context {W : Type}.

Record Backend : Type := {
  respond : forall R : Type, Api R -> W -> Result R * W;
  clock : W -> string * W
}.

Record State : Type := { world : W; trace : list Event }.

Definition M (A : Type) : Type := State -> Result A * State.

Definition ret {A} (a : A) : M A := fun s => (Ok a, s).

Definition throw {A} (e : JsError) : M A := fun s => (Throw e, s).

Definition bind {A B} (m : M A) (k : A -> M B) : M B :=
  fun s =>
    match m s with
    | (Ok a, s') => k a s'
    | (Throw e, s') => (Throw e, s')
    end.

(** [try { m } catch (error) { handler error }] *)
Definition try_catch {A} (m : M A) (handler : JsError -> M A) : M A :=
  fun s =>
    match m s with
    | (Ok a, s') => (Ok a, s')
    | (Throw e, s') => handler e s'
    end.

Variable backend : Backend.

(** [await] of one SDK request. *)
Definition call {R} (request : Api R) : M R :=
  fun s =>
    let (r, w) := respond backend R request (world s) in
    (r, {| world := w; trace := trace s ++ [Called request] |}).

(** [new Date().toISOString()] *)
Definition now : M string :=
  fun s =>
    let (t, w) := clock backend (world s) in
    (Ok t, {| world := w; trace := trace s |}).

(** [await new Promise(resolve => setTimeout(resolve, ms))] *)
Definition sleep (ms : Z) : M unit :=
  fun s => (Ok tt, {| world := world s; trace := trace s ++ [Slept ms] |}).

End Monad.

Arguments Backend W : clear implicits.
Arguments State W : clear implicits.
Arguments M W A : clear implicits.

Notation "x <- m ;; k" := (bind m (fun x => k))
  (at level 100, m at next level, right associativity).
Notation "m ;;; k" := (bind m (fun _ => k))
  (at level 100, right associativity).

(** The state after one request answered with world [w]. *)
Definition after_call {W R} (s : State W) (request : Api R) (w : W) : State W :=
  {| world := w; trace := trace s ++ [Called request] |}.

(** A computation that returns, whatever the backend does. *)
Definition total {W A} (m : M W A) : Prop :=
  forall s, exists a s', m s = (Ok a, s').

Section Loops.

Context {W : Type}.

(** [for (const x of l) { body x }] *)
Fixpoint for_of {A} (l : list A) (body : A -> M W unit) : M W unit :=
  match l with
  | [] => ret tt
  | x :: r => body x ;;; for_of r body
  end.

(** [l.map(f)], and equally a [for] loop that updates each element in
    place, for an [f] with effects. *)
Fixpoint mapM {A B} (f : A -> M W B) (l : list A) : M W (list B) :=
  match l with
  | [] => ret []
  | x :: r => y <- f x ;; ys <- mapM f r ;; ret (y :: ys)
  end.

(** [l.filter(p)] for a predicate that may throw. *)
Fixpoint filterM {A} (p : A -> M W bool) (l : list A) : M W (list A) :=
  match l with
  | [] => ret []
  | x :: r =>
      keep <- p x ;; rest <- filterM p r ;;
      ret (if keep then x :: rest else rest)
  end.

End Loops.

End Effects.

(* ===================================================================== *)
(** * [VideoService] *)
(* ===================================================================== *)

Module VideoService.
Import JS Effects.

(** The object [normalizeVideo] builds.  The interface [Video] of the
    source announces strings for most fields, but [normalizeVideo] receives
    an untyped record and copies its truthy values as they are: those
    fields hold an arbitrary value here.  [price], [duration] and [views]
    are a number, a string and a number whatever the record holds. *)
Record Video : Type := {
  dollar_id : JsValue;
  title : JsValue;
  description : JsValue;
  price : number;
  duration : string;
  videoFileId : JsValue;
  video_id : JsValue;
  thumbnailFileId : JsValue;
  thumbnail_id : JsValue;
  thumbnailUrl : JsValue;
  isPurchased : JsValue;
  createdAt : JsValue;
  views : number;
  product_link : JsValue
}.

Definition set_thumbnailUrl (video : Video) (url : JsValue) : Video :=
  {| dollar_id := dollar_id video;
     title := title video;
     description := description video;
     price := price video;
     duration := duration video;
     videoFileId := videoFileId video;
     video_id := video_id video;
     thumbnailFileId := thumbnailFileId video;
     thumbnail_id := thumbnail_id video;
     thumbnailUrl := url;
     isPurchased := isPurchased video;
     createdAt := createdAt video;
     views := views video;
     product_link := product_link video |}.

Inductive SortOption : Type :=
| NEWEST
| PRICE_ASC
| PRICE_DESC
| VIEWS_DESC
| DURATION_DESC.

Record Page : Type := { videos : list Video; totalPages : number }.

Definition placeholder : string :=
  "https://via.placeholder.com/300x180?text=Video+Thumbnail".

(** Two views compared up to one field. *)
Definition set_createdAt (video : Video) (created : JsValue) : Video :=
  {| dollar_id := dollar_id video;
     title := title video;
     description := description video;
     price := price video;
     duration := duration video;
     videoFileId := videoFileId video;
     video_id := video_id video;
     thumbnailFileId := thumbnailFileId video;
     thumbnail_id := thumbnail_id video;
     thumbnailUrl := thumbnailUrl video;
     isPurchased := isPurchased video;
     createdAt := created;
     views := views video;
     product_link := product_link video |}.

Definition forget_thumbnailUrl (video : Video) : Video :=
  set_thumbnailUrl video JUndefined.

(** The text of a value that is a string. *)
Definition text (v : JsValue) : string :=
  match v with
  | JStr s => s
  | _ => EmptyString
  end.

(** The search criterion in the words of the specification: the title or
    the description contains the query, letter case apart. *)
Definition search_hit (engine : Engine) (trimmedQuery : string) (video : Video)
  : bool :=
  includes (toLowerCase engine (text (title video))) trimmedQuery
  || includes (toLowerCase engine (text (description video))) trimmedQuery.

(** A field that holds a string, or nothing usable. *)
Definition string_or_absent (v : JsValue) : bool :=
  match v with
  | JStr _ => true
  | _ => negb (truthy v)
  end.

Section Service.

Context {W : Type}.
Variable backend : Backend W.
Variable config : Config.
Variable engine : Engine.

(** [n.toString().padStart(2, '0')] *)
Definition pad2 (n : number) : string :=
  padStart 2 "0" (number_toString (fraction_digits engine) n).

(** The local [formattedDuration] of [normalizeVideo]. *)
Definition formattedDuration (video : Document) : string :=
  match field video "duration" with
  | JNum totalSeconds =>
      let minutes := Math_floor (num_div totalSeconds (int 60)) in
      let seconds := num_rem totalSeconds (int 60) in
      if num_lt minutes (int 60) then
        (pad2 minutes ++ ":" ++ pad2 seconds)%string
      else
        let hours := Math_floor (num_div minutes (int 60)) in
        let remainingMinutes := num_rem minutes (int 60) in
        (pad2 hours ++ ":" ++ pad2 remainingMinutes ++ ":" ++ pad2 seconds)%string
  | _ => "00:00"
  end.

(** The clock is read only when the record has no usable [created_at]. *)
Definition normalizeVideo (video : Document) : M W Video :=
  created <- (if truthy (field video "created_at")
              then ret (field video "created_at")
              else (t <- now backend ;; ret (JStr t))) ;;
  ret {| dollar_id := field video "$id";
         title := js_or (field video "title") (JStr "Untitled");
         description := js_or (field video "description") (JStr "");
         price := match field video "price" with
                  | JNum n => n
                  | p => parseFloat (fraction_digits engine) (js_or p (JStr "0"))
                  end;
         duration := if truthy (field video "duration")
                     then formattedDuration video else "00:00";
         videoFileId := js_or (field video "video_id") JNull;
         video_id := js_or (field video "video_id") JNull;
         thumbnailFileId := js_or (field video "thumbnail_id") JNull;
         thumbnail_id := js_or (field video "thumbnail_id") JNull;
         thumbnailUrl := js_or (field video "thumbnailUrl") JNull;
         isPurchased := js_or (field video "isPurchased") (JBool false);
         createdAt := created;
         views := match field video "views" with
                  | JNum n => n
                  | _ => Fin 0
                  end;
         product_link := js_or (field video "product_link") (JStr "") |}.

(** [v.toLowerCase()] on a value: only a string has the method. *)
Definition call_toLowerCase (v : JsValue) : M W string :=
  match v with
  | JStr s => ret (toLowerCase engine s)
  | _ => throw (TypeError "toLowerCase is not a function")
  end.

(** The predicate of the search filter; [||] does not evaluate its right
    operand when the title matches. *)
Definition matches (trimmedQuery : string) (video : Video) : M W bool :=
  t <- call_toLowerCase (title video) ;;
  if includes t trimmedQuery then ret true
  else d <- call_toLowerCase (description video) ;;
       ret (includes d trimmedQuery).

(** The thumbnail step, written twice in the source (in the loop of
    [getAllVideos] and in [getVideo]). *)
Definition resolveThumbnail (video : Video) : M W Video :=
  let thumbnailId := js_or (thumbnailFileId video) (thumbnail_id video) in
  if truthy thumbnailId then
    try_catch
      (thumbnailUrl <- call backend (getFileView (thumbnailsBucketId config) thumbnailId) ;;
       ret (set_thumbnailUrl video (JStr (href thumbnailUrl))))
      (fun _ => ret (set_thumbnailUrl video (JStr placeholder)))
  else ret (set_thumbnailUrl video (JStr placeholder)).

(** The [try]/[catch] of the source has nothing to catch: [duration] is a
    string, and [split], [Number] and the arithmetic do not throw. *)
Definition getDurationInSeconds (duration : string) : number :=
  match map StringToNumber (split ":" duration) with
  | [p0; p1] => num_add (num_mul p0 (int 60)) p1
  | [p0; p1; p2] =>
      num_add (num_add (num_mul p0 (int 3600)) (num_mul p1 (int 60))) p2
  | _ => int 0
  end.

(** [n || 0] on a number *)
Definition or_zero (n : number) : number := if num_truthy n then n else int 0.

Definition comparator (sortOption : SortOption) (a b : Video) : number :=
  match sortOption with
  | NEWEST =>
      num_sub (Date_getTime engine (createdAt b)) (Date_getTime engine (createdAt a))
  | PRICE_ASC => num_sub (price a) (price b)
  | PRICE_DESC => num_sub (price b) (price a)
  | VIEWS_DESC => num_sub (or_zero (views b)) (or_zero (views a))
  | DURATION_DESC =>
      num_sub (getDurationInSeconds (duration b)) (getDurationInSeconds (duration a))
  end.

(** The defaults of the source ([NEWEST], the empty query, page 1, twelve
    per page) are for callers that leave an argument out; here every
    argument is given. *)
Definition getAllVideos (sortOption : SortOption) (searchQuery : string)
  : M W (list Video) :=
  try_catch
    (response <- call backend (listDocuments (databaseId config) (videoCollectionId config) []) ;;
     videos <- mapM normalizeVideo (documents response) ;;
     videos <- (if negb (String.eqb searchQuery "")
                   && negb (String.eqb (trim searchQuery) "")
                then
                  let trimmedQuery := toLowerCase engine (trim searchQuery) in
                  filterM (matches trimmedQuery) videos
                else ret videos) ;;
     videos <- mapM resolveThumbnail videos ;;
     ret (sort (comparator sortOption) videos))
    (fun error => throw error).

Definition getVideo (videoId : string) : M W (option Video) :=
  try_catch
    (videoDoc <- call backend (getDocument (databaseId config) (videoCollectionId config) videoId) ;;
     video <- normalizeVideo videoDoc ;;
     video <- resolveThumbnail video ;;
     ret (Some video))
    (fun _ => ret None).

Definition incrementViews (videoId : string) : M W unit :=
  try_catch
    (video <- call backend (getDocument (databaseId config) (videoCollectionId config) videoId) ;;
     let currentViews := js_or (field video "views") (JNum (int 0)) in
     _ <- call backend
            (updateDocument (databaseId config) (videoCollectionId config) videoId
               {[ "views" := js_plus (fraction_digits engine) currentViews (JNum (int 1)) ]}) ;;
     ret tt)
    (fun _ => ret tt).

Definition getVideosWithPagination (page perPage : number)
    (sortOption : SortOption) (searchQuery : string) : M W Page :=
  try_catch
    (allVideos <- getAllVideos sortOption searchQuery ;;
     let totalPages :=
       Math_ceil (num_div (int (Z.of_nat (List.length allVideos))) perPage) in
     let startIndex := num_mul (num_sub page (int 1)) perPage in
     let endIndex := num_add startIndex perPage in
     let paginatedVideos := slice allVideos startIndex endIndex in
     ret {| videos := paginatedVideos; totalPages := totalPages |})
    (fun error => throw error).

Definition getVideoFileUrl (videoId : string) : M W (option string) :=
  try_catch
    (video <- getVideo videoId ;;
     match video with
     | None => ret None
     | Some video =>
         let videoFileId := js_or (video_id video) (videoFileId video) in
         if negb (truthy videoFileId) then ret None
         else
           try_catch
             (fileUrl <- call backend (getFileView (videosBucketId config) videoFileId) ;;
              ret (Some (href fileUrl)))
             (fun _ => ret None)
     end)
    (fun _ => ret None).

End Service.

End VideoService.

(* ===================================================================== *)
(** * [AppwriteSchemaManager] *)
(* ===================================================================== *)

Module AppwriteSchemaManager.
Import JS Effects.

(** An entry of a [requiredAttributes] table.  A property the entry does
    not write reads as [undefined]. *)
Record AttributeSpec : Type := {
  key : string;
  type : string;
  required : bool;
  defaultValue : JsValue;
  min : JsValue;
  max : JsValue;
  array : JsValue
}.

Definition attribute (k t : string) (r : bool) : AttributeSpec :=
  {| key := k; type := t; required := r; defaultValue := JUndefined;
     min := JUndefined; max := JUndefined; array := JUndefined |}.

Definition with_min (m : JsValue) (a : AttributeSpec) : AttributeSpec :=
  {| key := key a; type := type a; required := required a;
     defaultValue := defaultValue a; min := m; max := max a; array := array a |}.

Definition with_default (d : JsValue) (a : AttributeSpec) : AttributeSpec :=
  {| key := key a; type := type a; required := required a;
     defaultValue := d; min := min a; max := max a; array := array a |}.

Definition with_array (b : JsValue) (a : AttributeSpec) : AttributeSpec :=
  {| key := key a; type := type a; required := required a;
     defaultValue := defaultValue a; min := min a; max := max a; array := b |}.

Definition videoAttributes : list AttributeSpec :=
  [ attribute "title" "string" true;
    attribute "description" "string" false;
    with_min (JNum (int 0)) (attribute "price" "double" true);
    with_min (JNum (int 0)) (attribute "duration" "integer" false);
    attribute "video_id" "string" false;
    attribute "thumbnail_id" "string" false;
    attribute "created_at" "datetime" false;
    with_default (JBool true) (attribute "is_active" "boolean" false);
    with_default (JNum (int 0))
      (with_min (JNum (int 0)) (attribute "views" "integer" false));
    attribute "product_link" "string" false ].

Definition siteConfigAttributes : list AttributeSpec :=
  [ attribute "site_name" "string" true;
    attribute "paypal_client_id" "string" false;
    attribute "stripe_publishable_key" "string" false;
    attribute "stripe_secret_key" "string" false;
    attribute "telegram_username" "string" false;
    attribute "video_list_title" "string" false;
    with_array (JBool true) (attribute "crypto" "string[]" false);
    attribute "email_host" "string" false;
    attribute "email_port" "string" false;
    attribute "email_secure" "boolean" false;
    attribute "email_user" "string" false;
    attribute "email_pass" "string" false;
    attribute "email_from" "string" false ].

Definition userAttributes : list AttributeSpec :=
  [ attribute "email" "string" true;
    attribute "name" "string" true;
    attribute "password" "string" true;
    attribute "created_at" "datetime" false ].

Definition sessionAttributes : list AttributeSpec :=
  [ attribute "user_id" "string" true;
    attribute "token" "string" true;
    attribute "expires_at" "datetime" true;
    attribute "created_at" "datetime" false;
    attribute "ip_address" "string" false;
    attribute "user_agent" "string" false ].

Inductive Reconciled : Type := Videos | SiteConfig | Users | Sessions.

(** The [requiredAttributes] table of each reconciliation. *)
Definition declared (c : Reconciled) : list AttributeSpec :=
  match c with
  | Videos => videoAttributes
  | SiteConfig => siteConfigAttributes
  | Users => userAttributes
  | Sessions => sessionAttributes
  end.

(** [existingAttributes.some(existing => existing.key === attr.key)] *)
Definition exists_in (existingAttributes : list Attribute) (attr : AttributeSpec)
  : bool :=
  existsb (fun existing => String.eqb (Effects.key existing) (key attr))
    existingAttributes.

Section Manager.

Context {W : Type}.
Variable backend : Backend W.
Variable config : Config.

(** The loop the four functions share: each required attribute that the
    collection does not report is created by [create], and the run then
    waits one second. *)
Definition ensure (collectionId : string)
    (requiredAttributes : list AttributeSpec)
    (create : AttributeSpec -> M W unit) : M W unit :=
  try_catch
    (collection <- call backend (getCollection (databaseId config) collectionId) ;;
     let existingAttributes := attributes collection in
     for_of requiredAttributes (fun attr =>
       if negb (exists_in existingAttributes attr) then
         create attr ;;; sleep 1000
       else ret tt))
    (fun _ => ret tt).

Definition createString (collectionId : string) (attr : AttributeSpec) : M W unit :=
  call backend
    (createStringAttribute (databaseId config) collectionId (key attr)
       (required attr) (js_or (defaultValue attr) JNull) 255 None).

Definition createDatetime (collectionId : string) (attr : AttributeSpec) : M W unit :=
  call backend
    (createDatetimeAttribute (databaseId config) collectionId (key attr)
       (required attr) (js_or (defaultValue attr) JNull)).

Definition createBoolean (collectionId : string) (attr : AttributeSpec) : M W unit :=
  call backend
    (createBooleanAttribute (databaseId config) collectionId (key attr)
       (required attr) (js_or (defaultValue attr) JNull)).

(** The [switch (attr.type)] of the video collection. *)
Definition createVideoAttribute (attr : AttributeSpec) : M W unit :=
  let collectionId := videoCollectionId config in
  if String.eqb (type attr) "string" then createString collectionId attr
  else if String.eqb (type attr) "integer" then
    call backend
      (createIntegerAttribute (databaseId config) collectionId (key attr)
         (required attr) (js_or (defaultValue attr) JNull) (min attr) (max attr))
  else if String.eqb (type attr) "double" then
    call backend
      (createFloatAttribute (databaseId config) collectionId (key attr)
         (required attr) (js_or (defaultValue attr) JNull) (min attr) (max attr))
  else if String.eqb (type attr) "boolean" then createBoolean collectionId attr
  else if String.eqb (type attr) "datetime" then createDatetime collectionId attr
  else ret tt.

Definition createSiteConfigAttribute (attr : AttributeSpec) : M W unit :=
  let collectionId := siteConfigCollectionId config in
  if String.eqb (type attr) "string[]" then
    call backend
      (createStringAttribute (databaseId config) collectionId (key attr)
         (required attr) JNull 255 (Some true))
  else if String.eqb (type attr) "string" then createString collectionId attr
  else if String.eqb (type attr) "boolean" then createBoolean collectionId attr
  else ret tt.

(** The [switch] of the user collection and of the session collection. *)
Definition createStringOrDatetime (collectionId : string) (attr : AttributeSpec)
  : M W unit :=
  if String.eqb (type attr) "string" then createString collectionId attr
  else if String.eqb (type attr) "datetime" then createDatetime collectionId attr
  else ret tt.

Definition ensureVideoCollectionAttributes : M W unit :=
  ensure (videoCollectionId config) videoAttributes createVideoAttribute.

Definition ensureSiteConfigCollectionAttributes : M W unit :=
  ensure (siteConfigCollectionId config) siteConfigAttributes
    createSiteConfigAttribute.

Definition ensureUserCollectionAttributes : M W unit :=
  ensure (userCollectionId config) userAttributes
    (createStringOrDatetime (userCollectionId config)).

Definition ensureSessionCollectionAttributes : M W unit :=
  ensure (sessionCollectionId config) sessionAttributes
    (createStringOrDatetime (sessionCollectionId config)).

(** [Promise.all] over the four reconciliations.  They work on four
    different collections and are run here one after the other.  The
    engine starts the four at once: each read is sent when its
    reconciliation starts, in this order, and the creations of different
    collections may alternate in the trace.  What is proved of
    [initializeSchema] does not rest on the place of a creation among
    those of other collections. *)
Definition initializeSchema : M W unit :=
  try_catch
    (ensureVideoCollectionAttributes ;;;
     ensureSiteConfigCollectionAttributes ;;;
     ensureUserCollectionAttributes ;;;
     ensureSessionCollectionAttributes)
    (fun error => throw error).

(** The four reconciliations, by the collection they work on. *)
Definition collection_of (c : Reconciled) : string :=
  match c with
  | Videos => videoCollectionId config
  | SiteConfig => siteConfigCollectionId config
  | Users => userCollectionId config
  | Sessions => sessionCollectionId config
  end.

Definition reconcile (c : Reconciled) : M W unit :=
  match c with
  | Videos => ensureVideoCollectionAttributes
  | SiteConfig => ensureSiteConfigCollectionAttributes
  | Users => ensureUserCollectionAttributes
  | Sessions => ensureSessionCollectionAttributes
  end.

(** ** The second revision of the file (lines 330 to 708)

    The file holds a second revision of the class.  Its reconciliations
    read the attributes with [listAttributes], through a [Databases]
    instance of their own on the same endpoint and project
    ([getDatabasesInstance]), and hand [min || null] and [max || null] to
    the creation of a number attribute.  Its reconciliation of the video
    collection, over the same table: *)
Definition createVideoAttribute_revised (attr : AttributeSpec) : M W unit :=
  let collectionId := videoCollectionId config in
  if String.eqb (type attr) "string" then createString collectionId attr
  else if String.eqb (type attr) "integer" then
    call backend
      (createIntegerAttribute (databaseId config) collectionId (key attr)
         (required attr) (js_or (defaultValue attr) JNull)
         (js_or (min attr) JNull) (js_or (max attr) JNull))
  else if String.eqb (type attr) "double" then
    call backend
      (createFloatAttribute (databaseId config) collectionId (key attr)
         (required attr) (js_or (defaultValue attr) JNull)
         (js_or (min attr) JNull) (js_or (max attr) JNull))
  else if String.eqb (type attr) "boolean" then createBoolean collectionId attr
  else if String.eqb (type attr) "datetime" then createDatetime collectionId attr
  else ret tt.

Definition ensureVideoCollectionAttributes_revised : M W unit :=
  try_catch
    (attributesList <- call backend
                         (listAttributes (databaseId config) (videoCollectionId config)) ;;
     let existingAttributes := attributes attributesList in
     for_of videoAttributes (fun attr =>
       if negb (exists_in existingAttributes attr) then
         createVideoAttribute_revised attr ;;; sleep 1000
       else ret tt))
    (fun _ => ret tt).

End Manager.

End AppwriteSchemaManager.

(* ===================================================================== *)
(** * A concrete backend

    A small in-memory backend, used to run the services on examples. *)
(* ===================================================================== *)

Module Fixtures.
Import JS Effects.

Record World : Type := {
  stored : list Document;
  reported : list (string * Attribute);
  database_down : bool;
  storage_down : bool;
  ticks : nat
}.

Definition has_id (id : string) (d : Document) : bool :=
  match field d "$id" with
  | JStr s => String.eqb s id
  | _ => false
  end.

Definition unavailable : JsError := AppwriteException 503 "service unavailable".
Definition not_found : JsError := AppwriteException 404 "document not found".

Definition file_url (fileId : JsValue) : URL :=
  {| scheme := "https";
     after_scheme := "//cdn.example/" ++ ToString (fun _ => "") fileId |}.

Definition report (collectionId k : string) (w : World) : World :=
  {| stored := stored w;
     reported := reported w ++ [(collectionId, {| key := k |})];
     database_down := database_down w;
     storage_down := storage_down w;
     ticks := ticks w |}.

Definition respond (R : Type) (request : Api R) (w : World) : Result R * World :=
  match request in Api R return Result R * World with
  | listDocuments _ _ _ =>
      if database_down w then (Throw unavailable, w)
      else (Ok {| documents := stored w |}, w)
  | getDocument _ _ id =>
      if database_down w then (Throw unavailable, w)
      else match find (has_id id) (stored w) with
           | Some d => (Ok d, w)
           | None => (Throw not_found, w)
           end
  | updateDocument _ _ id data =>
      if database_down w then (Throw unavailable, w)
      else match find (has_id id) (stored w) with
           | Some d =>
               (Ok (data ∪ d),
                {| stored := map (fun x => if has_id id x then data ∪ x else x) (stored w);
                   reported := reported w;
                   database_down := database_down w;
                   storage_down := storage_down w;
                   ticks := ticks w |})
           | None => (Throw not_found, w)
           end
  | getFileView _ fileId =>
      if storage_down w then (Throw unavailable, w) else (Ok (file_url fileId), w)
  | getCollection _ c
  | listAttributes _ c =>
      if database_down w then (Throw unavailable, w)
      else (Ok {| attributes :=
                    map snd (List.filter (fun e => String.eqb (fst e) c) (reported w)) |}, w)
  | createStringAttribute _ c k _ _ _ _
  | createIntegerAttribute _ c k _ _ _ _
  | createFloatAttribute _ c k _ _ _ _
  | createBooleanAttribute _ c k _ _
  | createDatetimeAttribute _ c k _ _ =>
      if database_down w then (Throw unavailable, w) else (Ok tt, report c k w)
  end.

Definition clock (w : World) : string * World :=
  ("2024-05-01T10:00:0" ++ integer_numeral (Z.of_nat (ticks w)) ++ ".000Z",
   {| stored := stored w;
      reported := reported w;
      database_down := database_down w;
      storage_down := storage_down w;
      ticks := S (ticks w) |}).

Definition backend : Backend World := {| Effects.respond := respond; Effects.clock := clock |}.

Definition config : Config :=
  {| databaseId := "main";
     videoCollectionId := "videos";
     userCollectionId := "users";
     siteConfigCollectionId := "site_config";
     sessionCollectionId := "sessions";
     videosBucketId := "video-files";
     thumbnailsBucketId := "thumbnails" |}.

(** An engine that knows the letters A to Z and, beyond them, the accented
    capitals U+00C0 to U+00DE (the multiplication sign U+00D7 apart), two
    bytes each. *)
Fixpoint lower_latin1 (s : string) : string :=
  match s with
  | String c r =>
      match r with
      | String d r1 =>
          let n := nat_of_ascii d in
          if ((nat_of_ascii c =? 195) && (128 <=? n) && (n <=? 158)
              && negb (n =? 151))%nat
          then String c (String (ascii_of_nat (n + 32)) (lower_latin1 r1))
          else String (lower_char c) (lower_latin1 r)
      | EmptyString => String (lower_char c) EmptyString
      end
  | EmptyString => EmptyString
  end.

Definition engine : Engine :=
  {| fraction_digits := fun _ => "0.5";
     Date_getTime := fun _ => NaN;
     toLowerCase := fun t => if is_ascii t then toLowerCase_ascii t else lower_latin1 t;
     toLowerCase_ascii_text :=
       fun t (H : is_ascii t = true) =>
         @eq_ind_r bool true
           (fun b : bool =>
              (if b then toLowerCase_ascii t else lower_latin1 t)
              = toLowerCase_ascii t)
           eq_refl (is_ascii t) H |}.

Definition start (docs : list Document) : State World :=
  {| world := {| stored := docs; reported := []; database_down := false;
                 storage_down := false; ticks := 0 |};
     trace := [] |}.

Definition offline (docs : list Document) : State World :=
  {| world := {| stored := docs; reported := []; database_down := true;
                 storage_down := true; ticks := 0 |};
     trace := [] |}.

Definition provisioned (keys : list (string * string)) : State World :=
  {| world := {| stored := [];
                 reported := map (fun e => (fst e, {| key := snd e |})) keys;
                 database_down := false; storage_down := false; ticks := 0 |};
     trace := [] |}.

(** A record as the admin upload flow stores it. *)
Definition record (id title_ : string) (price_ seconds : Z) : Document :=
  {[ "$id" := JStr id; "title" := JStr title_; "price" := JNum (int price_);
     "duration" := JNum (int seconds); "created_at" := JStr "2024-04-30T08:00:00.000Z" ]}.

Definition ten_records : list Document :=
  map (fun n => record (integer_numeral n) ("Video " ++ integer_numeral n) 10 60)
    [0; 1; 2; 3; 4; 5; 6; 7; 8; 9].

Definition pets : list Document :=
  [ record "a" "Cat Video" 30 95; record "b" "Dog Clip" 10 3725 ].

(** What a run returns, and three observations used in the examples: the
    display string of a duration, the prices of a sorted catalogue, the
    number of attribute creations of a provisioning run. *)
Definition result {A} (m : M World A) (s : State World) : Result A := fst (m s).

Definition shown (seconds : Z) : Result string :=
  match result (VideoService.normalizeVideo backend engine (record "v" "Video" 5 seconds))
          (start []) with
  | Ok v => Ok (VideoService.duration v)
  | Throw e => Throw e
  end.

Definition prices (sortOption : VideoService.SortOption) (l : list Z)
  : Result (list number) :=
  match result (VideoService.getAllVideos backend config engine sortOption "")
          (start (map (fun p => record "v" "Video" p 60) l)) with
  | Ok vs => Ok (map VideoService.price vs)
  | Throw e => Throw e
  end.

Definition creations (s : State World) : nat :=
  List.length
    (List.filter is_creation
       (trace (snd (AppwriteSchemaManager.initializeSchema backend config s)))).

End Fixtures.

(* ===================================================================== *)
(** * Observations on runs

    What the further properties of the services are stated with: the
    requests a run adds to the trace, the keys a listing is sorted by, the
    attributes a reconciliation has to create. *)
(* ===================================================================== *)

Module Observations.
Import JS Effects VideoService AppwriteSchemaManager.

(** Every event a run adds to the trace satisfies [P], whatever the run
    returns or throws. *)
Definition emits {W A} (P : Event -> Prop) (m : M W A) : Prop :=
  forall s, exists events,
    trace (snd (m s)) = (trace s ++ events)%list /\ Forall P events.

(** The reference the thumbnail step looks up, and the request it sends. *)
Definition thumbnail_reference (video : Video) : JsValue :=
  js_or (thumbnailFileId video) (thumbnail_id video).

Definition thumbnail_request (config : Config) (video : Video) : Event :=
  Called (getFileView (thumbnailsBucketId config) (thumbnail_reference video)).

Definition has_thumbnail_reference (video : Video) : bool :=
  truthy (thumbnail_reference video).

(** The number each sort option compares, read off [comparator], and the
    direction it sorts in. *)
Definition sort_key (engine : Engine) (sortOption : SortOption) (video : Video)
  : number :=
  match sortOption with
  | NEWEST => Date_getTime engine (createdAt video)
  | PRICE_ASC | PRICE_DESC => price video
  | VIEWS_DESC => or_zero (views video)
  | DURATION_DESC => getDurationInSeconds (duration video)
  end.

Definition ascending (sortOption : SortOption) : bool :=
  match sortOption with
  | PRICE_ASC => true
  | _ => false
  end.

(** [a] may stand before [b]: its key is not on the wrong side of [b]'s. *)
Definition in_order (engine : Engine) (sortOption : SortOption) (a b : Video)
  : Prop :=
  if ascending sortOption
  then num_lt (sort_key engine sortOption b) (sort_key engine sortOption a) = false
  else num_lt (sort_key engine sortOption a) (sort_key engine sortOption b) = false.

(** Two numbers of the same value. *)
Definition num_same (a b : number) : bool :=
  match a, b with
  | NaN, NaN => true
  | Infinity s, Infinity t => Bool.eqb s t
  | Fin x, Fin y => Qeq_bool x y
  | _, _ => false
  end.

Definition has_key (engine : Engine) (sortOption : SortOption) (k : number)
    (video : Video) : bool :=
  num_same (sort_key engine sortOption video) k.

(** The views the search keeps out of the normalized ones. *)
Definition kept_by (engine : Engine) (searchQuery : string)
    (normalized : list Video) : list Video :=
  if String.eqb (trim searchQuery) "" then normalized
  else List.filter (search_hit engine (toLowerCase engine (trim searchQuery)))
         normalized.

(** The key of the attribute a creation request asks for. *)
Definition created_key (e : Event) : option string :=
  match e with
  | Called (createStringAttribute _ _ k _ _ _ _)
  | Called (createIntegerAttribute _ _ k _ _ _ _)
  | Called (createFloatAttribute _ _ k _ _ _ _)
  | Called (createBooleanAttribute _ _ k _ _)
  | Called (createDatetimeAttribute _ _ k _ _) => Some k
  | _ => None
  end.

Definition created_keys (events : list Event) : list string :=
  flat_map (fun e => match created_key e with
                     | Some k => [k]
                     | None => []
                     end) events.

Definition is_collection_read (e : Event) : bool :=
  match e with
  | Called (getCollection _ _) => true
  | _ => false
  end.

Definition is_pause (e : Event) : bool :=
  match e with
  | Slept _ => true
  | _ => false
  end.

(** What the loop of a reconciliation may add to the trace: the creation
    of an attribute in its own collection, or the pause of one second. *)
Definition reconciliation_step (config : Config) (collectionId : string)
    (e : Event) : Prop :=
  match e with
  | Called (createStringAttribute d c _ _ _ _ _)
  | Called (createIntegerAttribute d c _ _ _ _ _)
  | Called (createFloatAttribute d c _ _ _ _ _)
  | Called (createBooleanAttribute d c _ _ _)
  | Called (createDatetimeAttribute d c _ _ _) =>
      d = databaseId config /\ c = collectionId
  | Slept ms => ms = 1000
  | _ => False
  end.

(** The declared attributes a collection does not report. *)
Definition missing (existing : list Attribute) (required : list AttributeSpec)
  : list AttributeSpec :=
  List.filter (fun attr => negb (exists_in existing attr)) required.

(** The [switch] each reconciliation creates a missing attribute with. *)
Definition creator {W} (backend : Backend W) (config : Config) (c : Reconciled)
  : AttributeSpec -> M W unit :=
  match c with
  | Videos => createVideoAttribute backend config
  | SiteConfig => createSiteConfigAttribute backend config
  | Users => createStringOrDatetime backend config (userCollectionId config)
  | Sessions => createStringOrDatetime backend config (sessionCollectionId config)
  end.

(** The views of the page a paginated listing returned. *)
Definition page_videos {W} (r : Result Page * State W) : list Video :=
  match fst r with
  | Ok p => videos p
  | Throw _ => []
  end.

(** A backend that accepts every creation of an attribute. *)
Definition accepts_creations {W} (backend : Backend W) : Prop :=
  forall (request : Api unit) (w : W),
    is_creation (Called request) = true ->
    fst (respond backend unit request w) = Ok tt.

(** [Number.MAX_SAFE_INTEGER]: up to this magnitude every whole number is
    a binary64 number and the sums, products and quotients of the services
    are the exact ones. *)
Definition MAX_SAFE_INTEGER : Z := 2 ^ 53 - 1.

(** A number of the binary64 format: an infinity, or [m * 2^e] for a
    whole [m] of at most 53 bits and an exponent of the format.  A stored
    number is one; the number read from a text is one when the text
    writes it exactly, and is rounded to one by the engine otherwise. *)
Definition binary64 (a : number) : Prop :=
  match a with
  | NaN => False
  | Infinity _ => True
  | Fin q =>
      exists m e : Z,
        Z.abs m < 2 ^ 53 /\ -1074 <= e <= 971
        /\ (q == inject_Z m * Qpower (2 # 1) e)%Q
  end.

(** A display string whose fields are whole numbers, none negative, and
    which counts at most [MAX_SAFE_INTEGER] seconds: the products and sums
    of [getDurationInSeconds] are then exact in binary64. *)
Definition whole_fields (duration : string) : Prop :=
  Forall (fun p => exists n, 0 <= n /\ p = int n)
         (map StringToNumber (split ":" duration))
  /\ exists z, z <= MAX_SAFE_INTEGER /\ getDurationInSeconds duration = int z.

(** The views on whose sort key the program and this development agree:
    the key is not [NaN], and where it is computed from a text (a price
    that was stored as text, the seconds of a display string) the
    computation is exact in binary64. *)
Definition comparable (engine : Engine) (sortOption : SortOption)
    (video : Video) : Prop :=
  match sortOption with
  | NEWEST => Date_getTime engine (createdAt video) <> NaN
  | PRICE_ASC | PRICE_DESC => binary64 (price video)
  | VIEWS_DESC => True
  | DURATION_DESC => whole_fields (duration video)
  end.

(** A text at which the reading of a number stops for sure: the end of the
    string, or a character that is neither a digit, nor the decimal point,
    nor the letter of an exponent. *)
Definition ends_number (rest : string) : bool :=
  match rest with
  | EmptyString => true
  | String c _ =>
      match digit_value 10 c with
      | Some _ => false
      | None => negb (Ascii.eqb c "." || Ascii.eqb c "e" || Ascii.eqb c "E")
      end
  end.

(** ** Catalogues and backends the properties are tried on

    A record that refers to a thumbnail and to a video file, a catalogue
    that holds it, the video collection with every declared attribute but
    [views], what a listing of a catalogue returns, and a backend that is
    never down. *)
Definition cat_video : Document :=
  <[ "thumbnail_id" := JStr "t1" ]>
    (<[ "video_id" := JStr "f1" ]> (Fixtures.record "a" "Cat Video" 30 95)).

Definition illustrated : list Document :=
  [ cat_video; Fixtures.record "b" "Dog Clip" 10 3725 ].

(** The no-break space U+00A0. *)
Definition nbsp : string := String (ascii_of_nat 194) (String (ascii_of_nat 160) "").


Definition all_but_views : list string :=
  List.filter (fun k => negb (String.eqb k "views")) (map key videoAttributes).

Definition listed (sortOption : SortOption) (searchQuery : string)
    (docs : list Document) : list Video :=
  match Fixtures.result
          (getAllVideos Fixtures.backend Fixtures.config Fixtures.engine
             sortOption searchQuery) (Fixtures.start docs) with
  | Ok l => l
  | Throw _ => []
  end.

Definition always_up (w : Fixtures.World) : Fixtures.World :=
  {| Fixtures.stored := Fixtures.stored w;
     Fixtures.reported := Fixtures.reported w;
     Fixtures.database_down := false;
     Fixtures.storage_down := false;
     Fixtures.ticks := Fixtures.ticks w |}.

Definition reliable : Backend Fixtures.World :=
  {| respond := fun R request w => Fixtures.respond R request (always_up w);
     clock := Fixtures.clock |}.

End Observations.

(* ===================================================================== *)
(** * Facts about the JavaScript fragment *)
(* ===================================================================== *)

Module JSFacts.
Import JS.

(** ** Arithmetic on integral numbers *)

Lemma int_eq (n d : Z) (p : positive) :
  p = 1%positive -> n = d -> Fin (n # p) = int d.
Proof. intros -> ->. reflexivity. Qed.

Lemma num_add_int a b : num_add (int a) (int b) = int (a + b).
Proof.
  unfold int, num_add, inject_Z, Qplus. cbn.
  apply int_eq; [reflexivity | lia].
Qed.

Lemma num_mul_int a b : num_mul (int a) (int b) = int (a * b).
Proof. reflexivity. Qed.

Lemma num_sub_int a b : num_sub (int a) (int b) = int (a - b).
Proof.
  unfold num_sub, int, num_neg, num_add, inject_Z, Qplus, Qopp. cbn.
  apply int_eq; [reflexivity | lia].
Qed.

Lemma num_lt_int a b : num_lt (int a) (int b) = (a <? b).
Proof.
  unfold int, num_lt, inject_Z, Qle_bool. cbn.
  rewrite !Z.mul_1_r. symmetry. apply Z.ltb_antisym.
Qed.

Lemma floor_div_int a b :
  0 < b -> Math_floor (num_div (int a) (int b)) = int (a / b).
Proof.
  intros Hb. unfold num_div, int, Qis_zero. cbn [Qnum inject_Z].
  destruct (Z.eqb_spec b 0) as [->|_]; [lia|].
  cbn [Math_floor]. unfold int. rewrite <- Zdiv_Qdiv. reflexivity.
Qed.

Lemma ceil_div_int a b :
  0 < b -> Math_ceil (num_div (int a) (int b)) = int (- ((- a) / b)).
Proof.
  intros Hb. unfold num_div, int, Qis_zero. cbn [Qnum inject_Z].
  destruct (Z.eqb_spec b 0) as [->|_]; [lia|].
  cbn [Math_ceil]. unfold Qceiling.
  assert (E : (- (inject_Z a / inject_Z b) == inject_Z (- a) / inject_Z b)%Q).
  { unfold Qdiv. rewrite inject_Z_opp. ring. }
  rewrite (Qfloor_comp _ _ E), <- Zdiv_Qdiv. reflexivity.
Qed.

Lemma rem_int a b : 0 < b -> num_rem (int a) (int b) = int (Z.rem a b).
Proof.
  intros Hb. destruct b as [|p|p]; try lia.
  unfold num_rem, int, Qis_zero, inject_Z. cbn [Qnum].
  cbn. unfold Qtrunc, Qminus, Qplus, Qopp, Qmult, Qdiv, Qinv. cbn.
  apply int_eq; [reflexivity|].
  rewrite !Pos.mul_1_l, !Z.mul_1_r.
  pose proof (Z.quot_rem' a (Z.pos p)). lia.
Qed.

Lemma Qtrunc_int z : Qtrunc (inject_Z z) = z.
Proof. unfold Qtrunc, inject_Z. cbn. apply Z.quot_1_r. Qed.

Lemma truthy_int z : num_truthy (int z) = negb (z =? 0).
Proof. reflexivity. Qed.

(** ** [split] *)

Lemma append_empty (s : string) : (EmptyString ++ s)%string = s.
Proof. reflexivity. Qed.

Lemma append_String c (a s : string) :
  (String c a ++ s)%string = String c (a ++ s).
Proof. reflexivity. Qed.

Lemma length_append (a b : string) :
  String.length (a ++ b)%string = (String.length a + String.length b)%nat.
Proof.
  induction a as [|c a IH]; [reflexivity|].
  rewrite append_String. cbn [String.length]. rewrite IH. reflexivity.
Qed.

Lemma split_nonempty sep s : split sep s <> [].
Proof.
  destruct s as [|c s]; cbn [split]; [discriminate|].
  destruct (Ascii.eqb c sep); [discriminate|].
  destruct (split sep s); discriminate.
Qed.

Lemma split_app sep a r :
  split sep a = [a] -> split sep (a ++ String sep r)%string = a :: split sep r.
Proof.
  induction a as [|c a IH]; intros H.
  - rewrite append_empty. cbn [split]. rewrite Ascii.eqb_refl. reflexivity.
  - rewrite append_String. cbn [split] in *.
    destruct (Ascii.eqb c sep); [discriminate|].
    destruct (split sep a) as [|h t] eqn:E; [now apply split_nonempty in E|].
    assert (h = a /\ t = []) as [-> ->] by (split; congruence).
    rewrite IH; reflexivity.
Qed.

(** ** Bounded case analysis *)

Lemma below_100 (P : Z -> Prop) :
  (forall k : nat, (k < 100)%nat -> P (Z.of_nat k)) ->
  forall n, 0 <= n < 100 -> P n.
Proof.
  intros H n Hn. rewrite <- (Z2Nat.id n) by lia. apply H. lia.
Qed.

End JSFacts.

(* ===================================================================== *)
(** * Duration: display string and back *)
(* ===================================================================== *)

Module DurationFacts.
Import JS Effects VideoService JSFacts.

Section Duration.

Context {W : Type}.
Variable backend : Backend W.
Variable engine : Engine.

(** A two-digit field prints on two characters, without a colon, and
    reads back. *)
Lemma pad2_field n :
  0 <= n < 100 ->
  split ":" (pad2 engine (int n)) = [pad2 engine (int n)]
  /\ StringToNumber (pad2 engine (int n)) = int n
  /\ String.length (pad2 engine (int n)) = 2%nat.
Proof.
  revert n. apply below_100. intros k Hk.
  do 100 (destruct k as [|k]; [vm_compute; repeat split; reflexivity|]).
  lia.
Qed.

Lemma parse_two a b :
  0 <= a < 100 -> 0 <= b < 100 ->
  getDurationInSeconds (pad2 engine (int a) ++ ":" ++ pad2 engine (int b))
  = int (a * 60 + b).
Proof.
  intros Ha Hb.
  destruct (pad2_field a Ha) as (Sa & Na & _), (pad2_field b Hb) as (Sb & Nb & _).
  unfold getDurationInSeconds.
  change (":" ++ pad2 engine (int b))%string with (String ":" (pad2 engine (int b))).
  rewrite (split_app _ _ _ Sa), Sb. cbn [map].
  rewrite Na, Nb, num_mul_int, num_add_int. reflexivity.
Qed.

Lemma parse_three a b c :
  0 <= a < 100 -> 0 <= b < 100 -> 0 <= c < 100 ->
  getDurationInSeconds
    (pad2 engine (int a) ++ ":" ++ pad2 engine (int b) ++ ":" ++ pad2 engine (int c))
  = int (a * 3600 + b * 60 + c).
Proof.
  intros Ha Hb Hc.
  destruct (pad2_field a Ha) as (Sa & Na & _), (pad2_field b Hb) as (Sb & Nb & _),
           (pad2_field c Hc) as (Sc & Nc & _).
  unfold getDurationInSeconds.
  change (":" ++ pad2 engine (int c))%string with (String ":" (pad2 engine (int c))).
  change (":" ++ ?x)%string with (String ":" x).
  rewrite (split_app _ _ _ Sa), (split_app _ _ _ Sb), Sc. cbn [map].
  rewrite Na, Nb, Nc, !num_mul_int, !num_add_int. reflexivity.
Qed.

(** What [formattedDuration] computes on an integral number of seconds. *)
Lemma formattedDuration_int video S :
  0 <= S ->
  field video "duration" = JNum (int S) ->
  formattedDuration engine video =
    if S / 60 <? 60 then
      (pad2 engine (int (S / 60)) ++ ":" ++ pad2 engine (int (S mod 60)))%string
    else
      (pad2 engine (int (S / 60 / 60)) ++ ":"
       ++ pad2 engine (int ((S / 60) mod 60)) ++ ":"
       ++ pad2 engine (int (S mod 60)))%string.
Proof.
  intros HS Hd. unfold formattedDuration. rewrite Hd.
  rewrite !floor_div_int, !rem_int, num_lt_int by lia.
  rewrite !Z.rem_mod_nonneg by (try apply Z.div_pos; lia).
  reflexivity.
Qed.

Lemma normalizeVideo_duration video s :
  exists v s',
    normalizeVideo backend engine video s = (Ok v, s')
    /\ duration v = (if truthy (field video "duration")
                     then formattedDuration engine video else "00:00").
Proof.
  unfold normalizeVideo, bind, ret, now.
  destruct (truthy (field video "created_at")).
  - eexists _, _. split; reflexivity.
  - destruct (clock backend (world s)) as [t w]. eexists _, _. split; reflexivity.
Qed.

(** C1.  For every whole number of seconds [S] with [0 <= S < 86400], the
    display string [normalizeVideo] produces for a record of duration [S]
    is read back by [getDurationInSeconds] as [S].  The string has the five
    characters of [MM:SS] below one hour and the eight of [HH:MM:SS] from
    one hour on, every field being padded to two digits. *)
Theorem duration_round_trip (video : Document) (S : Z) (s : State W) :
  0 <= S < 86400 ->
  field video "duration" = JNum (int S) ->
  exists v s',
    normalizeVideo backend engine video s = (Ok v, s')
    /\ getDurationInSeconds (duration v) = int S
    /\ String.length (duration v) = if S <? 3600 then 5%nat else 8%nat.
Proof.
  intros HS Hd.
  destruct (normalizeVideo_duration video s) as (v & s' & Hrun & Hdur).
  exists v, s'. split; [exact Hrun|]. rewrite Hdur, Hd.
  cbn [truthy]. rewrite truthy_int.
  destruct (Z.eqb_spec S 0) as [->|Hnz]; [split; reflexivity|]. cbn [negb].
  rewrite (formattedDuration_int video S) by (lia || assumption).
  pose proof (Z.mod_pos_bound S 60 ltac:(lia)) as Hsec.
  pose proof (Z.div_mod S 60 ltac:(lia)) as Esec.
  assert (0 <= S / 60) by (apply Z.div_pos; lia).
  destruct (Z.ltb_spec (S / 60) 60) as [Hlt|Hge].
  - split.
    + rewrite parse_two by lia. f_equal. lia.
    + destruct (Z.ltb_spec S 3600); [|lia].
      rewrite !length_append.
      destruct (pad2_field (S / 60)) as (_ & _ & ->); [lia|].
      destruct (pad2_field (S mod 60)) as (_ & _ & ->); [lia|].
      reflexivity.
  - pose proof (Z.mod_pos_bound (S / 60) 60 ltac:(lia)) as Hmin.
    pose proof (Z.div_mod (S / 60) 60 ltac:(lia)) as Emin.
    assert (S / 60 < 1440) by (apply Z.div_lt_upper_bound; lia).
    assert (0 <= S / 60 / 60 < 24)
      by (split; [apply Z.div_pos; lia | apply Z.div_lt_upper_bound; lia]).
    split.
    + rewrite parse_three by lia. f_equal. lia.
    + destruct (Z.ltb_spec S 3600); [lia|].
      rewrite !length_append.
      destruct (pad2_field (S / 60 / 60)) as (_ & _ & ->); [lia|].
      destruct (pad2_field ((S / 60) mod 60)) as (_ & _ & ->); [lia|].
      destruct (pad2_field (S mod 60)) as (_ & _ & ->); [lia|].
      reflexivity.
Qed.

End Duration.

(** One hour, two minutes and five seconds: ["01:02:05"] and back. *)
Lemma duration_round_trip_witness :
  exists v s',
    normalizeVideo Fixtures.backend Fixtures.engine
      (Fixtures.record "b" "Dog Clip" 10 3725) (Fixtures.start []) = (Ok v, s')
    /\ getDurationInSeconds (duration v) = int 3725
    /\ String.length (duration v) = 8%nat.
Proof.
  apply (duration_round_trip Fixtures.backend Fixtures.engine
           (Fixtures.record "b" "Dog Clip" 10 3725) 3725 (Fixtures.start [])).
  - lia.
  - vm_compute. reflexivity.
Defined.

End DurationFacts.

(* ===================================================================== *)
(** * Normalization of a stored record *)
(* ===================================================================== *)

Module NormalizationFacts.
Import JS Effects VideoService JSFacts.

(** Runs [normalizeVideo] symbolically: one case per way of obtaining
    [createdAt], each leaving the record literal as the result. *)
Ltac run_normalize backend video s :=
  unfold normalizeVideo, bind, ret, now;
  destruct (truthy (field video "created_at")) eqn:?;
  [ | destruct (clock backend (world s)) as [? ?] ].

Lemma field_insert_ne (d : Document) k k' x :
  k <> k' -> field (<[k := x]> d) k' = field d k'.
Proof. intros H. unfold field. rewrite lookup_insert_ne by exact H. reflexivity. Qed.

Lemma js_or_falsy a b : truthy a = false -> js_or a b = b.
Proof. unfold js_or. intros ->. reflexivity. Qed.

Lemma js_or_truthy a b : truthy a = true -> js_or a b = a.
Proof. unfold js_or. intros ->. reflexivity. Qed.

Lemma js_or_idem a b : js_or (js_or a b) (js_or a b) = js_or a b.
Proof. unfold js_or. destruct (truthy a) eqn:Ea; [rewrite Ea|]; destruct (truthy b); reflexivity. Qed.

Section Normalization.

Context {W : Type}.
Variable backend : Backend W.
Variable engine : Engine.

Lemma normalizeVideo_total video s :
  exists v s', normalizeVideo backend engine video s = (Ok v, s').
Proof. run_normalize backend video s; eexists _, _; reflexivity. Qed.

(** The fields of the result that do not depend on the run. *)
Lemma normalizeVideo_fields video s v s' :
  normalizeVideo backend engine video s = (Ok v, s') ->
  title v = js_or (field video "title") (JStr "Untitled")
  /\ description v = js_or (field video "description") (JStr "")
  /\ videoFileId v = js_or (field video "video_id") JNull
  /\ video_id v = js_or (field video "video_id") JNull
  /\ thumbnailFileId v = js_or (field video "thumbnail_id") JNull
  /\ thumbnail_id v = js_or (field video "thumbnail_id") JNull.
Proof.
  run_normalize backend video s; intros [= <- _]; repeat split; reflexivity.
Qed.

Lemma normalizeVideo_numbers video s v s' :
  normalizeVideo backend engine video s = (Ok v, s') ->
  price v = match field video "price" with
            | JNum n => n
            | p => parseFloat (fraction_digits engine) (js_or p (JStr "0"))
            end
  /\ views v = match field video "views" with
               | JNum n => n
               | _ => Fin 0
               end
  /\ duration v = (if truthy (field video "duration")
                   then formattedDuration engine video else "00:00").
Proof.
  run_normalize backend video s; intros [= <- _]; repeat split; reflexivity.
Qed.

Lemma parseFloat_zero : parseFloat (fraction_digits engine) (JStr "0") = int 0.
Proof. reflexivity. Qed.

(** C2, as the code has it.  [normalizeVideo] returns a view for every
    record and never throws.  A missing (falsy) title becomes
    ["Untitled"], a missing description the empty string; a price that is
    a number is kept as it is and any other price is read by
    [parseFloat], which gives 0 for a missing one; views that are not a
    number become 0; a duration that is missing or not a number renders
    as ["00:00"]. *)
Theorem normalization_total_defaults (video : Document) (s : State W) :
  exists v s',
    normalizeVideo backend engine video s = (Ok v, s')
    /\ (truthy (field video "title") = false -> title v = JStr "Untitled")
    /\ (truthy (field video "description") = false -> description v = JStr "")
    /\ (forall n, field video "price" = JNum n -> price v = n)
    /\ (is_number (field video "price") = false ->
        price v = parseFloat (fraction_digits engine)
                    (js_or (field video "price") (JStr "0")))
    /\ (is_number (field video "price") = false ->
        truthy (field video "price") = false -> price v = int 0)
    /\ (is_number (field video "views") = false -> views v = int 0)
    /\ (is_number (field video "duration") = false -> duration v = "00:00")
    /\ (truthy (field video "duration") = false -> duration v = "00:00").
Proof.
  destruct (normalizeVideo_total video s) as (v & s' & Hrun).
  destruct (normalizeVideo_fields _ _ _ _ Hrun) as (Et & Ed & _).
  destruct (normalizeVideo_numbers _ _ _ _ Hrun) as (Ep & Ev & Edur).
  exists v, s'. split; [exact Hrun|].
  rewrite Et, Ed, Ep, Ev, Edur. clear.
  split; [intros Hf; apply js_or_falsy, Hf|].
  split; [intros Hf; apply js_or_falsy, Hf|].
  split; [intros n ->; reflexivity|].
  split; [destruct (field video "price"); intros Hn; (reflexivity || (cbn in Hn; discriminate Hn))|].
  split.
  { destruct (field video "price"); intros Hn Hf;
      try (cbn in Hn; discriminate Hn);
      rewrite (js_or_falsy _ _ Hf); apply parseFloat_zero. }
  split; [destruct (field video "views"); intros Hn; (reflexivity || (cbn in Hn; discriminate Hn))|].
  split.
  - unfold formattedDuration.
    destruct (field video "duration"); intros Hn; try (cbn in Hn; discriminate Hn);
      destruct (truthy _); reflexivity.
  - intros ->. reflexivity.
Qed.

(** C10.  Both aliases [videoFileId] and [video_id] carry the raw field
    [video_id], both [thumbnailFileId] and [thumbnail_id] the raw field
    [thumbnail_id] ([null] standing for a field without a usable
    value).  The two-field lookups of the callers therefore read one raw
    field each, and two records that differ only in raw fields named
    [videoFileId] or [thumbnailFileId] are normalized alike. *)
Theorem aliases_single_source (video : Document) (s : State W) :
  (exists v s',
     normalizeVideo backend engine video s = (Ok v, s')
     /\ videoFileId v = js_or (field video "video_id") JNull
     /\ video_id v = js_or (field video "video_id") JNull
     /\ thumbnailFileId v = js_or (field video "thumbnail_id") JNull
     /\ thumbnail_id v = js_or (field video "thumbnail_id") JNull
     /\ (truthy (field video "video_id") = true ->
         videoFileId v = field video "video_id"
         /\ video_id v = field video "video_id")
     /\ (truthy (field video "thumbnail_id") = true ->
         thumbnailFileId v = field video "thumbnail_id"
         /\ thumbnail_id v = field video "thumbnail_id")
     /\ js_or (thumbnailFileId v) (thumbnail_id v)
        = js_or (field video "thumbnail_id") JNull
     /\ js_or (video_id v) (videoFileId v)
        = js_or (field video "video_id") JNull)
  /\ (forall video' : Document,
        (forall name, name <> "videoFileId" -> name <> "thumbnailFileId" ->
                      field video' name = field video name) ->
        normalizeVideo backend engine video' s
        = normalizeVideo backend engine video s).
Proof.
  split.
  - destruct (normalizeVideo_total video s) as (v & s' & Hrun).
    destruct (normalizeVideo_fields _ _ _ _ Hrun) as (_ & _ & Ef & Ev & Etf & Et).
    exists v, s'. split; [exact Hrun|].
    rewrite Ef, Ev, Etf, Et, !js_or_idem.
    split; [reflexivity|]. split; [reflexivity|].
    split; [reflexivity|]. split; [reflexivity|].
    split; [intros Ht; rewrite (js_or_truthy _ _ Ht); split; reflexivity|].
    split; [intros Ht; rewrite (js_or_truthy _ _ Ht); split; reflexivity|].
    split; reflexivity.
  - intros video' Hsame.
    unfold normalizeVideo, formattedDuration.
    rewrite !Hsame by discriminate. reflexivity.
Qed.

End Normalization.

Section Determinism.

Context {W1 W2 : Type}.
Variable backend1 : Backend W1.
Variable backend2 : Backend W2.
Variable engine : Engine.

(** C3, as the code has it.  Two runs of [normalizeVideo] on the same
    record, on any two backends in any two states, agree on every field
    except possibly [createdAt]; when the record has a usable
    [created_at] they return the same view, which carries that
    [created_at], and do not read the clock.  For a record without a
    usable [created_at] each run reads its clock once and [createdAt] is
    the time it read: the time of the run. *)
Theorem normalization_deterministic_given_created_at
    (video : Document) (s1 : State W1) (s2 : State W2) :
  exists v1 s1' v2 s2',
    normalizeVideo backend1 engine video s1 = (Ok v1, s1')
    /\ normalizeVideo backend2 engine video s2 = (Ok v2, s2')
    /\ set_createdAt v1 JNull = set_createdAt v2 JNull
    /\ (truthy (field video "created_at") = true ->
        v1 = v2 /\ s1' = s1 /\ s2' = s2
        /\ createdAt v1 = field video "created_at")
    /\ (truthy (field video "created_at") = false ->
        createdAt v1 = JStr (fst (clock backend1 (world s1)))
        /\ world s1' = snd (clock backend1 (world s1))
        /\ trace s1' = trace s1
        /\ createdAt v2 = JStr (fst (clock backend2 (world s2)))
        /\ world s2' = snd (clock backend2 (world s2))
        /\ trace s2' = trace s2).
Proof.
  unfold normalizeVideo, bind, ret, now.
  destruct (truthy (field video "created_at")).
  - eexists _, _, _, _.
    split; [reflexivity|]. split; [reflexivity|]. split; [reflexivity|].
    split; [intros _; repeat split; reflexivity | discriminate].
  - destruct (clock backend1 (world s1)) as [t1 w1].
    destruct (clock backend2 (world s2)) as [t2 w2].
    eexists _, _, _, _.
    split; [reflexivity|]. split; [reflexivity|]. split; [reflexivity|].
    split; [discriminate | intros _; repeat split; reflexivity].
Qed.

End Determinism.

(** An empty record: every default at once. *)
Lemma normalization_total_defaults_witness :
  exists v s',
    normalizeVideo Fixtures.backend Fixtures.engine ∅ (Fixtures.start []) = (Ok v, s')
    /\ title v = JStr "Untitled" /\ description v = JStr ""
    /\ price v = int 0 /\ views v = int 0 /\ duration v = "00:00".
Proof.
  destruct (normalization_total_defaults Fixtures.backend Fixtures.engine ∅
              (Fixtures.start []))
    as (v & s' & Hrun & Ht & Hd & _ & _ & Hp & Hv & Hdur & _).
  exists v, s'. repeat split; auto.
Defined.

(** C2 as worded fails: a price that is not a number is not always coerced
    to 0.  The stored price ["free"] comes out as [NaN], which is neither 0
    nor at least 0. *)
Lemma price_not_coerced_to_zero :
  is_number (field ({[ "price" := JStr "free" ]} : Document) "price") = false
  /\ exists v s',
       normalizeVideo Fixtures.backend Fixtures.engine
         {[ "price" := JStr "free" ]} (Fixtures.start []) = (Ok v, s')
       /\ price v = NaN
       /\ price v <> int 0
       /\ num_lt (price v) (int 0) = false
       /\ num_lt (int 0) (price v) = false.
Proof.
  split; [reflexivity|].
  eexists _, _. split; [vm_compute; reflexivity|].
  cbn [price]. repeat split; discriminate.
Qed.

(** C3 as worded fails: two runs on the record without fields, one after
    the other, return views with different [createdAt]. *)
Lemma normalization_reads_the_clock :
  exists v1 s1 v2 s2,
    normalizeVideo Fixtures.backend Fixtures.engine ∅ (Fixtures.start []) = (Ok v1, s1)
    /\ normalizeVideo Fixtures.backend Fixtures.engine ∅ s1 = (Ok v2, s2)
    /\ createdAt v1 = JStr "2024-05-01T10:00:00.000Z"
    /\ createdAt v2 = JStr "2024-05-01T10:00:01.000Z"
    /\ v1 <> v2.
Proof.
  eexists _, _, _, _.
  split; [vm_compute; reflexivity|].
  split; [vm_compute; reflexivity|].
  repeat split; discriminate.
Qed.

Lemma normalization_deterministic_given_created_at_witness :
  exists v s1 s2,
    normalizeVideo Fixtures.backend Fixtures.engine
      (Fixtures.record "a" "Cat Video" 30 95) (Fixtures.start []) = (Ok v, s1)
    /\ normalizeVideo Fixtures.backend Fixtures.engine
         (Fixtures.record "a" "Cat Video" 30 95) (Fixtures.offline []) = (Ok v, s2).
Proof.
  destruct (normalization_deterministic_given_created_at
              Fixtures.backend Fixtures.backend Fixtures.engine
              (Fixtures.record "a" "Cat Video" 30 95)
              (Fixtures.start []) (Fixtures.offline []))
    as (v1 & s1 & v2 & s2 & H1 & H2 & _ & Heq & _).
  destruct (Heq ltac:(vm_compute; reflexivity)) as (-> & _ & _).
  exists v2, s1, s2. split; assumption.
Defined.

(** A legacy record whose file references sit in [videoFileId] and
    [thumbnailFileId] normalizes like the record without them. *)
Lemma aliases_single_source_witness :
  normalizeVideo Fixtures.backend Fixtures.engine
    (<["videoFileId" := JStr "f1"]> (<["thumbnailFileId" := JStr "t1"]>
       (Fixtures.record "a" "Cat Video" 30 95)))
    (Fixtures.start [])
  = normalizeVideo Fixtures.backend Fixtures.engine
      (Fixtures.record "a" "Cat Video" 30 95) (Fixtures.start []).
Proof.
  apply (aliases_single_source Fixtures.backend Fixtures.engine
           (Fixtures.record "a" "Cat Video" 30 95) (Fixtures.start [])).
  intros name H1 H2.
  rewrite !field_insert_ne by congruence. reflexivity.
Defined.

End NormalizationFacts.

(* ===================================================================== *)
(** * Running the effects *)
(* ===================================================================== *)

Module EffectFacts.
Import JS Effects.

Section Runs.

Context {W : Type}.
Variable backend : Backend W.

Lemma bind_ok {A B} (m : M W A) (k : A -> M W B) s a s1 :
  m s = (Ok a, s1) -> bind m k s = k a s1.
Proof. unfold bind. intros ->. reflexivity. Qed.

Lemma bind_throw {A B} (m : M W A) (k : A -> M W B) s e s1 :
  m s = (Throw e, s1) -> bind m k s = (Throw e, s1).
Proof. unfold bind. intros ->. reflexivity. Qed.

Lemma bind_inv {A B} (m : M W A) (k : A -> M W B) s b s' :
  bind m k s = (Ok b, s') ->
  exists a s1, m s = (Ok a, s1) /\ k a s1 = (Ok b, s').
Proof.
  unfold bind. destruct (m s) as [[a|e] s1]; [|discriminate].
  intros H. exists a, s1. split; [reflexivity | exact H].
Qed.

Lemma try_rethrow {A} (m : M W A) s :
  try_catch m (fun error => throw error) s = m s.
Proof. unfold try_catch, throw. destruct (m s) as [[a|e] s1]; reflexivity. Qed.

Lemma try_catch_ok {A} (m : M W A) h s a s1 :
  m s = (Ok a, s1) -> try_catch m h s = (Ok a, s1).
Proof. unfold try_catch. intros ->. reflexivity. Qed.

Lemma try_catch_throw {A} (m : M W A) h s e s1 :
  m s = (Throw e, s1) -> try_catch m h s = h e s1.
Proof. unfold try_catch. intros ->. reflexivity. Qed.

Lemma call_answer {R} (request : Api R) s r w :
  respond backend R request (world s) = (r, w) ->
  call backend request s = (r, after_call s request w).
Proof. unfold call. intros ->. reflexivity. Qed.

Lemma call_inv {R} (request : Api R) s r s1 :
  call backend request s = (r, s1) ->
  exists w, respond backend R request (world s) = (r, w)
            /\ s1 = after_call s request w.
Proof.
  unfold call, after_call.
  destruct (respond backend R request (world s)) as [r0 w].
  intros [= <- <-]. exists w. split; reflexivity.
Qed.

(** A [catch] that returns a value swallows every error. *)
Lemma total_catch {A} (m : M W A) (fallback : A) :
  total (try_catch m (fun _ => ret fallback)).
Proof.
  intros s. unfold try_catch, ret.
  destruct (m s) as [[a|e] s1]; eexists _, _; reflexivity.
Qed.

Lemma total_bind {A B} (m : M W A) (k : A -> M W B) :
  total m -> (forall a, total (k a)) -> total (bind m k).
Proof.
  intros Hm Hk s. destruct (Hm s) as (a & s1 & E).
  rewrite (bind_ok _ _ _ _ _ E). apply Hk.
Qed.

Lemma total_rethrow {A} (m : M W A) :
  total m -> total (try_catch m (fun error => throw error)).
Proof. intros Hm s. rewrite try_rethrow. apply Hm. Qed.

Lemma total_ret {A} (a : A) : total (ret a : M W A).
Proof. intros s. eexists _, _. reflexivity. Qed.

Lemma total_mapM {A B} (f : A -> M W B) l :
  (forall x, total (f x)) -> total (mapM f l).
Proof.
  intros Hf. induction l as [|x l IH]; cbn [mapM].
  - apply total_ret.
  - apply total_bind; [apply Hf|]. intros y.
    apply total_bind; [apply IH|]. intros ys. apply total_ret.
Qed.

(** Every element [mapM] returns comes from one run of the function. *)
Lemma mapM_Forall2 {A B} (f : A -> M W B) l s ys s' :
  mapM f l s = (Ok ys, s') ->
  Forall2 (fun x y => exists s0 s1, f x s0 = (Ok y, s1)) l ys.
Proof.
  revert s ys s'. induction l as [|x l IH]; cbn [mapM]; intros s ys s'.
  - intros [= <- _]. constructor.
  - unfold bind at 1. destruct (f x s) as [[y|e] s1] eqn:Ex; [|discriminate].
    unfold bind at 1. destruct (mapM f l s1) as [[zs|e] s2] eqn:El; [|discriminate].
    intros [= <- _]. constructor; [eauto | eapply IH; eassumption].
Qed.

(** A predicate that does not throw and leaves the state alone filters
    like [filter]. *)
Lemma filterM_pure {A} (p : A -> M W bool) (q : A -> bool) l s :
  Forall (fun x => forall s0, p x s0 = (Ok (q x), s0)) l ->
  filterM p l s = (Ok (List.filter q l), s).
Proof.
  induction 1 as [|x l Hx _ IH]; cbn [filterM List.filter]; [reflexivity|].
  rewrite (bind_ok _ _ _ _ _ (Hx s)), (bind_ok _ _ _ _ _ IH).
  unfold ret. destruct (q x); reflexivity.
Qed.

End Runs.

Lemma Forall2_In_r {A B} (R : A -> B -> Prop) l ys y :
  Forall2 R l ys -> In y ys -> exists x, In x l /\ R x y.
Proof.
  induction 1 as [|x z l ys Hxz _ IH]; intros Hin; [destruct Hin|].
  destruct Hin as [->|Hin].
  - exists x. split; [left; reflexivity | exact Hxz].
  - destruct (IH Hin) as (x' & Hx' & HR). exists x'. split; [right|]; assumption.
Qed.

(** ** [sort] permutes *)

Lemma insert_sorted_perm {A} (cmp : A -> A -> number) x l :
  Permutation (insert_sorted cmp x l) (x :: l).
Proof.
  induction l as [|y l IH]; cbn [insert_sorted]; [reflexivity|].
  destruct (num_lt (Fin 0) (cmp x y)); [|reflexivity].
  rewrite IH. apply perm_swap.
Qed.

Lemma sort_perm {A} (cmp : A -> A -> number) l : Permutation (sort cmp l) l.
Proof.
  induction l as [|x l IH]; cbn [sort fold_right]; [reflexivity|].
  fold (sort cmp l). rewrite insert_sorted_perm, IH. reflexivity.
Qed.

End EffectFacts.

(* ===================================================================== *)
(** * Schema reconciliation *)
(* ===================================================================== *)

Module SchemaFacts.
Import JS Effects AppwriteSchemaManager EffectFacts.

Section Schema.

Context {W : Type}.
Variable backend : Backend W.
Variable config : Config.

Lemma exists_in_true existing attr :
  In (key attr) (map Effects.key existing) -> exists_in existing attr = true.
Proof.
  intros H. unfold exists_in. apply existsb_exists.
  apply in_map_iff in H. destruct H as (x & Hk & Hx).
  exists x. split; [exact Hx|]. rewrite Hk. apply String.eqb_refl.
Qed.

(** The loop body does nothing for an attribute that is reported. *)
Lemma loop_skips existing required (create : AttributeSpec -> M W unit) s :
  (forall attr, In attr required -> In (key attr) (map Effects.key existing)) ->
  for_of required
    (fun attr =>
       if negb (exists_in existing attr) then create attr ;;; sleep 1000
       else ret tt) s
  = (Ok tt, s).
Proof.
  induction required as [|attr required IH]; intros H; cbn [for_of]; [reflexivity|].
  rewrite (exists_in_true existing attr) by (apply H; left; reflexivity).
  cbn [negb]. unfold bind at 1, ret at 1.
  apply IH. intros a Ha. apply H. right. exact Ha.
Qed.

Lemma ensure_noop collectionId required create s collection w :
  respond backend _ (getCollection (databaseId config) collectionId) (world s)
    = (Ok collection, w) ->
  (forall attr, In attr required ->
                In (key attr) (map Effects.key (attributes collection))) ->
  ensure backend config collectionId required create s
  = (Ok tt, after_call s (getCollection (databaseId config) collectionId) w).
Proof.
  intros Hget Hall. unfold ensure.
  apply try_catch_ok.
  rewrite (bind_ok _ _ _ _ _ (call_answer backend _ _ _ _ Hget)).
  apply loop_skips, Hall.
Qed.

(** The four reconciliations never throw. *)
Lemma ensure_total collectionId required create :
  total (ensure backend config collectionId required create).
Proof. apply total_catch. Qed.

(** C6.  When the attribute list the backend reports for a collection
    already has every declared key, the reconciliation of that collection
    sends the one request that reads the list and nothing else: no
    attribute is created, none is altered, and the backend is left as the
    read left it.  This holds for each of the four collections. *)
Theorem reconciliation_idempotent
    (c : Reconciled) (s : State W) (collection : Collection) (w : W) :
  respond backend _ (getCollection (databaseId config) (collection_of config c))
    (world s) = (Ok collection, w) ->
  (forall attr, In attr (declared c) ->
                In (key attr) (map Effects.key (attributes collection))) ->
  exists s',
    reconcile backend config c s = (Ok tt, s')
    /\ trace s' =
       (trace s ++ [Called (getCollection (databaseId config) (collection_of config c))])%list
    /\ List.filter is_write (skipn (List.length (trace s)) (trace s')) = []
    /\ world s' = w.
Proof.
  intros Hget Hall.
  exists (after_call s (getCollection (databaseId config) (collection_of config c)) w).
  split.
  - destruct c; apply (ensure_noop _ _ _ _ collection); assumption.
  - cbn [after_call trace world]. split; [reflexivity|]. split; [|reflexivity].
    rewrite skipn_app, skipn_all, Nat.sub_diag. reflexivity.
Qed.

End Schema.

(** The video collection with its ten attributes already in place. *)
Lemma reconciliation_idempotent_witness :
  exists s',
    ensureVideoCollectionAttributes Fixtures.backend Fixtures.config
      (Fixtures.provisioned
         (map (fun a => ("videos", key a)) videoAttributes)) = (Ok tt, s')
    /\ trace s' = [Called (getCollection "main" "videos")].
Proof.
  destruct (reconciliation_idempotent Fixtures.backend Fixtures.config Videos
              (Fixtures.provisioned
                 (map (fun a => ("videos", key a)) videoAttributes))
              {| attributes := map (fun a => {| Effects.key := key a |}) videoAttributes |}
              (world (Fixtures.provisioned
                        (map (fun a => ("videos", key a)) videoAttributes))))
    as (s' & Hrun & Htrace & _).
  - vm_compute. reflexivity.
  - intros attr Hin. cbn [attributes]. rewrite map_map. cbn [Effects.key].
    apply in_map. exact Hin.
  - exists s'. split; [exact Hrun | exact Htrace].
Defined.

End SchemaFacts.

(* ===================================================================== *)
(** * Errors, thumbnails and file URLs *)
(* ===================================================================== *)

Module ServiceFacts.
Import JS Effects VideoService AppwriteSchemaManager EffectFacts NormalizationFacts.

Lemma href_nonempty (u : URL) : href u <> "".
Proof. unfold href. destruct (scheme u); discriminate. Qed.

Lemma placeholder_nonempty : placeholder <> "".
Proof. discriminate. Qed.

Section Services.

Context {W : Type}.
Variable backend : Backend W.
Variable config : Config.
Variable engine : Engine.

Let listing : Api DocumentList :=
  listDocuments (databaseId config) (videoCollectionId config) [].

Let fetching (videoId : string) : Api Document :=
  getDocument (databaseId config) (videoCollectionId config) videoId.

(** ** The thumbnail step *)

Lemma resolveThumbnail_outcome (video : Video) (s : State W) :
  let reference := js_or (thumbnailFileId video) (thumbnail_id video) in
  let request := getFileView (thumbnailsBucketId config) reference in
  if truthy reference then
    match respond backend _ request (world s) with
    | (Ok url, w) =>
        resolveThumbnail backend config video s
        = (Ok (set_thumbnailUrl video (JStr (href url))), after_call s request w)
    | (Throw _, w) =>
        resolveThumbnail backend config video s
        = (Ok (set_thumbnailUrl video (JStr placeholder)), after_call s request w)
    end
  else
    resolveThumbnail backend config video s
    = (Ok (set_thumbnailUrl video (JStr placeholder)), s).
Proof.
  cbn zeta. unfold resolveThumbnail.
  destruct (truthy (js_or (thumbnailFileId video) (thumbnail_id video)));
    [|reflexivity].
  unfold try_catch, bind, call, after_call, ret.
  destruct (respond backend _ _ (world s)) as [[url|e] w]; reflexivity.
Qed.

Lemma resolveThumbnail_total video : total (resolveThumbnail backend config video).
Proof.
  intros s. pose proof (resolveThumbnail_outcome video s) as H. cbn zeta in H.
  destruct (truthy _); [|eauto].
  destruct (respond backend _ _ (world s)) as [[url|e] w]; eauto.
Qed.

Lemma resolveThumbnail_sets video s v s' :
  resolveThumbnail backend config video s = (Ok v, s') ->
  exists u, v = set_thumbnailUrl video (JStr u) /\ u <> "".
Proof.
  pose proof (resolveThumbnail_outcome video s) as H. cbn zeta in H.
  destruct (truthy _).
  - destruct (respond backend _ _ (world s)) as [[url|e] w];
      rewrite H; intros [= <- _]; eexists; split; try reflexivity.
    + apply href_nonempty.
    + apply placeholder_nonempty.
  - rewrite H. intros [= <- _]. eexists. split; [reflexivity|].
    apply placeholder_nonempty.
Qed.

(** ** The operations that swallow their errors *)

Lemma getVideo_total videoId : total (getVideo backend config engine videoId).
Proof. apply total_catch. Qed.

Lemma incrementViews_total videoId :
  total (incrementViews backend config engine videoId).
Proof. apply total_catch. Qed.

Lemma getVideoFileUrl_total videoId :
  total (getVideoFileUrl backend config engine videoId).
Proof. apply total_catch. Qed.

Lemma initializeSchema_total : total (initializeSchema backend config).
Proof.
  apply total_rethrow.
  repeat (apply total_bind; [apply total_catch | intros _]).
  apply total_catch.
Qed.

Lemma getVideo_missing videoId s e w :
  respond backend _ (fetching videoId) (world s) = (Throw e, w) ->
  getVideo backend config engine videoId s
  = (Ok None, after_call s (fetching videoId) w).
Proof.
  intros H. unfold getVideo.
  rewrite (try_catch_throw _ _ _ e (after_call s (fetching videoId) w)).
  - reflexivity.
  - apply bind_throw, call_answer, H.
Qed.

Lemma getAllVideos_listing_fails sortOption searchQuery s e w :
  respond backend _ listing (world s) = (Throw e, w) ->
  getAllVideos backend config engine sortOption searchQuery s
  = (Throw e, after_call s listing w).
Proof.
  intros H. unfold getAllVideos. rewrite try_rethrow.
  apply bind_throw, call_answer, H.
Qed.

(** C4.  A failure of the document-listing request comes out of
    [getAllVideos], and so out of [getVideosWithPagination], as the same
    error.  Schema provisioning, [getVideo], [incrementViews] and
    [getVideoFileUrl] return on every backend in every state: a failed
    fetch makes [getVideo] and [getVideoFileUrl] return [null] and
    [incrementViews] return normally. *)
Theorem errors_propagate_only_from_listing :
  (forall sortOption searchQuery s e w,
      respond backend _ listing (world s) = (Throw e, w) ->
      getAllVideos backend config engine sortOption searchQuery s
      = (Throw e, after_call s listing w)
      /\ forall page perPage,
          getVideosWithPagination backend config engine page perPage
            sortOption searchQuery s
          = (Throw e, after_call s listing w))
  /\ (forall s, exists s', initializeSchema backend config s = (Ok tt, s'))
  /\ (forall videoId s,
        (exists r s', getVideo backend config engine videoId s = (Ok r, s'))
        /\ (exists s', incrementViews backend config engine videoId s = (Ok tt, s'))
        /\ (exists r s',
              getVideoFileUrl backend config engine videoId s = (Ok r, s')))
  /\ (forall videoId s e w,
        respond backend _ (fetching videoId) (world s) = (Throw e, w) ->
        getVideo backend config engine videoId s
        = (Ok None, after_call s (fetching videoId) w)
        /\ incrementViews backend config engine videoId s
           = (Ok tt, after_call s (fetching videoId) w)
        /\ getVideoFileUrl backend config engine videoId s
           = (Ok None, after_call s (fetching videoId) w)).
Proof.
  split; [|split; [|split]].
  - intros sortOption searchQuery s e w H.
    pose proof (getAllVideos_listing_fails sortOption searchQuery s e w H) as Hall.
    split; [exact Hall|]. intros page perPage.
    unfold getVideosWithPagination. rewrite try_rethrow.
    apply bind_throw, Hall.
  - intros s. destruct (initializeSchema_total s) as ([] & s' & H). eauto.
  - intros videoId s. split; [apply getVideo_total|]. split.
    + destruct (incrementViews_total videoId s) as ([] & s' & H). eauto.
    + apply getVideoFileUrl_total.
  - intros videoId s e w H. split; [exact (getVideo_missing _ _ _ _ H)|]. split.
    + unfold incrementViews.
      rewrite (try_catch_throw _ _ _ e (after_call s (fetching videoId) w));
        [reflexivity|].
      apply bind_throw, call_answer, H.
    + unfold getVideoFileUrl. apply try_catch_ok.
      rewrite (bind_ok _ _ _ _ _ (getVideo_missing videoId s e w H)).
      reflexivity.
Qed.



(** C7.  The thumbnail step never throws: with a reference that the
    backend resolves it stores the resolved address, and with no
    reference or a failed resolution it stores the placeholder.  Every
    view [getAllVideos] or [getVideo] returns has been through that step
    and carries a non-empty [thumbnailUrl]. *)
Theorem thumbnail_always_present :
  (forall video s,
      let reference := js_or (thumbnailFileId video) (thumbnail_id video) in
      let request := getFileView (thumbnailsBucketId config) reference in
      if truthy reference then
        match respond backend _ request (world s) with
        | (Ok url, w) =>
            resolveThumbnail backend config video s
            = (Ok (set_thumbnailUrl video (JStr (href url))), after_call s request w)
        | (Throw _, w) =>
            resolveThumbnail backend config video s
            = (Ok (set_thumbnailUrl video (JStr placeholder)), after_call s request w)
        end
      else
        resolveThumbnail backend config video s
        = (Ok (set_thumbnailUrl video (JStr placeholder)), s))
  /\ (forall sortOption searchQuery s out s',
        getAllVideos backend config engine sortOption searchQuery s = (Ok out, s') ->
        forall v, In v out ->
          (exists v0 s0 s1, resolveThumbnail backend config v0 s0 = (Ok v, s1))
          /\ exists u, thumbnailUrl v = JStr u /\ u <> "")
  /\ (forall videoId s v s',
        getVideo backend config engine videoId s = (Ok (Some v), s') ->
        (exists v0 s0 s1, resolveThumbnail backend config v0 s0 = (Ok v, s1))
        /\ exists u, thumbnailUrl v = JStr u /\ u <> "").
Proof.
  assert (Hstep : forall v0 s0 v s1,
             resolveThumbnail backend config v0 s0 = (Ok v, s1) ->
             (exists v0 s0 s1, resolveThumbnail backend config v0 s0 = (Ok v, s1))
             /\ exists u, thumbnailUrl v = JStr u /\ u <> "").
  { intros v0 s0 v s1 H. split; [eauto|].
    destruct (resolveThumbnail_sets _ _ _ _ H) as (u & -> & Hu).
    exists u. split; [reflexivity | exact Hu]. }
  split; [exact resolveThumbnail_outcome|]. split.
  - intros sortOption searchQuery s out s' H v Hin.
    unfold getAllVideos in H. rewrite try_rethrow in H.
    apply bind_inv in H. destruct H as (response & s1 & _ & H).
    apply bind_inv in H. destruct H as (normalized & s2 & _ & H).
    apply bind_inv in H. destruct H as (kept & s3 & _ & H).
    apply bind_inv in H. destruct H as (thumbed & s4 & Hmap & H).
    injection H as <- _.
    apply (Permutation_in _ (sort_perm _ _)) in Hin.
    apply mapM_Forall2 in Hmap.
    destruct (Forall2_In_r _ _ _ _ Hmap Hin) as (v0 & _ & s0 & s5 & Hrun).
    exact (Hstep _ _ _ _ Hrun).
  - intros videoId s v s' H. unfold getVideo in H.
    unfold try_catch in H.
    destruct (bind _ _ s) as [[r|e] s1] eqn:Hb; [|discriminate].
    injection H as -> ->.
    apply bind_inv in Hb. destruct Hb as (doc & s2 & _ & Hb).
    apply bind_inv in Hb. destruct Hb as (v0 & s3 & _ & Hb).
    apply bind_inv in Hb. destruct Hb as (v1 & s4 & Hrun & Hb).
    injection Hb as <- _.
    exact (Hstep _ _ _ _ Hrun).
Qed.

End Services.

(** With the backend down, listing fails and the single-record operations
    return empty-handed. *)
Lemma errors_propagate_only_from_listing_witness :
  exists s',
    getAllVideos Fixtures.backend Fixtures.config Fixtures.engine NEWEST ""
      (Fixtures.offline Fixtures.pets) = (Throw Fixtures.unavailable, s')
    /\ getVideosWithPagination Fixtures.backend Fixtures.config Fixtures.engine
         (int 1) (int 12) NEWEST "" (Fixtures.offline Fixtures.pets)
       = (Throw Fixtures.unavailable, s')
    /\ exists s'',
         getVideoFileUrl Fixtures.backend Fixtures.config Fixtures.engine "a"
           (Fixtures.offline Fixtures.pets) = (Ok None, s'').
Proof.
  destruct (errors_propagate_only_from_listing
              Fixtures.backend Fixtures.config Fixtures.engine)
    as (Hlist & _ & _ & Hone).
  destruct (Hlist NEWEST "" (Fixtures.offline Fixtures.pets) Fixtures.unavailable
              (world (Fixtures.offline Fixtures.pets)) eq_refl) as (Hall & Hpage).
  destruct (Hone "a" (Fixtures.offline Fixtures.pets) Fixtures.unavailable
              (world (Fixtures.offline Fixtures.pets)) eq_refl) as (_ & _ & Hurl).
  eexists. split; [exact Hall|]. split; [apply Hpage|].
  eexists. exact Hurl.
Defined.

(** A stored record without a thumbnail reference gets the placeholder. *)
Lemma thumbnail_always_present_witness :
  exists v s' u,
    getVideo Fixtures.backend Fixtures.config Fixtures.engine "a"
      (Fixtures.start Fixtures.pets) = (Ok (Some v), s')
    /\ thumbnailUrl v = JStr u /\ u <> "".
Proof.
  destruct (thumbnail_always_present
              Fixtures.backend Fixtures.config Fixtures.engine)
    as (_ & _ & Hone).
  destruct (getVideo Fixtures.backend Fixtures.config Fixtures.engine "a"
              (Fixtures.start Fixtures.pets)) as [[[v|]|e] s'] eqn:Hrun;
    try (vm_compute in Hrun; discriminate Hrun).
  destruct (Hone "a" (Fixtures.start Fixtures.pets) v s' Hrun) as (_ & u & Hu & Hne).
  exists v, s', u. repeat split; assumption.
Defined.



End ServiceFacts.

(* ===================================================================== *)
(** * Pagination *)
(* ===================================================================== *)

Module PaginationFacts.
Import JS Effects VideoService EffectFacts JSFacts.

Lemma relative_index_int len a :
  0 <= a -> relative_index len (int a) = Z.to_nat (Z.min a (Z.of_nat len)).
Proof.
  intros Ha. unfold relative_index, int. rewrite Qtrunc_int.
  destruct (Z.ltb_spec a 0); [lia | reflexivity].
Qed.

(** [slice] with a non-negative start and a length is a window. *)
Lemma slice_window {A} (l : list A) a n :
  0 <= a -> 0 <= n ->
  slice l (int a) (int (a + n)) = firstn (Z.to_nat n) (skipn (Z.to_nat a) l).
Proof.
  intros Ha Hn. unfold slice. rewrite !relative_index_int by lia.
  destruct (Z.le_gt_cases a (Z.of_nat (List.length l))) as [Hin|Hout].
  - rewrite (Z.min_l a) by lia.
    destruct (Z.le_gt_cases (a + n) (Z.of_nat (List.length l))) as [Hfit|Hcut].
    + rewrite Z.min_l by lia. f_equal. lia.
    + rewrite Z.min_r by lia.
      rewrite !firstn_all2; [reflexivity | |]; rewrite length_skipn; lia.
  - rewrite !Z.min_r by lia.
    replace (Z.to_nat (Z.of_nat (List.length l)) - Z.to_nat (Z.of_nat (List.length l)))%nat
      with 0%nat by lia.
    rewrite (skipn_all2 l (n := Z.to_nat a)) by lia.
    rewrite firstn_nil. reflexivity.
Qed.

Lemma ceiling_bounds n p :
  0 < p -> (- (- n / p) - 1) * p < n <= - (- n / p) * p.
Proof.
  intros Hp.
  pose proof (Z.mul_div_le (- n) p Hp).
  pose proof (Z.mul_succ_div_gt (- n) p Hp).
  lia.
Qed.

Section Pagination.

Context {W : Type}.
Variable backend : Backend W.
Variable config : Config.
Variable engine : Engine.

(** C5.  For whole numbers [page >= 1] and [perPage >= 1], on a catalogue
    [all] of [n] sorted and filtered views, [getVideosWithPagination]
    returns [totalPages], the least whole number of pages of [perPage]
    views that hold [n] views (the ceiling of [n / perPage]), and the
    views of [all] at positions [(page-1)*perPage] up to, not including,
    [page*perPage]; the list is empty, and nothing is thrown, when
    [(page-1)*perPage >= n]. *)
Theorem pagination_window_and_total (sortOption : SortOption) (searchQuery : string)
    (s s' : State W) (all : list Video) (page perPage : Z) :
  getAllVideos backend config engine sortOption searchQuery s = (Ok all, s') ->
  1 <= page -> 1 <= perPage ->
  exists window pages,
    getVideosWithPagination backend config engine (int page) (int perPage)
      sortOption searchQuery s
    = (Ok {| videos := window; totalPages := int pages |}, s')
    /\ window = firstn (Z.to_nat perPage) (skipn (Z.to_nat ((page - 1) * perPage)) all)
    /\ (forall i : nat,
          nth_error window i =
            if (Z.of_nat i <? perPage)
            then nth_error all (Z.to_nat ((page - 1) * perPage) + i)
            else None)
    /\ (pages - 1) * perPage < Z.of_nat (List.length all) <= pages * perPage
    /\ (Z.of_nat (List.length all) <= (page - 1) * perPage -> window = []).
Proof.
  intros Hall Hpage Hper.
  exists (firstn (Z.to_nat perPage) (skipn (Z.to_nat ((page - 1) * perPage)) all)),
         (- (- Z.of_nat (List.length all) / perPage)).
  split; [|split; [reflexivity|split; [|split]]].
  - unfold getVideosWithPagination. rewrite try_rethrow.
    rewrite (bind_ok _ _ _ _ _ Hall). unfold ret.
    rewrite ceil_div_int, num_sub_int, num_mul_int, num_add_int by lia.
    rewrite slice_window by nia. reflexivity.
  - intros i. destruct (Z.ltb_spec (Z.of_nat i) perPage) as [Hlt|Hge].
    + rewrite nth_error_firstn.
      destruct (Nat.ltb_spec i (Z.to_nat perPage)); [|lia].
      apply nth_error_skipn.
    + apply nth_error_None. rewrite length_firstn. lia.
  - apply ceiling_bounds. lia.
  - intros Hout. rewrite skipn_all2 by lia. apply firstn_nil.
Qed.

End Pagination.

(** Ten records, four per page: page 3 holds the records 8 and 9 and there
    are 3 pages. *)
Lemma pagination_window_and_total_witness :
  exists window s',
    getVideosWithPagination Fixtures.backend Fixtures.config Fixtures.engine
      (int 3) (int 4) PRICE_ASC "" (Fixtures.start Fixtures.ten_records)
    = (Ok {| videos := window; totalPages := int 3 |}, s')
    /\ map dollar_id window = [JStr "8"; JStr "9"].
Proof.
  pose (run := getAllVideos Fixtures.backend Fixtures.config Fixtures.engine
                 PRICE_ASC "" (Fixtures.start Fixtures.ten_records)).
  pose (all := match fst run with Ok l => l | Throw _ => [] end).
  destruct (pagination_window_and_total Fixtures.backend Fixtures.config Fixtures.engine
              PRICE_ASC "" (Fixtures.start Fixtures.ten_records) (snd run) all 3 4)
    as (window & pages & Hrun & Hwin & _ & Hpages & _).
  - vm_compute. reflexivity.
  - lia.
  - lia.
  - assert (Hlen : List.length all = 10%nat) by (vm_compute; reflexivity).
    rewrite Hlen in Hpages. assert (pages = 3) as -> by lia.
    exists window, (snd run). split; [exact Hrun|].
    rewrite Hwin. vm_compute. reflexivity.
Defined.

End PaginationFacts.

(* ===================================================================== *)
(** * Search *)
(* ===================================================================== *)

Module SearchFacts.
Import JS Effects VideoService EffectFacts JSFacts NormalizationFacts ServiceFacts.

(** ** [includes] decides the substring relation *)

Lemma prefix_spec (a b : string) :
  String.prefix a b = true <-> exists post, b = (a ++ post)%string.
Proof.
  revert b. induction a as [|c a IH]; intros b.
  - split; [intros _; exists b; reflexivity | intros _; destruct b; reflexivity].
  - destruct b as [|d b]; cbn [String.prefix].
    + split; [discriminate | intros (post & H); discriminate H].
    + destruct (Ascii.ascii_dec c d) as [->|Hne].
      * rewrite IH. split; intros (post & H); exists post.
        -- rewrite append_String. f_equal. exact H.
        -- rewrite append_String in H. injection H as H. exact H.
      * split; [discriminate|]. intros (post & H).
        rewrite append_String in H. injection H as H _. congruence.
Qed.

Lemma includes_spec (hay needle : string) :
  includes hay needle = true
  <-> exists pre post, hay = (pre ++ needle ++ post)%string.
Proof.
  induction hay as [|c hay IH]; cbn [includes]; rewrite Bool.orb_true_iff.
  - split.
    + intros [H|H]; [|discriminate]. apply prefix_spec in H.
      destruct H as (post & H). exists EmptyString, post. exact H.
    + intros (pre & post & H). left. apply prefix_spec.
      destruct pre; [exists post; exact H | discriminate H].
  - split.
    + intros [H|H].
      * apply prefix_spec in H. destruct H as (post & H).
        exists EmptyString, post. exact H.
      * apply IH in H. destruct H as (pre & post & ->).
        exists (String c pre), post. reflexivity.
    + intros (pre & post & H). destruct pre as [|d pre].
      * left. apply prefix_spec. exists post. exact H.
      * right. apply IH. rewrite append_String in H. injection H as _ H.
        exists pre, post. exact H.
Qed.

Lemma trim_empty : trim "" = "".
Proof. reflexivity. Qed.

Lemma forget_set_thumbnailUrl v u :
  forget_thumbnailUrl (set_thumbnailUrl v u) = forget_thumbnailUrl v.
Proof. reflexivity. Qed.

Lemma string_or_default raw fallback :
  string_or_absent raw = true -> exists t, js_or raw (JStr fallback) = JStr t.
Proof.
  unfold js_or. destruct raw; cbn [string_or_absent]; intros H;
    try (rewrite Bool.negb_true_iff in H; rewrite H); eauto.
  destruct (truthy (JStr s)); eauto.
Qed.

Section Search.

Context {W : Type}.
Variable backend : Backend W.
Variable config : Config.
Variable engine : Engine.

Let listing : Api DocumentList :=
  listDocuments (databaseId config) (videoCollectionId config) [].

(** On a view whose title and description are strings the filter
    predicate of the source returns the criterion and touches nothing. *)
Lemma matches_pure query v t d :
  title v = JStr t -> description v = JStr d ->
  forall s : State W, matches engine query v s = (Ok (search_hit engine query v), s).
Proof.
  intros Ht Hd s. unfold matches, search_hit. rewrite Ht, Hd.
  cbn [call_toLowerCase text]. unfold bind, ret.
  destruct (includes (toLowerCase engine t) query); reflexivity.
Qed.

Lemma thumbnails_keep_the_rest l s thumbed s' :
  mapM (resolveThumbnail backend config) l s = (Ok thumbed, s') ->
  map forget_thumbnailUrl thumbed = map forget_thumbnailUrl l.
Proof.
  intros H. apply mapM_Forall2 in H.
  induction H as [|v t l thumbed (s0 & s1 & Hrun) _ IH]; [reflexivity|].
  cbn [map]. rewrite IH.
  destruct (resolveThumbnail_sets backend config _ _ _ _ Hrun) as (u & -> & _).
  reflexivity.
Qed.

(** When the filter predicate of the source returns at all, it returns
    the criterion and has touched nothing. *)
Lemma matches_inv query v (s : State W) b s' :
  matches engine query v s = (Ok b, s') -> b = search_hit engine query v /\ s' = s.
Proof.
  unfold matches, search_hit, bind, ret, throw.
  destruct (title v); cbn [call_toLowerCase]; try discriminate.
  cbn [text]. unfold ret.
  destruct (includes (toLowerCase engine s0) query).
  - intros [= <- <-]. split; reflexivity.
  - destruct (description v); cbn [call_toLowerCase]; unfold ret, throw;
      try discriminate.
    intros [= <- <-]. split; reflexivity.
Qed.

Lemma filterM_matches_inv query l (s : State W) kept s' :
  filterM (matches engine query) l s = (Ok kept, s') ->
  kept = List.filter (search_hit engine query) l /\ s' = s.
Proof.
  revert s kept s'.
  induction l as [|v l IH]; cbn [filterM List.filter]; intros s kept s' H.
  - injection H as <- <-. split; reflexivity.
  - apply bind_inv in H. destruct H as (b & s1 & Hv & H).
    apply bind_inv in H. destruct H as (rest & s2 & Hl & H).
    apply matches_inv in Hv. destruct Hv as (-> & ->).
    apply IH in Hl. destruct Hl as (-> & ->).
    injection H as <- <-. split; reflexivity.
Qed.

(** On a catalogue whose titles and descriptions are strings or absent the
    listing, once fetched, is returned. *)
Lemma getAllVideos_returns sortOption searchQuery s response w :
  respond backend _ listing (world s) = (Ok response, w) ->
  Forall (fun d => string_or_absent (field d "title") = true
                   /\ string_or_absent (field d "description") = true)
         (documents response) ->
  exists out s2,
    getAllVideos backend config engine sortOption searchQuery s = (Ok out, s2).
Proof.
  intros Hlist Htyped.
  destruct (total_mapM (normalizeVideo backend engine) (documents response)
              (normalizeVideo_total backend engine) (after_call s listing w))
    as (normalized & s1 & Hnorm).
  assert (Hstrings : Forall (fun v => exists t d, title v = JStr t
                                                  /\ description v = JStr d)
                            normalized).
  { pose proof (mapM_Forall2 _ _ _ _ _ Hnorm) as H2.
    clear Hnorm. induction H2 as [|d v docs vs (s0 & s0' & Hrun) _ IH];
      [constructor|].
    inversion Htyped as [|? ? (Ht & Hd) Hrest]; subst.
    constructor; [|apply IH, Hrest].
    destruct (normalizeVideo_fields _ _ _ _ _ _ Hrun) as (Et & Ed & _).
    destruct (string_or_default _ "Untitled" Ht) as (t & Ht').
    destruct (string_or_default _ "" Hd) as (t' & Hd').
    exists t, t'. rewrite Et, Ed. split; assumption. }
  set (query := toLowerCase engine (trim searchQuery)).
  assert (Hfilter : exists kept,
            (if negb (String.eqb searchQuery "")
                && negb (String.eqb (trim searchQuery) "")
             then filterM (matches engine query) normalized
             else ret normalized) s1 = (Ok kept, s1)).
  { destruct (_ && _); [|eexists; reflexivity].
    exists (List.filter (search_hit engine query) normalized).
    apply filterM_pure.
    eapply List.Forall_impl; [|exact Hstrings].
    intros v (t & d & Ht & Hd). eapply matches_pure; eassumption. }
  destruct Hfilter as (kept & Hfilter).
  destruct (total_mapM (resolveThumbnail backend config) kept
              (resolveThumbnail_total backend config) s1)
    as (thumbed & s2 & Hthumbs).
  exists (sort (comparator engine sortOption) thumbed), s2.
  unfold getAllVideos. rewrite try_rethrow.
  rewrite (bind_ok _ _ _ _ _ (call_answer backend _ _ _ _ Hlist)).
  rewrite (bind_ok _ _ _ _ _ Hnorm).
  fold query.
  rewrite (bind_ok _ _ _ _ _ Hfilter), (bind_ok _ _ _ _ _ Hthumbs).
  reflexivity.
Qed.

(** C8.  What [getAllVideos] returns is, thumbnails and order apart,
    exactly the normalized records whose lower-cased title or description
    has the trimmed, lower-cased query as a substring; with a query that is
    empty or only white space it is all the normalized records.  Lower
    case is the engine's [toLowerCase], with its Unicode case mappings, and
    white space is all of the language's, the blanks beyond U+007F
    included, so that this holds of every query and every text; on text
    of one-byte characters lower case is that of the letters A to Z.  It
    does return once the listing is fetched, on a catalogue whose titles
    and descriptions are strings or absent. *)
Theorem search_keeps_exactly_the_hits
    (sortOption : SortOption) (searchQuery : string) (s : State W) :
  let query := toLowerCase engine (trim searchQuery) in
  (forall out s2,
      getAllVideos backend config engine sortOption searchQuery s = (Ok out, s2) ->
      exists response w normalized s1,
        respond backend _ listing (world s) = (Ok response, w)
        /\ mapM (normalizeVideo backend engine) (documents response)
             (after_call s listing w) = (Ok normalized, s1)
        /\ Permutation (map forget_thumbnailUrl out)
             (map forget_thumbnailUrl
                (if String.eqb (trim searchQuery) ""
                 then normalized
                 else List.filter (search_hit engine query) normalized)))
  /\ (forall response w,
        respond backend _ listing (world s) = (Ok response, w) ->
        Forall (fun d => string_or_absent (field d "title") = true
                         /\ string_or_absent (field d "description") = true)
               (documents response) ->
        exists out s2,
          getAllVideos backend config engine sortOption searchQuery s = (Ok out, s2))
  /\ (forall v,
        search_hit engine query v = true <->
        (exists pre post,
            toLowerCase engine (text (title v)) = (pre ++ query ++ post)%string)
        \/ (exists pre post,
               toLowerCase engine (text (description v)) = (pre ++ query ++ post)%string))
  /\ (forall t, is_ascii t = true -> toLowerCase engine t = toLowerCase_ascii t).
Proof.
  intros query. split; [|split; [|split]].
  - intros out s4 H.
    unfold getAllVideos in H. rewrite try_rethrow in H.
    apply bind_inv in H. destruct H as (response & s0 & Hcall & H).
    apply call_inv in Hcall. destruct Hcall as (w & Hlist & ->).
    apply bind_inv in H. destruct H as (normalized & s1 & Hnorm & H).
    apply bind_inv in H. destruct H as (kept & s2 & Hfilter & H).
    apply bind_inv in H. destruct H as (thumbed & s3 & Hthumbs & H).
    injection H as <- _.
    exists response, w, normalized, s1.
    split; [exact Hlist|]. split; [exact Hnorm|].
    rewrite (Permutation_map _ (sort_perm _ thumbed)).
    rewrite (thumbnails_keep_the_rest _ _ _ _ Hthumbs).
    assert (kept = if String.eqb (trim searchQuery) "" then normalized
                   else List.filter (search_hit engine query) normalized) as <-;
      [|reflexivity].
    destruct (String.eqb_spec (trim searchQuery) "") as [Hblank|Hquery].
    + rewrite Bool.andb_false_r in Hfilter. injection Hfilter as <- _.
      reflexivity.
    + destruct (String.eqb_spec searchQuery "") as [->|_];
        [rewrite trim_empty in Hquery; congruence|].
      cbn [negb andb] in Hfilter.
      apply filterM_matches_inv in Hfilter. apply Hfilter.
  - intros response w. apply getAllVideos_returns.
  - intros v. unfold search_hit.
    rewrite Bool.orb_true_iff, !includes_spec. reflexivity.
  - apply toLowerCase_ascii_text.
Qed.

End Search.

(** Titles ["Cat Video"] and ["Dog Clip"], query ["CAT "]: only the first
    record comes back. *)
Lemma search_keeps_exactly_the_hits_witness :
  exists out s',
    getAllVideos Fixtures.backend Fixtures.config Fixtures.engine NEWEST "CAT "
      (Fixtures.start Fixtures.pets) = (Ok out, s')
    /\ map title out = [JStr "Cat Video"].
Proof.
  destruct (search_keeps_exactly_the_hits Fixtures.backend Fixtures.config
              Fixtures.engine NEWEST "CAT " (Fixtures.start Fixtures.pets))
    as (Hhits & Hreturns & _).
  destruct (Hreturns {| documents := Fixtures.pets |}
              (world (Fixtures.start Fixtures.pets)))
    as (out & s2 & Hrun).
  - reflexivity.
  - repeat constructor.
  - exists out, s2. split; [exact Hrun|].
    destruct (Hhits out s2 Hrun)
      as (response & w & normalized & s1 & Hlist & Hnorm & Hperm).
    vm_compute in Hlist. injection Hlist as <- <-.
    apply (Permutation_map title) in Hperm.
    assert (E : forall l, map title (map forget_thumbnailUrl l) = map title l)
      by (intros l; rewrite map_map; reflexivity).
    rewrite !E in Hperm.
    vm_compute in Hnorm. injection Hnorm as <- _.
    match type of Hperm with
    | Permutation _ ?kept =>
        assert (R : kept = [JStr "Cat Video"]) by (vm_compute; reflexivity);
        rewrite R in Hperm
    end.
    symmetry in Hperm. apply Permutation_length_1_inv in Hperm. exact Hperm.
Defined.

End SearchFacts.

(* ===================================================================== *)
(** * Examples *)
(* ===================================================================== *)

Module Examples.
Import JS Effects VideoService AppwriteSchemaManager Fixtures.

Example minutes_and_seconds : shown 95 = Ok "01:35".
Proof. vm_compute. reflexivity. Qed.

Example hours_minutes_seconds : shown 3725 = Ok "01:02:05".
Proof. vm_compute. reflexivity. Qed.

Example last_second_of_the_day : shown 86399 = Ok "23:59:59".
Proof. vm_compute. reflexivity. Qed.

Example no_seconds : shown 0 = Ok "00:00".
Proof. vm_compute. reflexivity. Qed.

Example negative_seconds : shown (-5) = Ok "-1:-5".
Proof. vm_compute. reflexivity. Qed.

Example read_back : getDurationInSeconds "01:02:05" = int 3725.
Proof. vm_compute. reflexivity. Qed.

Example unreadable_duration : getDurationInSeconds "1:2:3:4" = int 0.
Proof. vm_compute. reflexivity. Qed.

Example parseFloat_prefix : parseFloat_string "  12.5 EUR" = Fin (125 # 10).
Proof. vm_compute. reflexivity. Qed.

Example parseFloat_nothing : parseFloat_string "free" = NaN.
Proof. vm_compute. reflexivity. Qed.

Example Number_whole_string : StringToNumber "12.5 EUR" = NaN.
Proof. vm_compute. reflexivity. Qed.

Example price_ascending : prices PRICE_ASC [30; 10; 20] = Ok [int 10; int 20; int 30].
Proof. vm_compute. reflexivity. Qed.

Example price_descending : prices PRICE_DESC [30; 10; 20] = Ok [int 30; int 20; int 10].
Proof. vm_compute. reflexivity. Qed.

Example page_out_of_range :
  result (getVideosWithPagination backend config engine (int 5) (int 4) NEWEST "")
    (start ten_records)
  = Ok {| videos := []; totalPages := int 3 |}.
Proof. vm_compute. reflexivity. Qed.

Example search_without_hit :
  result (getAllVideos backend config engine NEWEST "bird") (start pets) = Ok [].
Proof. vm_compute. reflexivity. Qed.

Example search_fails_on_a_number_title :
  result (getAllVideos backend config engine NEWEST "cat")
    (start [ {[ "title" := JNum (int 7) ]} ])
  = Throw (TypeError "toLowerCase is not a function").
Proof. vm_compute. reflexivity. Qed.

Example search_trims_every_blank :
  map title (Observations.listed NEWEST (Observations.nbsp ++ "CAT " ++ Observations.nbsp) pets)
  = [JStr "Cat Video"].
Proof. vm_compute. reflexivity. Qed.

Example search_folds_what_the_engine_folds :
  map title
    (Observations.listed NEWEST "ÉCOLE"
       [ record "e" "École de danse" 5 60; record "b" "Dog Clip" 10 3725 ])
  = [JStr "École de danse"].
Proof. vm_compute. reflexivity. Qed.

Example first_run_creates_everything : creations (start []) = 33%nat.
Proof. vm_compute. reflexivity. Qed.

Example second_run_creates_nothing :
  creations {| world := world (snd (initializeSchema backend config (start [])));
               trace := [] |} = 0%nat.
Proof. vm_compute. reflexivity. Qed.

Example views_are_incremented :
  map (fun d => field d "views")
    (stored (world (snd (incrementViews backend config engine "a" (start pets)))))
  = [JNum (int 1); JUndefined].
Proof. vm_compute. reflexivity. Qed.

End Examples.

(* ===================================================================== *)
(** * The requests a run sends *)
(* ===================================================================== *)

Module TraceFacts.
Import JS Effects VideoService AppwriteSchemaManager Observations.
Import EffectFacts NormalizationFacts ServiceFacts SearchFacts.

Section Emits.

Context {W : Type}.
Variable backend : Backend W.
Variable P : Event -> Prop.

Lemma emits_ret {A} (a : A) : emits P (ret a : M W A).
Proof. intros s. exists []. rewrite app_nil_r. split; [reflexivity | constructor]. Qed.

Lemma emits_throw {A} e : emits P (throw e : M W A).
Proof. intros s. exists []. rewrite app_nil_r. split; [reflexivity | constructor]. Qed.

Lemma emits_bind {A B} (m : M W A) (k : A -> M W B) :
  emits P m -> (forall a, emits P (k a)) -> emits P (bind m k).
Proof.
  intros Hm Hk s. destruct (Hm s) as (e1 & E1 & F1). unfold bind.
  destruct (m s) as [[a|e] s1]; cbn [snd] in *.
  - destruct (Hk a s1) as (e2 & E2 & F2). exists (e1 ++ e2)%list.
    rewrite E2, E1, app_assoc. split; [reflexivity | apply Forall_app; split; assumption].
  - exists e1. split; assumption.
Qed.

Lemma emits_try {A} (m : M W A) (h : JsError -> M W A) :
  emits P m -> (forall e, emits P (h e)) -> emits P (try_catch m h).
Proof.
  intros Hm Hh s. destruct (Hm s) as (e1 & E1 & F1). unfold try_catch.
  destruct (m s) as [[a|e] s1]; cbn [snd] in *.
  - exists e1. split; assumption.
  - destruct (Hh e s1) as (e2 & E2 & F2). exists (e1 ++ e2)%list.
    rewrite E2, E1, app_assoc. split; [reflexivity | apply Forall_app; split; assumption].
Qed.

Lemma emits_call {R} (request : Api R) :
  P (Called request) -> emits P (call backend request).
Proof.
  intros HP s. unfold call. destruct (respond backend R request (world s)) as [r w].
  exists [Called request]. split; [reflexivity | repeat constructor; exact HP].
Qed.

Lemma emits_now : emits P (now backend).
Proof.
  intros s. unfold now. destruct (clock backend (world s)) as [t w].
  exists []. cbn [snd trace]. rewrite app_nil_r. split; [reflexivity | constructor].
Qed.

Lemma emits_sleep ms : P (Slept ms) -> emits P (sleep ms : M W unit).
Proof.
  intros HP s. exists [Slept ms]. split; [reflexivity | repeat constructor; exact HP].
Qed.

Lemma emits_mapM {A B} (f : A -> M W B) l :
  (forall x, emits P (f x)) -> emits P (mapM f l).
Proof.
  intros Hf. induction l as [|x l IH]; cbn [mapM]; [apply emits_ret|].
  apply emits_bind; [apply Hf | intros y].
  apply emits_bind; [apply IH | intros ys; apply emits_ret].
Qed.

Lemma emits_filterM {A} (p : A -> M W bool) l :
  (forall x, emits P (p x)) -> emits P (filterM p l).
Proof.
  intros Hp. induction l as [|x l IH]; cbn [filterM]; [apply emits_ret|].
  apply emits_bind; [apply Hp | intros b].
  apply emits_bind; [apply IH | intros ys; apply emits_ret].
Qed.

Lemma emits_for_of {A} (body : A -> M W unit) l :
  (forall x, emits P (body x)) -> emits P (for_of l body).
Proof.
  intros Hb. induction l as [|x l IH]; cbn [for_of]; [apply emits_ret|].
  apply emits_bind; [apply Hb | intros _; apply IH].
Qed.

End Emits.

Lemma emits_weaken {W A} (P Q : Event -> Prop) (m : M W A) :
  (forall e, P e -> Q e) -> emits P m -> emits Q m.
Proof.
  intros HPQ Hm s. destruct (Hm s) as (events & E & F).
  exists events. split; [exact E|]. eapply List.Forall_impl; eassumption.
Qed.

Section Reads.

Context {W : Type}.
Variable backend : Backend W.
Variable config : Config.
Variable engine : Engine.

Lemma normalizeVideo_emits P video : emits P (normalizeVideo backend engine video).
Proof.
  unfold normalizeVideo. apply emits_bind; [|intros; apply emits_ret].
  destruct (truthy _); [apply emits_ret|].
  apply emits_bind; [apply emits_now | intros; apply emits_ret].
Qed.

Lemma call_toLowerCase_emits P v : emits P (call_toLowerCase engine v : M W string).
Proof. destruct v; cbn [call_toLowerCase]; (apply emits_ret || apply emits_throw). Qed.

Lemma matches_emits P query video : emits P (matches engine query video : M W bool).
Proof.
  unfold matches. apply emits_bind; [apply call_toLowerCase_emits | intros t].
  destruct (includes t query); [apply emits_ret|].
  apply emits_bind; [apply call_toLowerCase_emits | intros; apply emits_ret].
Qed.

Lemma resolveThumbnail_emits (P : Event -> Prop) video :
  (forall fileId, P (Called (getFileView (thumbnailsBucketId config) fileId))) ->
  emits P (resolveThumbnail backend config video).
Proof.
  intros HP. unfold resolveThumbnail. destruct (truthy _); [|apply emits_ret].
  apply emits_try; [|intros; apply emits_ret].
  apply emits_bind; [apply emits_call, HP | intros; apply emits_ret].
Qed.

Lemma getAllVideos_emits (P : Event -> Prop) sortOption searchQuery :
  P (Called (listDocuments (databaseId config) (videoCollectionId config) [])) ->
  (forall fileId, P (Called (getFileView (thumbnailsBucketId config) fileId))) ->
  emits P (getAllVideos backend config engine sortOption searchQuery).
Proof.
  intros Hlist Hview. unfold getAllVideos.
  apply emits_try; [|intros; apply emits_throw].
  apply emits_bind; [apply emits_call, Hlist | intros response].
  apply emits_bind; [apply emits_mapM; intros; apply normalizeVideo_emits | intros vs].
  apply emits_bind.
  - destruct (_ && _); [|apply emits_ret].
    apply emits_filterM. intros. apply matches_emits.
  - intros kept. apply emits_bind; [|intros; apply emits_ret].
    apply emits_mapM. intros. apply resolveThumbnail_emits, Hview.
Qed.

Lemma getVideo_emits (P : Event -> Prop) videoId :
  P (Called (getDocument (databaseId config) (videoCollectionId config) videoId)) ->
  (forall fileId, P (Called (getFileView (thumbnailsBucketId config) fileId))) ->
  emits P (getVideo backend config engine videoId).
Proof.
  intros Hget Hview. unfold getVideo.
  apply emits_try; [|intros; apply emits_ret].
  apply emits_bind; [apply emits_call, Hget | intros doc].
  apply emits_bind; [apply normalizeVideo_emits | intros v].
  apply emits_bind; [apply resolveThumbnail_emits, Hview | intros; apply emits_ret].
Qed.

(** X1.  The four reading operations only read: whatever the backend
    answers and whether they return or throw, [getAllVideos],
    [getVideosWithPagination], [getVideo] and [getVideoFileUrl] send no
    request that creates an attribute or updates a document. *)
Theorem reading_operations_never_write :
  (forall sortOption searchQuery,
      emits (fun e => is_write e = false)
        (getAllVideos backend config engine sortOption searchQuery))
  /\ (forall page perPage sortOption searchQuery,
        emits (fun e => is_write e = false)
          (getVideosWithPagination backend config engine page perPage
             sortOption searchQuery))
  /\ (forall videoId,
        emits (fun e => is_write e = false)
          (getVideo backend config engine videoId))
  /\ (forall videoId,
        emits (fun e => is_write e = false)
          (getVideoFileUrl backend config engine videoId)).
Proof.
  split; [|split; [|split]].
  - intros. apply getAllVideos_emits; reflexivity.
  - intros. unfold getVideosWithPagination.
    apply emits_try; [|intros; apply emits_throw].
    apply emits_bind; [apply getAllVideos_emits; reflexivity|].
    intros; apply emits_ret.
  - intros. apply getVideo_emits; reflexivity.
  - intros. unfold getVideoFileUrl.
    apply emits_try; [|intros; apply emits_ret].
    apply emits_bind; [apply getVideo_emits; reflexivity | intros [v|]].
    + destruct (negb _); [apply emits_ret|].
      apply emits_try; [|intros; apply emits_ret].
      apply emits_bind; [apply emits_call; reflexivity | intros; apply emits_ret].
    + apply emits_ret.
Qed.

End Reads.

(** ** The exact requests *)

Lemma Permutation_filter {A} (f : A -> bool) (l l' : list A) :
  Permutation l l' -> Permutation (List.filter f l) (List.filter f l').
Proof.
  induction 1 as [|x l l' _ IH|x y l|l l' l'' _ IH1 _ IH2]; cbn [List.filter].
  - reflexivity.
  - destruct (f x); [constructor|]; exact IH.
  - destruct (f x), (f y); try reflexivity. apply perm_swap.
  - etransitivity; eassumption.
Qed.

Lemma requests_up_to_thumbnailUrl config (l1 l2 : list Video) :
  map forget_thumbnailUrl l1 = map forget_thumbnailUrl l2 ->
  map (thumbnail_request config) (List.filter has_thumbnail_reference l1)
  = map (thumbnail_request config) (List.filter has_thumbnail_reference l2).
Proof.
  revert l2. induction l1 as [|v l1 IH]; intros [|t l2] H; try discriminate H;
    [reflexivity|].
  cbn [map] in H. injection H as _ _ _ _ _ _ _ E1 E2 _ _ _ _ Hl.
  cbn [List.filter].
  assert (Eh : has_thumbnail_reference v = has_thumbnail_reference t)
    by (unfold has_thumbnail_reference, thumbnail_reference; rewrite E1, E2; reflexivity).
  assert (Er : thumbnail_request config v = thumbnail_request config t)
    by (unfold thumbnail_request, thumbnail_reference; rewrite E1, E2; reflexivity).
  rewrite Eh. destruct (has_thumbnail_reference t); cbn [map];
    rewrite ?Er, (IH l2 Hl); reflexivity.
Qed.

Section Requests.

Context {W : Type}.
Variable backend : Backend W.
Variable config : Config.
Variable engine : Engine.

Let listing : Api DocumentList :=
  listDocuments (databaseId config) (videoCollectionId config) [].

Let fetching (videoId : string) : Api Document :=
  getDocument (databaseId config) (videoCollectionId config) videoId.

Lemma normalizeVideo_trace video s :
  trace (snd (normalizeVideo backend engine video s)) = trace s.
Proof.
  unfold normalizeVideo, bind, ret, now. destruct (truthy _); [reflexivity|].
  destruct (clock backend (world s)) as [t w]. reflexivity.
Qed.

Lemma normalize_all_trace docs s vs s' :
  mapM (normalizeVideo backend engine) docs s = (Ok vs, s') -> trace s' = trace s.
Proof.
  revert s vs s'. induction docs as [|d docs IH]; cbn [mapM]; intros s vs s' H.
  - injection H as _ <-. reflexivity.
  - apply bind_inv in H. destruct H as (v & s1 & Hv & H).
    apply bind_inv in H. destruct H as (rest & s2 & Hrest & H).
    injection H as _ <-. rewrite (IH _ _ _ Hrest).
    pose proof (normalizeVideo_trace d s) as Ht. rewrite Hv in Ht. exact Ht.
Qed.

Lemma resolveThumbnail_trace video s :
  trace (snd (resolveThumbnail backend config video s))
  = (trace s ++ if has_thumbnail_reference video
                then [thumbnail_request config video] else [])%list.
Proof.
  pose proof (resolveThumbnail_outcome backend config video s) as H. cbn zeta in H.
  unfold has_thumbnail_reference, thumbnail_reference, thumbnail_request.
  destruct (truthy _).
  - destruct (respond backend _ _ (world s)) as [[url|e] w]; rewrite H; reflexivity.
  - rewrite H. cbn [snd]. rewrite app_nil_r. reflexivity.
Qed.

Lemma resolve_all_trace l s thumbed s' :
  mapM (resolveThumbnail backend config) l s = (Ok thumbed, s') ->
  trace s' = (trace s ++ map (thumbnail_request config)
                           (List.filter has_thumbnail_reference l))%list.
Proof.
  revert s thumbed s'. induction l as [|v l IH]; cbn [mapM List.filter];
    intros s thumbed s' H.
  - injection H as _ <-. cbn [map]. rewrite app_nil_r. reflexivity.
  - apply bind_inv in H. destruct H as (t & s1 & Hv & H).
    apply bind_inv in H. destruct H as (rest & s2 & Hrest & H).
    injection H as _ <-. rewrite (IH _ _ _ Hrest).
    pose proof (resolveThumbnail_trace v s) as Ht. rewrite Hv in Ht.
    cbn [snd] in Ht. rewrite Ht.
    destruct (has_thumbnail_reference v); cbn [map];
      rewrite <- app_assoc; reflexivity.
Qed.

(** X2.  A listing that returns costs one [listDocuments] request and then
    one [getFileView] request on the thumbnails bucket for each returned
    view that has a thumbnail reference, and nothing else. *)
Theorem listing_requests (sortOption : SortOption) (searchQuery : string)
    (s s' : State W) (out : list Video) :
  getAllVideos backend config engine sortOption searchQuery s = (Ok out, s') ->
  exists views,
    trace s' = (trace s ++ Called listing :: views)%list
    /\ Permutation views
         (map (thumbnail_request config) (List.filter has_thumbnail_reference out))
    /\ (List.length views <= List.length out)%nat.
Proof.
  intros H. unfold getAllVideos in H. rewrite try_rethrow in H.
  apply bind_inv in H. destruct H as (response & s0 & Hcall & H).
  apply call_inv in Hcall. destruct Hcall as (w & _ & ->).
  apply bind_inv in H. destruct H as (normalized & s1 & Hnorm & H).
  apply bind_inv in H. destruct H as (kept & s2 & Hfilter & H).
  apply bind_inv in H. destruct H as (thumbed & s3 & Hthumbs & H).
  injection H as <- <-.
  assert (Es2 : trace s2 = trace s1).
  { destruct (_ && _).
    - apply filterM_matches_inv in Hfilter. destruct Hfilter as (_ & ->). reflexivity.
    - injection Hfilter as _ <-. reflexivity. }
  exists (map (thumbnail_request config) (List.filter has_thumbnail_reference kept)).
  assert (Eview : map (thumbnail_request config) (List.filter has_thumbnail_reference kept)
                  = map (thumbnail_request config)
                      (List.filter has_thumbnail_reference thumbed)).
  { symmetry. apply requests_up_to_thumbnailUrl.
    apply (thumbnails_keep_the_rest backend config _ _ _ _ Hthumbs). }
  split; [|split].
  - rewrite (resolve_all_trace _ _ _ _ Hthumbs), Es2, (normalize_all_trace _ _ _ _ Hnorm).
    cbn [after_call trace]. rewrite <- app_assoc. reflexivity.
  - rewrite Eview. apply Permutation_map, Permutation_filter.
    symmetry. apply sort_perm.
  - rewrite Eview, length_map, (Permutation_length (sort_perm _ thumbed)).
    apply filter_length_le.
Qed.

Lemma getVideo_fetched videoId s videoDoc w :
  respond backend _ (fetching videoId) (world s) = (Ok videoDoc, w) ->
  exists normalized s1 video s2 u,
    normalizeVideo backend engine videoDoc (after_call s (fetching videoId) w)
    = (Ok normalized, s1)
    /\ resolveThumbnail backend config normalized s1 = (Ok video, s2)
    /\ getVideo backend config engine videoId s = (Ok (Some video), s2)
    /\ video = set_thumbnailUrl normalized (JStr u).
Proof.
  intros Hget.
  destruct (normalizeVideo_total backend engine videoDoc
              (after_call s (fetching videoId) w)) as (n & s1 & Hn).
  destruct (resolveThumbnail_total backend config n s1) as (v & s2 & Hv).
  destruct (resolveThumbnail_sets backend config _ _ _ _ Hv) as (u & Eu & _).
  exists n, s1, v, s2, u. split; [exact Hn|]. split; [exact Hv|].
  split; [|exact Eu].
  unfold getVideo. apply try_catch_ok.
  rewrite (bind_ok _ _ _ _ _ (call_answer backend _ _ _ _ Hget)).
  rewrite (bind_ok _ _ _ _ _ Hn), (bind_ok _ _ _ _ _ Hv). reflexivity.
Qed.

(** X3.  [getVideo] returns [null] exactly when the fetch of the document
    fails: a fetched document always comes back as a view, which is its
    normalization with the thumbnail address set. *)
Theorem getVideo_null_iff_fetch_fails (videoId : string) (s : State W) :
  match respond backend _ (fetching videoId) (world s) with
  | (Throw _, w) =>
      getVideo backend config engine videoId s
      = (Ok None, after_call s (fetching videoId) w)
  | (Ok videoDoc, w) =>
      exists normalized s1 video s2,
        normalizeVideo backend engine videoDoc (after_call s (fetching videoId) w)
        = (Ok normalized, s1)
        /\ resolveThumbnail backend config normalized s1 = (Ok video, s2)
        /\ getVideo backend config engine videoId s = (Ok (Some video), s2)
        /\ forget_thumbnailUrl video = forget_thumbnailUrl normalized
        /\ dollar_id video = field videoDoc "$id"
  end.
Proof.
  destruct (respond backend _ (fetching videoId) (world s)) as [[videoDoc|e] w] eqn:Hget.
  - destruct (getVideo_fetched videoId s videoDoc w Hget)
      as (n & s1 & v & s2 & u & Hn & Hv & Hrun & ->).
    exists n, s1, (set_thumbnailUrl n (JStr u)), s2.
    split; [exact Hn|]. split; [exact Hv|]. split; [exact Hrun|].
    split; [reflexivity|].
    cbn [dollar_id set_thumbnailUrl]. revert Hn.
    run_normalize backend videoDoc (after_call s (fetching videoId) w);
      intros [= <- _]; reflexivity.
  - exact (getVideo_missing backend config engine _ _ _ _ Hget).
Qed.

(** X4.  When the document is fetched, [incrementViews] sends exactly one
    update, of the same document and of its [views] field alone, and
    returns whether or not the update is accepted.  The value written is
    the whole number of views plus one (within the safe integers), 1 when
    the document has no usable views, and for views stored as a non-empty
    string the string with the character 1 appended. *)
Theorem incrementViews_writes_views_plus_one
    (videoId : string) (s : State W) (video : Document) (w : W) :
  respond backend _ (fetching videoId) (world s) = (Ok video, w) ->
  exists written outcome w',
    respond backend _
      (updateDocument (databaseId config) (videoCollectionId config) videoId
         {[ "views" := written ]}) w = (outcome, w')
    /\ incrementViews backend config engine videoId s
       = (Ok tt,
          {| world := w';
             trace := (trace s ++
                       [Called (fetching videoId);
                        Called (updateDocument (databaseId config)
                                  (videoCollectionId config) videoId
                                  {[ "views" := written ]})])%list |})
    /\ (forall z, Z.abs z <= MAX_SAFE_INTEGER ->
                  field video "views" = JNum (int z) -> written = JNum (int (z + 1)))
    /\ (truthy (field video "views") = false -> written = JNum (int 1))
    /\ (forall t, field video "views" = JStr t -> t <> "" ->
                  written = JStr (t ++ "1")).
Proof.
  intros Hget.
  set (written := js_plus (fraction_digits engine)
                    (js_or (field video "views") (JNum (int 0))) (JNum (int 1))).
  destruct (respond backend _
              (updateDocument (databaseId config) (videoCollectionId config) videoId
                 {[ "views" := written ]}) w) as [outcome w'] eqn:Hupd.
  exists written, outcome, w'. split; [exact Hupd|]. split; [|split; [|split]].
  - unfold incrementViews, try_catch.
    rewrite (bind_ok _ _ _ _ _ (call_answer backend _ _ _ _ Hget)).
    fold written. unfold bind, call. cbn [after_call world trace].
    rewrite Hupd. rewrite <- app_assoc.
    destruct outcome; reflexivity.
  - intros z _ Hz. unfold written. rewrite Hz.
    unfold js_or. destruct (truthy (JNum (int z))) eqn:Ht.
    + cbn [js_plus ToNumber]. rewrite JSFacts.num_add_int. reflexivity.
    + cbn [truthy] in Ht. rewrite JSFacts.truthy_int in Ht.
      apply Bool.negb_false_iff, Z.eqb_eq in Ht. subst z. reflexivity.
  - intros Hf. unfold written. rewrite (js_or_falsy _ _ Hf). reflexivity.
  - intros t Ht Hne. unfold written. rewrite Ht.
    unfold js_or. cbn [truthy].
    destruct (String.eqb_spec t ""); [contradiction|]. reflexivity.
Qed.

(** X5.  After a successful fetch, [getVideoFileUrl] sends at most two
    further requests, both reads of the file store: the view of the
    thumbnail when the document has a [thumbnail_id], then the view of the
    video file when it has a [video_id].  No other field of the document
    leads to a request. *)
Theorem getVideoFileUrl_requests (videoId : string) (s : State W)
    (videoDoc : Document) (w : W) :
  respond backend _ (fetching videoId) (world s) = (Ok videoDoc, w) ->
  trace (snd (getVideoFileUrl backend config engine videoId s))
  = (trace s
     ++ [Called (fetching videoId)]
     ++ (if truthy (field videoDoc "thumbnail_id")
         then [Called (getFileView (thumbnailsBucketId config)
                         (field videoDoc "thumbnail_id"))]
         else [])
     ++ (if truthy (field videoDoc "video_id")
         then [Called (getFileView (videosBucketId config)
                         (field videoDoc "video_id"))]
         else []))%list.
Proof.
  intros Hget.
  destruct (getVideo_fetched videoId s videoDoc w Hget)
    as (n & s1 & v & s2 & u & Hn & Hv & Hrun & Ev).
  destruct (normalizeVideo_fields backend engine _ _ _ _ Hn)
    as (_ & _ & Ef & Ei & Etf & Eti).
  pose proof (normalizeVideo_trace videoDoc (after_call s (fetching videoId) w)) as Ht1.
  rewrite Hn in Ht1. cbn [snd] in Ht1.
  pose proof (resolveThumbnail_trace n s1) as Ht2.
  rewrite Hv in Ht2. cbn [snd] in Ht2.
  assert (Href : js_or (video_id v) (videoFileId v)
                 = js_or (field videoDoc "video_id") JNull).
  { rewrite Ev. cbn [video_id videoFileId set_thumbnailUrl].
    rewrite Ef, Ei. apply js_or_idem. }
  assert (Etrace : trace s2 =
            (trace s ++ [Called (fetching videoId)]
             ++ (if truthy (field videoDoc "thumbnail_id")
                 then [Called (getFileView (thumbnailsBucketId config)
                                 (field videoDoc "thumbnail_id"))]
                 else []))%list).
  { rewrite Ht2, Ht1. cbn [after_call trace]. rewrite <- app_assoc.
    unfold has_thumbnail_reference, thumbnail_request, thumbnail_reference.
    rewrite Etf, Eti, js_or_idem. unfold js_or.
    destruct (truthy (field videoDoc "thumbnail_id")) eqn:Et; rewrite ?Et; reflexivity. }
  unfold getVideoFileUrl.
  unfold try_catch at 1. rewrite (bind_ok _ _ _ _ _ Hrun), Href.
  unfold js_or. destruct (truthy (field videoDoc "video_id")) eqn:Hv_id.
  - rewrite Hv_id. cbn [negb]. unfold try_catch, bind, call, ret.
    destruct (respond backend _ _ (world s2)) as [[url|e] w2]; cbn [snd trace];
      rewrite Etrace, <- !app_assoc; reflexivity.
  - cbn [truthy negb]. unfold ret. cbn [snd].
    rewrite Etrace, app_nil_r. reflexivity.
Qed.

End Requests.

(** The illustrated catalogue: one listing request, then the view of the
    one thumbnail it refers to. *)
Lemma listing_requests_witness :
  exists views,
    trace (snd (getAllVideos Fixtures.backend Fixtures.config Fixtures.engine
                  NEWEST "" (Fixtures.start illustrated)))
    = Called (listDocuments "main" "videos" []) :: views
    /\ Permutation views [Called (getFileView "thumbnails" (JStr "t1"))]
    /\ (List.length views <= 2)%nat.
Proof.
  pose (run := getAllVideos Fixtures.backend Fixtures.config Fixtures.engine
                 NEWEST "" (Fixtures.start illustrated)).
  destruct (listing_requests Fixtures.backend Fixtures.config Fixtures.engine
              NEWEST "" (Fixtures.start illustrated) (snd run)
              (listed NEWEST "" illustrated))
    as (views & Htrace & Hperm & Hlen).
  - vm_compute. reflexivity.
  - exists views. split; [exact Htrace|].
    assert (R : map (thumbnail_request Fixtures.config)
                  (List.filter has_thumbnail_reference (listed NEWEST "" illustrated))
                = [Called (getFileView "thumbnails" (JStr "t1"))])
      by (vm_compute; reflexivity).
    assert (L : List.length (listed NEWEST "" illustrated) = 2%nat)
      by (vm_compute; reflexivity).
    rewrite R in Hperm. rewrite L in Hlen. split; assumption.
Defined.

(** A record without views: the update writes [views = 1]. *)
Lemma incrementViews_writes_views_plus_one_witness :
  exists s',
    incrementViews Fixtures.backend Fixtures.config Fixtures.engine "a"
      (Fixtures.start Fixtures.pets) = (Ok tt, s')
    /\ trace s'
       = [ Called (getDocument "main" "videos" "a");
           Called (updateDocument "main" "videos" "a" {[ "views" := JNum (int 1) ]}) ].
Proof.
  destruct (incrementViews_writes_views_plus_one
              Fixtures.backend Fixtures.config Fixtures.engine "a"
              (Fixtures.start Fixtures.pets)
              (Fixtures.record "a" "Cat Video" 30 95)
              (world (Fixtures.start Fixtures.pets)))
    as (written & outcome & w' & _ & Hrun & _ & Hfalsy & _).
  - vm_compute. reflexivity.
  - rewrite (Hfalsy eq_refl) in Hrun. eexists. split; [exact Hrun | reflexivity].
Defined.

(** The record with both references: the fetch, the thumbnail view, the
    view of the video file. *)
Lemma getVideoFileUrl_requests_witness :
  trace (snd (getVideoFileUrl Fixtures.backend Fixtures.config Fixtures.engine "a"
                (Fixtures.start illustrated)))
  = [ Called (getDocument "main" "videos" "a");
      Called (getFileView "thumbnails" (JStr "t1"));
      Called (getFileView "video-files" (JStr "f1")) ].
Proof.
  rewrite (getVideoFileUrl_requests Fixtures.backend Fixtures.config Fixtures.engine
             "a" (Fixtures.start illustrated) cat_video
             (world (Fixtures.start illustrated))).
  - vm_compute. reflexivity.
  - vm_compute. reflexivity.
Defined.

End TraceFacts.

(* ===================================================================== *)
(** * The order of a listing *)
(* ===================================================================== *)

Module SortFacts.
Import JS Effects VideoService Observations.
Import EffectFacts NormalizationFacts ServiceFacts SearchFacts.

(** ** The order of numbers *)

Lemma Qle_bool_sub (x y : Q) : Qle_bool (x + - y) 0 = Qle_bool x y.
Proof.
  apply Bool.eq_true_iff_eq. rewrite !Qle_bool_iff.
  unfold Qle, Qplus, Qopp. cbn [Qnum Qden]. split; intros H; nia.
Qed.

(** A difference is positive exactly when its second operand is the
    smaller one, for operands other than [NaN]. *)
Lemma positive_difference (a b : number) :
  a <> NaN -> b <> NaN -> num_lt (Fin 0) (num_sub a b) = num_lt b a.
Proof.
  intros Ha Hb. destruct a as [|s|x], b as [|t|y]; try congruence;
    unfold num_sub; cbn [num_neg num_add num_lt].
  - destruct s, t; reflexivity.
  - destruct s; reflexivity.
  - destruct t; reflexivity.
  - rewrite Qle_bool_sub. reflexivity.
Qed.

Lemma num_lt_asym (a b : number) : num_lt a b = true -> num_lt b a = false.
Proof.
  destruct a as [|s|x], b as [|t|y]; cbn [num_lt]; try discriminate; try reflexivity.
  - destruct s, t; (discriminate || reflexivity).
  - intros ->. reflexivity.
  - destruct t; (discriminate || reflexivity).
  - rewrite Bool.negb_true_iff, Bool.negb_false_iff.
    intros H. apply Qle_bool_iff. apply Qlt_le_weak.
    apply Qnot_le_lt. intros Hle. apply Qle_bool_iff in Hle. congruence.
Qed.

Lemma num_le_trans (a b c : number) :
  a <> NaN -> b <> NaN -> c <> NaN ->
  num_lt b a = false -> num_lt c b = false -> num_lt c a = false.
Proof.
  intros Ha Hb Hc.
  destruct a as [|s|x], b as [|t|y], c as [|r|z]; try congruence;
    cbn [num_lt]; try (destruct s); try (destruct t); try (destruct r);
    cbn [andb negb]; try discriminate; try reflexivity; try congruence.
  rewrite !Bool.negb_false_iff, !Qle_bool_iff. intros H1 H2.
  eapply Qle_trans; eassumption.
Qed.

(** ** Sorting by insertion *)

Section Sorting.

Context {A : Type}.
Variable cmp : A -> A -> number.
Variable ok : A -> Prop.
Variable R : A -> A -> Prop.

Hypothesis R_when_not_positive :
  forall x y, ok x -> ok y -> num_lt (Fin 0) (cmp x y) = false -> R x y.
Hypothesis R_when_positive :
  forall x y, ok x -> ok y -> num_lt (Fin 0) (cmp x y) = true -> R y x.
Hypothesis R_trans :
  forall x y z, ok x -> ok y -> ok z -> R x y -> R y z -> R x z.

Lemma insert_sorted_ordered x l :
  ok x -> Forall ok l -> StronglySorted R l ->
  StronglySorted R (insert_sorted cmp x l).
Proof.
  intros Hx Hok Hsorted. induction l as [|y r IH]; cbn [insert_sorted].
  - repeat constructor.
  - inversion Hok as [|? ? Hy Hr]; subst.
    inversion Hsorted as [|? ? Hsr Hyr]; subst.
    destruct (num_lt (Fin 0) (cmp x y)) eqn:Hpos.
    + constructor; [apply IH; assumption|].
      eapply Permutation_Forall; [symmetry; apply insert_sorted_perm|].
      constructor; [apply R_when_positive; assumption | exact Hyr].
    + assert (Hxy : R x y) by (apply R_when_not_positive; assumption).
      constructor; [exact Hsorted|].
      constructor; [exact Hxy|].
      rewrite List.Forall_forall in Hyr, Hr |- *. intros z Hz.
      apply (R_trans x y z); auto.
Qed.

Lemma sort_ordered l : Forall ok l -> StronglySorted R (sort cmp l).
Proof.
  induction 1 as [|x l Hx Hl IH]; cbn [sort fold_right]; [constructor|].
  fold (sort cmp l). apply insert_sorted_ordered; [exact Hx | | exact IH].
  eapply Permutation_Forall; [symmetry; apply sort_perm | exact Hl].
Qed.

End Sorting.

(** Elements on which the comparator is never positive keep their order:
    the sort is stable. *)
Lemma sort_stable {A} (cmp : A -> A -> number) (p : A -> bool) l :
  (forall a b, p a = true -> p b = true -> num_lt (Fin 0) (cmp a b) = false) ->
  List.filter p (sort cmp l) = List.filter p l.
Proof.
  intros Htie.
  assert (Hins : forall x r,
             List.filter p (insert_sorted cmp x r) = List.filter p (x :: r)).
  { intros x r. induction r as [|y r IH]; cbn [insert_sorted]; [reflexivity|].
    destruct (num_lt (Fin 0) (cmp x y)) eqn:Hpos; [|reflexivity].
    cbn [List.filter] in *. rewrite IH.
    destruct (p x) eqn:Hx, (p y) eqn:Hy; try reflexivity.
    rewrite (Htie x y Hx Hy) in Hpos. discriminate. }
  induction l as [|x l IH]; cbn [sort fold_right]; [reflexivity|].
  fold (sort cmp l). rewrite Hins. cbn [List.filter]. rewrite IH. reflexivity.
Qed.

(** ** The comparator of the service *)

Lemma comparator_by_key engine sortOption a b :
  comparator engine sortOption a b =
    if ascending sortOption
    then num_sub (sort_key engine sortOption a) (sort_key engine sortOption b)
    else num_sub (sort_key engine sortOption b) (sort_key engine sortOption a).
Proof. destruct sortOption; reflexivity. Qed.

Lemma sort_key_set_thumbnailUrl engine sortOption v u :
  sort_key engine sortOption (set_thumbnailUrl v u) = sort_key engine sortOption v.
Proof. destruct sortOption; reflexivity. Qed.

Lemma or_zero_not_NaN n : or_zero n <> NaN.
Proof. unfold or_zero. destruct n as [|s|q]; cbn [num_truthy]; try discriminate.
       destruct (negb _); discriminate. Qed.

Lemma same_key_not_positive (a b k : number) :
  num_same a k = true -> num_same b k = true ->
  num_lt (Fin 0) (num_sub a b) = false.
Proof.
  destruct a as [|s|x], b as [|t|y], k as [|r|z]; cbn [num_same];
    try discriminate; unfold num_sub; cbn [num_neg num_add num_lt];
    try reflexivity.
  - intros Hs Ht. apply Bool.eqb_prop in Hs, Ht. subst.
    destruct r; reflexivity.
  - intros Hx Hy. apply Qeq_bool_iff in Hx, Hy.
    rewrite Bool.negb_false_iff, Qle_bool_iff.
    rewrite Hx, Hy. rewrite Qplus_opp_r. apply Qle_refl.
Qed.

Lemma sorted_by_comparator engine sortOption (l : list Video) :
  Forall (fun v => sort_key engine sortOption v <> NaN) l ->
  StronglySorted (in_order engine sortOption) (sort (comparator engine sortOption) l).
Proof.
  apply (sort_ordered (comparator engine sortOption)
           (fun v => sort_key engine sortOption v <> NaN)).
  - intros x y Hx Hy. rewrite comparator_by_key. unfold in_order.
    destruct (ascending sortOption); rewrite positive_difference by assumption;
      intros H; exact H.
  - intros x y Hx Hy. rewrite comparator_by_key. unfold in_order.
    destruct (ascending sortOption); rewrite positive_difference by assumption;
      apply num_lt_asym.
  - intros x y z Hx Hy Hz. unfold in_order.
    destruct (ascending sortOption); intros H1 H2.
    + apply (num_le_trans _ (sort_key engine sortOption y)); assumption.
    + apply (num_le_trans _ (sort_key engine sortOption y)); assumption.
Qed.

Section Listing.

Context {W : Type}.
Variable backend : Backend W.
Variable config : Config.
Variable engine : Engine.

Let listing : Api DocumentList :=
  listDocuments (databaseId config) (videoCollectionId config) [].

(** The stages of a listing that returns. *)
Lemma getAllVideos_stages sortOption searchQuery s out s' :
  getAllVideos backend config engine sortOption searchQuery s = (Ok out, s') ->
  exists response w normalized s1 thumbed,
    respond backend _ listing (world s) = (Ok response, w)
    /\ mapM (normalizeVideo backend engine) (documents response)
         (after_call s listing w) = (Ok normalized, s1)
    /\ mapM (resolveThumbnail backend config) (kept_by engine searchQuery normalized) s1
       = (Ok thumbed, s')
    /\ out = sort (comparator engine sortOption) thumbed.
Proof.
  intros H. unfold getAllVideos in H. rewrite try_rethrow in H.
  apply bind_inv in H. destruct H as (response & s0 & Hcall & H).
  apply call_inv in Hcall. destruct Hcall as (w & Hlist & ->).
  apply bind_inv in H. destruct H as (normalized & s1 & Hnorm & H).
  apply bind_inv in H. destruct H as (kept & s2 & Hfilter & H).
  apply bind_inv in H. destruct H as (thumbed & s3 & Hthumbs & H).
  injection H as <- <-.
  exists response, w, normalized, s1, thumbed.
  split; [exact Hlist|]. split; [exact Hnorm|]. split; [|reflexivity].
  assert (kept = kept_by engine searchQuery normalized /\ s2 = s1) as (<- & <-);
    [|exact Hthumbs].
  unfold kept_by.
  destruct (String.eqb_spec (trim searchQuery) "") as [Hblank|Hquery].
  - rewrite Bool.andb_false_r in Hfilter. injection Hfilter as <- <-.
    split; reflexivity.
  - destruct (String.eqb_spec searchQuery "") as [->|_];
      [rewrite trim_empty in Hquery; congruence|].
    cbn [negb andb] in Hfilter.
    apply filterM_matches_inv in Hfilter. exact Hfilter.
Qed.

Lemma comparable_not_NaN sortOption v :
  comparable engine sortOption v -> sort_key engine sortOption v <> NaN.
Proof.
  destruct sortOption; cbn [comparable sort_key].
  - intros H; exact H.
  - intros H E. rewrite E in H. exact H.
  - intros H E. rewrite E in H. exact H.
  - intros _. apply or_zero_not_NaN.
  - intros (_ & z & _ & ->). discriminate.
Qed.

Lemma binary64_int z : Z.abs z <= MAX_SAFE_INTEGER -> binary64 (int z).
Proof.
  intros Hz. exists z, 0. split; [unfold MAX_SAFE_INTEGER in Hz; lia|].
  split; [lia|]. unfold int, inject_Z, Qeq. cbn. lia.
Qed.

(** X6.  A listing comes back in the order of its sort option: by falling
    creation time, rising or falling price, falling views, falling
    duration in seconds.  This holds of the views on whose keys the
    program computes exactly: a creation time the engine can read, a price
    that is a binary64 number (every stored number is; a price stored as
    text must write one), a display string of whole fields that counts at
    most [MAX_SAFE_INTEGER] seconds. *)
Theorem listing_sorted (sortOption : SortOption) (searchQuery : string)
    (s s' : State W) (out : list Video) :
  getAllVideos backend config engine sortOption searchQuery s = (Ok out, s') ->
  Forall (comparable engine sortOption) out ->
  StronglySorted (in_order engine sortOption) out.
Proof.
  intros Hrun Hkeys.
  destruct (getAllVideos_stages _ _ _ _ _ Hrun)
    as (response & w & normalized & s1 & thumbed & _ & _ & _ & ->).
  apply sorted_by_comparator.
  eapply Permutation_Forall; [apply sort_perm|].
  eapply List.Forall_impl; [|exact Hkeys].
  intros v. apply comparable_not_NaN.
Qed.

(** X7.  Sorting by views needs no such proviso: views that are missing,
    not a number or [NaN] count as 0, and the listing always comes back by
    falling views. *)
Theorem listing_sorted_by_views (searchQuery : string) (s s' : State W)
    (out : list Video) :
  getAllVideos backend config engine VIEWS_DESC searchQuery s = (Ok out, s') ->
  StronglySorted
    (fun a b => num_lt (or_zero (views a)) (or_zero (views b)) = false) out.
Proof.
  intros Hrun.
  destruct (getAllVideos_stages _ _ _ _ _ Hrun)
    as (response & w & normalized & s1 & thumbed & _ & _ & _ & ->).
  apply (sorted_by_comparator engine VIEWS_DESC).
  apply List.Forall_forall. intros v _. apply or_zero_not_NaN.
Qed.

Lemma filter_up_to_thumbnailUrl (p : Video -> bool) (l1 l2 : list Video) :
  (forall v u, p (set_thumbnailUrl v u) = p v) ->
  map forget_thumbnailUrl l1 = map forget_thumbnailUrl l2 ->
  map forget_thumbnailUrl (List.filter p l1)
  = map forget_thumbnailUrl (List.filter p l2).
Proof.
  intros Hp. revert l2.
  induction l1 as [|v l1 IH]; intros [|t l2] H; try discriminate H; [reflexivity|].
  cbn [map] in H.
  assert (Hv : forget_thumbnailUrl v = forget_thumbnailUrl t) by congruence.
  assert (Hl : map forget_thumbnailUrl l1 = map forget_thumbnailUrl l2) by congruence.
  cbn [List.filter].
  assert (Ep : p v = p t).
  { rewrite <- (Hp v JUndefined), <- (Hp t JUndefined).
    unfold forget_thumbnailUrl in Hv. rewrite Hv. reflexivity. }
  rewrite Ep. destruct (p t); cbn [map]; rewrite ?Hv, (IH l2 Hl); reflexivity.
Qed.

(** X8.  The sort is stable: among the returned views, those with the same
    sort key stand in the order in which the backend listed their
    documents.  The proviso is that of X6: with a [NaN] among the keys the
    comparator is inconsistent and the order is the engine's own. *)
Theorem listing_keeps_order_of_ties (sortOption : SortOption)
    (searchQuery : string) (s s' : State W) (out : list Video) :
  getAllVideos backend config engine sortOption searchQuery s = (Ok out, s') ->
  Forall (fun v => sort_key engine sortOption v <> NaN) out ->
  exists response w normalized s1,
    respond backend _ listing (world s) = (Ok response, w)
    /\ mapM (normalizeVideo backend engine) (documents response)
         (after_call s listing w) = (Ok normalized, s1)
    /\ forall k,
         map forget_thumbnailUrl (List.filter (has_key engine sortOption k) out)
         = map forget_thumbnailUrl
             (List.filter (has_key engine sortOption k)
                (kept_by engine searchQuery normalized)).
Proof.
  intros Hrun _.
  destruct (getAllVideos_stages _ _ _ _ _ Hrun)
    as (response & w & normalized & s1 & thumbed & Hlist & Hnorm & Hthumbs & ->).
  exists response, w, normalized, s1.
  split; [exact Hlist|]. split; [exact Hnorm|]. intros k.
  rewrite sort_stable.
  - apply filter_up_to_thumbnailUrl.
    + intros v u. unfold has_key. rewrite sort_key_set_thumbnailUrl. reflexivity.
    + apply (thumbnails_keep_the_rest backend config _ _ _ _ Hthumbs).
  - intros a b Ha Hb. rewrite comparator_by_key. unfold has_key in Ha, Hb.
    destruct (ascending sortOption); eapply same_key_not_positive; eassumption.
Qed.

End Listing.

(** The run behind [listed], when the listing returns. *)
Lemma listed_run sortOption searchQuery docs :
  Fixtures.result
    (getAllVideos Fixtures.backend Fixtures.config Fixtures.engine
       sortOption searchQuery) (Fixtures.start docs)
  = Ok (listed sortOption searchQuery docs) ->
  getAllVideos Fixtures.backend Fixtures.config Fixtures.engine
    sortOption searchQuery (Fixtures.start docs)
  = (Ok (listed sortOption searchQuery docs),
     snd (getAllVideos Fixtures.backend Fixtures.config Fixtures.engine
            sortOption searchQuery (Fixtures.start docs))).
Proof.
  unfold Fixtures.result. intros H.
  destruct (getAllVideos _ _ _ _ _ _) as [r s']. cbn [fst snd] in *.
  rewrite H. reflexivity.
Qed.

(** Prices 30 and 10 come back as 10, 30; durations ["01:35"] and
    ["01:02:05"] come back as 3725 and 95 seconds. *)
Lemma listing_sorted_witness :
  StronglySorted (in_order Fixtures.engine PRICE_ASC)
    (listed PRICE_ASC "" Fixtures.pets)
  /\ StronglySorted (in_order Fixtures.engine DURATION_DESC)
       (listed DURATION_DESC "" Fixtures.pets).
Proof.
  split.
  - apply (listing_sorted Fixtures.backend Fixtures.config Fixtures.engine
             PRICE_ASC "" (Fixtures.start Fixtures.pets) _ _
             (listed_run PRICE_ASC "" Fixtures.pets ltac:(vm_compute; reflexivity))).
    apply (proj1 (List.Forall_map price binary64 (listed PRICE_ASC "" Fixtures.pets))).
    assert (E : map price (listed PRICE_ASC "" Fixtures.pets) = [int 10; int 30])
      by (vm_compute; reflexivity).
    rewrite E.
    repeat (apply List.Forall_cons || apply List.Forall_nil);
      apply binary64_int; vm_compute; discriminate.
  - apply (listing_sorted Fixtures.backend Fixtures.config Fixtures.engine
             DURATION_DESC "" (Fixtures.start Fixtures.pets) _ _
             (listed_run DURATION_DESC "" Fixtures.pets ltac:(vm_compute; reflexivity))).
    apply (proj1 (List.Forall_map duration whole_fields
                    (listed DURATION_DESC "" Fixtures.pets))).
    assert (E : map duration (listed DURATION_DESC "" Fixtures.pets)
                = ["01:02:05"; "01:35"])
      by (vm_compute; reflexivity).
    rewrite E.
    repeat (apply List.Forall_cons || apply List.Forall_nil); split.
    + assert (F : map StringToNumber (split ":" "01:02:05") = [int 1; int 2; int 5])
        by (vm_compute; reflexivity).
      rewrite F.
      repeat (apply List.Forall_cons || apply List.Forall_nil);
        eexists; (split; [|reflexivity]); lia.
    + exists 3725. split; [vm_compute; discriminate | vm_compute; reflexivity].
    + assert (F : map StringToNumber (split ":" "01:35") = [int 1; int 35])
        by (vm_compute; reflexivity).
      rewrite F.
      repeat (apply List.Forall_cons || apply List.Forall_nil);
        eexists; (split; [|reflexivity]); lia.
    + exists 95. split; [vm_compute; discriminate | vm_compute; reflexivity].
Defined.

(** Two records without views: both count as 0. *)
Lemma listing_sorted_by_views_witness :
  StronglySorted
    (fun a b => num_lt (or_zero (views a)) (or_zero (views b)) = false)
    (listed VIEWS_DESC "" Fixtures.pets).
Proof.
  apply (listing_sorted_by_views Fixtures.backend Fixtures.config Fixtures.engine
           "" (Fixtures.start Fixtures.pets) _ _
           (listed_run VIEWS_DESC "" Fixtures.pets ltac:(vm_compute; reflexivity))).
Defined.

(** Ten records of the same price keep the order of the catalogue. *)
Lemma listing_keeps_order_of_ties_witness :
  map dollar_id
    (List.filter (has_key Fixtures.engine PRICE_ASC (int 10))
       (listed PRICE_ASC "" Fixtures.ten_records))
  = map JStr ["0"; "1"; "2"; "3"; "4"; "5"; "6"; "7"; "8"; "9"].
Proof.
  destruct (listing_keeps_order_of_ties Fixtures.backend Fixtures.config
              Fixtures.engine PRICE_ASC "" (Fixtures.start Fixtures.ten_records) _ _
              (listed_run PRICE_ASC "" Fixtures.ten_records
                 ltac:(vm_compute; reflexivity)))
    as (response & w & normalized & s1 & Hlist & Hnorm & Hties).
  - vm_compute. repeat (apply List.Forall_cons || apply List.Forall_nil); intros H; discriminate H.
  - specialize (Hties (int 10)).
    apply (f_equal (map dollar_id)) in Hties.
    assert (E : forall l, map dollar_id (map forget_thumbnailUrl l) = map dollar_id l)
      by (intros l; rewrite map_map; reflexivity).
    rewrite !E in Hties. rewrite Hties.
    pose (run := mapM (normalizeVideo Fixtures.backend Fixtures.engine)
                   Fixtures.ten_records
                   (after_call (Fixtures.start Fixtures.ten_records)
                      (listDocuments "main" "videos" [])
                      (world (Fixtures.start Fixtures.ten_records)))).
    assert (El : (Ok {| documents := Fixtures.ten_records |},
                  world (Fixtures.start Fixtures.ten_records))
                 = (Ok response, w)) by (rewrite <- Hlist; reflexivity).
    injection El as <- <-.
    assert (En : (Ok (match fst run with Ok l => l | Throw _ => [] end), snd run)
                 = (Ok normalized, s1))
      by (rewrite <- Hnorm; vm_compute; reflexivity).
    injection En as <- _.
    vm_compute. reflexivity.
Defined.

End SortFacts.

(* ===================================================================== *)
(** * What a reconciliation sends *)
(* ===================================================================== *)

Module ReconciliationFacts.
Import JS Effects AppwriteSchemaManager Observations.
Import EffectFacts SchemaFacts.

Lemma created_keys_app l1 l2 :
  created_keys (l1 ++ l2) = (created_keys l1 ++ created_keys l2)%list.
Proof. unfold created_keys. apply flat_map_app. Qed.

Section Reconciliation.

Context {W : Type}.
Variable backend : Backend W.
Variable config : Config.

Lemma reconcile_ensure c :
  reconcile backend config c
  = ensure backend config (collection_of config c) (declared c)
      (creator backend config c).
Proof. destruct c; reflexivity. Qed.

(** For every entry of its table, the [switch] of a reconciliation sends
    one creation request, for the key of the entry, in its collection. *)
Lemma creator_request c attr :
  In attr (declared c) ->
  exists request : Api unit,
    creator backend config c attr = call backend request
    /\ created_key (Called request) = Some (key attr)
    /\ is_creation (Called request) = true
    /\ reconciliation_step config (collection_of config c) (Called request).
Proof.
  destruct c; cbn [declared]; intros Hin;
    repeat (destruct Hin as [<-|Hin];
            [eexists; split; [reflexivity|];
             split; [reflexivity|]; split; [reflexivity|]; split; reflexivity|]);
    destruct Hin.
Qed.

(** The loop of [ensure], from any state: the requests it sends are
    creations for missing attributes, in the order of the table. *)
Lemma loop_requests c existing required s :
  (forall attr, In attr required -> In attr (declared c)) ->
  exists events rest,
    trace (snd (for_of required
                  (fun attr =>
                     if negb (exists_in existing attr)
                     then creator backend config c attr ;;; sleep 1000
                     else ret tt) s))
    = (trace s ++ events)%list
    /\ Forall (reconciliation_step config (collection_of config c)) events
    /\ map key (missing existing required) = (created_keys events ++ rest)%list
    /\ (accepts_creations backend ->
        rest = []
        /\ List.length (List.filter is_pause events)
           = List.length (missing existing required)
        /\ exists requests,
             events = flat_map (fun request => [request; Slept 1000]) requests
             /\ map created_key requests
                = map (fun attr => Some (key attr)) (missing existing required)).
Proof.
  revert s. induction required as [|attr required IH]; intros s Hdecl.
  - exists [], []. cbn [for_of ret snd]. rewrite app_nil_r.
    split; [reflexivity|]. split; [constructor|]. split; [reflexivity|].
    intros _. split; [reflexivity|]. split; [reflexivity|].
    exists []. split; reflexivity.
  - assert (Hrest : forall a, In a required -> In a (declared c))
      by (intros a Ha; apply Hdecl; right; exact Ha).
    cbn [for_of]. unfold missing. cbn [List.filter]. fold (missing existing required).
    destruct (exists_in existing attr); cbn [negb].
    + unfold bind at 1, ret at 1. apply IH, Hrest.
    + destruct (creator_request c attr (Hdecl attr (or_introl eq_refl)))
        as (request & -> & Hkey & Hcreation & Hstep).
      unfold bind at 1. unfold bind at 1. unfold call at 1.
      destruct (respond backend unit request (world s)) as [[[]|e] w] eqn:Hresp.
      * unfold sleep at 1. cbn [world trace].
        destruct (IH {| world := w;
                        trace := ((trace s ++ [Called request]) ++ [Slept 1000])%list |}
                    Hrest) as (events & rest & Etrace & Hsteps & Hkeys & Hall).
        cbn [trace] in Etrace.
        exists (Called request :: Slept 1000 :: events), rest.
        split; [rewrite Etrace, <- !app_assoc; reflexivity|].
        split; [constructor; [exact Hstep|]; constructor; [reflexivity | exact Hsteps]|].
        split.
        -- cbn [map]. unfold created_keys. cbn [flat_map].
           rewrite Hkey. cbn [created_key app]. fold (created_keys events).
           rewrite Hkeys. reflexivity.
        -- intros Hacc. destruct (Hall Hacc) as (-> & Hlen & requests & -> & Hreq).
           split; [reflexivity|]. split.
           ++ cbn [List.filter is_pause List.length]. rewrite Hlen. reflexivity.
           ++ exists (Called request :: requests). split; [reflexivity|].
              cbn [map]. rewrite Hkey, Hreq. reflexivity.
      * exists [Called request], (map key (missing existing required)).
        cbn [snd trace]. split; [reflexivity|].
        split; [constructor; [exact Hstep | constructor]|].
        split.
        -- cbn [map]. unfold created_keys. cbn [flat_map].
           rewrite Hkey. reflexivity.
        -- intros Hacc. specialize (Hacc request (world s) Hcreation).
           rewrite Hresp in Hacc. discriminate Hacc.
Qed.

(** What a whole reconciliation sends. *)
Lemma reconcile_requests c s :
  exists events s',
    reconcile backend config c s = (Ok tt, s')
    /\ trace s' = (trace s ++ Called (getCollection (databaseId config)
                                        (collection_of config c)) :: events)%list
    /\ Forall (reconciliation_step config (collection_of config c)) events
    /\ match respond backend _ (getCollection (databaseId config)
                                  (collection_of config c)) (world s) with
       | (Ok collection, _) =>
           exists rest,
             map key (missing (attributes collection) (declared c))
             = (created_keys events ++ rest)%list
             /\ (accepts_creations backend ->
                 rest = []
                 /\ List.length (List.filter is_pause events)
                    = List.length (missing (attributes collection) (declared c))
                 /\ exists requests,
                      events = flat_map (fun request => [request; Slept 1000]) requests
                      /\ map created_key requests
                         = map (fun attr => Some (key attr))
                             (missing (attributes collection) (declared c)))
       | (Throw _, _) => events = []
       end.
Proof.
  rewrite reconcile_ensure. unfold ensure, try_catch.
  unfold bind at 1. unfold call at 1.
  destruct (respond backend _ _ (world s)) as [[collection|e] w].
  - match goal with
    | |- context [for_of ?l ?body ?st] =>
        destruct (loop_requests c (attributes collection) (declared c) st
                    (fun _ H => H)) as (events & rest & Etrace & Hsteps & Hkeys & Hall);
        destruct (for_of l body st) as [[[]|e] s1] eqn:Hloop
    end; cbn [snd trace] in Etrace.
    + exists events, s1. split; [reflexivity|].
      split; [rewrite Etrace, <- app_assoc; reflexivity|].
      split; [exact Hsteps|]. exists rest. split; assumption.
    + exists events, s1. split; [reflexivity|].
      split; [rewrite Etrace, <- app_assoc; reflexivity|].
      split; [exact Hsteps|]. exists rest. split; assumption.
  - exists [], {| world := w;
                  trace := (trace s ++ [Called (getCollection (databaseId config)
                                                  (collection_of config c))])%list |}.
    split; [reflexivity|]. split; [reflexivity|]. split; [constructor | reflexivity].
Qed.

(** X9.  Whatever the backend answers, a reconciliation reads its
    collection once and then asks only for creations, in its own
    collection, of declared attributes the collection did not report: the
    keys it asks for are the missing declared keys in the order of the
    table, or a first part of them when a creation fails (the error is
    swallowed and the rest is not attempted).  If the read fails nothing
    is created. *)
Theorem reconciliation_creates_only_missing (c : Reconciled) (s : State W) :
  exists events s',
    reconcile backend config c s = (Ok tt, s')
    /\ trace s' = (trace s ++ Called (getCollection (databaseId config)
                                        (collection_of config c)) :: events)%list
    /\ Forall (reconciliation_step config (collection_of config c)) events
    /\ match respond backend _ (getCollection (databaseId config)
                                  (collection_of config c)) (world s) with
       | (Ok collection, _) =>
           exists rest,
             map key (missing (attributes collection) (declared c))
             = (created_keys events ++ rest)%list
       | (Throw _, _) => events = []
       end.
Proof.
  destruct (reconcile_requests c s) as (events & s' & Hrun & Htrace & Hsteps & Hkeys).
  exists events, s'. repeat (split; [assumption|]).
  destruct (respond backend _ _ (world s)) as [[collection|e] w]; [|exact Hkeys].
  destruct Hkeys as (rest & Hkeys & _). exists rest. exact Hkeys.
Qed.

(** X10.  On a backend that accepts every creation, a reconciliation whose
    read succeeds sends, after the read, one creation request for every
    missing declared attribute, in the order of the table and in its own
    collection, and pauses one second after each of them: the trace is
    creation, pause, creation, pause, and so on. *)
Theorem reconciliation_creates_all_missing
    (c : Reconciled) (s : State W) (collection : Collection) (w : W) :
  accepts_creations backend ->
  respond backend _ (getCollection (databaseId config) (collection_of config c))
    (world s) = (Ok collection, w) ->
  exists requests s',
    reconcile backend config c s = (Ok tt, s')
    /\ trace s' = (trace s
                   ++ Called (getCollection (databaseId config)
                                (collection_of config c))
                   :: flat_map (fun request => [request; Slept 1000]) requests)%list
    /\ map created_key requests
       = map (fun attr => Some (key attr))
           (missing (attributes collection) (declared c))
    /\ Forall (reconciliation_step config (collection_of config c)) requests.
Proof.
  intros Hacc Hget.
  destruct (reconcile_requests c s) as (events & s' & Hrun & Htrace & Hsteps & Hkeys).
  rewrite Hget in Hkeys. destruct Hkeys as (rest & _ & Hall).
  destruct (Hall Hacc) as (_ & _ & requests & -> & Hreq).
  exists requests, s'. split; [exact Hrun|]. split; [exact Htrace|].
  split; [exact Hreq|].
  clear - Hsteps. induction requests as [|r requests IH]; [constructor|].
  cbn [flat_map app] in Hsteps.
  inversion Hsteps as [|? ? Hr Hrest]; subst.
  inversion Hrest as [|? ? _ Hrest']; subst.
  constructor; [exact Hr | apply IH, Hrest'].
Qed.

Lemma steps_are_not_reads collectionId events :
  Forall (reconciliation_step config collectionId) events ->
  List.filter is_collection_read events = []
  /\ Forall (fun e => is_creation e = true \/ is_pause e = true) events.
Proof.
  induction 1 as [|e events He _ (IH1 & IH2)]; [split; constructor|].
  destruct e as [R request|ms]; [destruct request|]; cbn in He; try contradiction;
    cbn [List.filter is_collection_read]; (split; [exact IH1|]);
    constructor; try exact IH2; cbn; auto.
Qed.

(** X11.  [initializeSchema] always returns, and whatever fails on the way
    it reads each of the four collections exactly once, in the order
    videos, site configuration, users, sessions.  Apart from these reads it
    only asks for attribute creations and pauses: it never touches a
    document or a file. *)
Theorem initializeSchema_reads_every_collection (s : State W) :
  exists events s',
    initializeSchema backend config s = (Ok tt, s')
    /\ trace s' = (trace s ++ events)%list
    /\ List.filter is_collection_read events
       = [ Called (getCollection (databaseId config) (videoCollectionId config));
           Called (getCollection (databaseId config) (siteConfigCollectionId config));
           Called (getCollection (databaseId config) (userCollectionId config));
           Called (getCollection (databaseId config) (sessionCollectionId config)) ]
    /\ Forall (fun e => is_collection_read e = true
                        \/ is_creation e = true \/ is_pause e = true) events.
Proof.
  destruct (reconcile_requests Videos s) as (e1 & s1 & R1 & T1 & S1 & _).
  destruct (reconcile_requests SiteConfig s1) as (e2 & s2 & R2 & T2 & S2 & _).
  destruct (reconcile_requests Users s2) as (e3 & s3 & R3 & T3 & S3 & _).
  destruct (reconcile_requests Sessions s3) as (e4 & s4 & R4 & T4 & S4 & _).
  cbn [reconcile collection_of] in *.
  destruct (steps_are_not_reads _ _ S1) as (F1 & C1).
  destruct (steps_are_not_reads _ _ S2) as (F2 & C2).
  destruct (steps_are_not_reads _ _ S3) as (F3 & C3).
  destruct (steps_are_not_reads _ _ S4) as (F4 & C4).
  eexists _, s4. split; [|split; [|split]].
  - unfold initializeSchema. rewrite try_rethrow.
    rewrite (bind_ok _ _ _ _ _ R1), (bind_ok _ _ _ _ _ R2), (bind_ok _ _ _ _ _ R3).
    exact R4.
  - rewrite T4, T3, T2, T1, <- !app_assoc. reflexivity.
  - rewrite !List.filter_app. cbn [List.filter is_collection_read].
    rewrite F1, F2, F3, F4. reflexivity.
  - assert (Hweak : forall l,
               Forall (fun e => is_creation e = true \/ is_pause e = true) l ->
               Forall (fun e => is_collection_read e = true
                                \/ is_creation e = true \/ is_pause e = true) l)
      by (intros l; apply List.Forall_impl; tauto).
    repeat (apply Forall_app; split);
      try (constructor; [left; reflexivity|]); auto.
Qed.

Lemma for_of_ext {A} (f g : A -> M W unit) l s :
  (forall x, In x l -> f x = g x) -> for_of l f s = for_of l g s.
Proof.
  revert s. induction l as [|x l IH]; intros s H; cbn [for_of]; [reflexivity|].
  rewrite (H x (or_introl eq_refl)). unfold bind.
  destruct (g x s) as [[[]|e] s1]; [|reflexivity].
  apply IH. intros y Hy. apply H. right. exact Hy.
Qed.

Lemma exists_in_false existing attr :
  ~ In (key attr) (map Effects.key existing) -> exists_in existing attr = false.
Proof.
  intros Hnot. unfold exists_in. apply Bool.not_true_is_false. intros Hex.
  apply existsb_exists in Hex. destruct Hex as (x & Hx & Heq).
  apply String.eqb_eq in Heq. apply Hnot. rewrite <- Heq. apply in_map, Hx.
Qed.

(** When [views] is the one declared attribute the video collection
    lacks, the loop of either revision comes down to one creation and the
    pause after it. *)
Lemma views_alone (create : AttributeSpec -> M W unit) (request : Api unit)
    (existing : list Attribute) (s1 : State W) :
  (forall attr, In attr videoAttributes ->
     (In (key attr) (map Effects.key existing) <-> key attr <> "views")) ->
  create (with_default (JNum (int 0))
            (with_min (JNum (int 0)) (attribute "views" "integer" false)))
  = call backend request ->
  for_of videoAttributes
    (fun attr =>
       if negb (exists_in existing attr) then create attr ;;; sleep 1000 else ret tt) s1
  = (Ok tt,
     {| world := snd (respond backend unit request (world s1));
        trace := (trace s1 ++ [Called request]
                  ++ match fst (respond backend unit request (world s1)) with
                     | Ok _ => [Slept 1000]
                     | Throw _ => []
                     end)%list |})
  \/ exists e,
       for_of videoAttributes
         (fun attr =>
            if negb (exists_in existing attr) then create attr ;;; sleep 1000 else ret tt) s1
       = (Throw e,
          {| world := snd (respond backend unit request (world s1));
             trace := (trace s1 ++ [Called request])%list |})
       /\ fst (respond backend unit request (world s1)) = Throw e.
Proof.
  intros Hreport Hcreate.
  rewrite (for_of_ext _
             (fun attr => if String.eqb (key attr) "views"
                          then create attr ;;; sleep 1000
                          else ret tt)).
  - cbn [videoAttributes for_of key attribute with_min with_default String.eqb
           Ascii.eqb Bool.eqb].
    rewrite Hcreate. unfold bind, ret, call, sleep.
    destruct (respond backend unit request (world s1)) as [[[]|e] w2];
      cbn [fst snd world trace].
    + left. rewrite <- !app_assoc. reflexivity.
    + right. exists e. split; reflexivity.
  - intros attr Hin. destruct (Hreport attr Hin) as (H1 & H2).
    destruct (String.eqb_spec (key attr) "views") as [Hv|Hv].
    + rewrite exists_in_false; [reflexivity|]. intros Hin'. apply (H1 Hin'), Hv.
    + rewrite (exists_in_true _ _ (H2 Hv)). reflexivity.
Qed.

(** X12.  The default 0 declared for [views] does not reach the backend.
    When [views] is the one declared attribute the video collection lacks,
    the first revision (lines 33 to 125) creates it as an integer attribute
    with the default [null] ([0 || null]), the lower bound 0 and no upper
    bound; the second revision (lines 393 to 494) also hands over
    [0 || null] as the lower bound, so that the bound is lost as well.  In
    both, the run pauses one second exactly when the creation is accepted,
    and sends nothing else. *)
Theorem views_created_without_default
    (s : State W) (collection : Collection) (w : W) :
  (forall attr, In attr videoAttributes ->
     (In (key attr) (map Effects.key (attributes collection)) <-> key attr <> "views")) ->
  let reading := getCollection (databaseId config) (videoCollectionId config) in
  let listing := listAttributes (databaseId config) (videoCollectionId config) in
  let create_views :=
    createIntegerAttribute (databaseId config) (videoCollectionId config)
      "views" false JNull (JNum (int 0)) JUndefined in
  let create_views_revised :=
    createIntegerAttribute (databaseId config) (videoCollectionId config)
      "views" false JNull JNull JNull in
  let pause (request : Api unit) : list Event :=
    match fst (respond backend unit request w) with
    | Ok _ => [Slept 1000]
    | Throw _ => []
    end in
  (respond backend _ reading (world s) = (Ok collection, w) ->
   exists s',
     ensureVideoCollectionAttributes backend config s = (Ok tt, s')
     /\ trace s' = (trace s ++ [Called reading; Called create_views]
                    ++ pause create_views)%list)
  /\ (respond backend _ listing (world s) = (Ok collection, w) ->
      exists s',
        ensureVideoCollectionAttributes_revised backend config s = (Ok tt, s')
        /\ trace s' = (trace s ++ [Called listing; Called create_views_revised]
                       ++ pause create_views_revised)%list).
Proof.
  intros Hreport reading listing create_views create_views_revised pause.
  split; intros Hget.
  - unfold ensureVideoCollectionAttributes, ensure, try_catch.
    rewrite (bind_ok _ _ _ _ _ (call_answer backend _ _ _ _ Hget)).
    cbn zeta.
    destruct (views_alone (createVideoAttribute backend config) create_views
                (attributes collection) (after_call s reading w) Hreport eq_refl)
      as [Hloop | (e & Hloop & He)];
      fold reading; rewrite Hloop; eexists; (split; [reflexivity|]);
      cbn [trace after_call world]; unfold pause;
      try (cbn [world after_call] in He; rewrite He);
      rewrite <- ?app_assoc; reflexivity.
  - unfold ensureVideoCollectionAttributes_revised, try_catch.
    rewrite (bind_ok _ _ _ _ _ (call_answer backend _ _ _ _ Hget)).
    cbn zeta.
    destruct (views_alone (createVideoAttribute_revised backend config)
                create_views_revised
                (attributes collection) (after_call s listing w) Hreport eq_refl)
      as [Hloop | (e & Hloop & He)];
      fold listing; rewrite Hloop; eexists; (split; [reflexivity|]);
      cbn [trace after_call world]; unfold pause;
      try (cbn [world after_call] in He; rewrite He);
      rewrite <- ?app_assoc; reflexivity.
Qed.

End Reconciliation.

(** The backend that is never down accepts every creation. *)
Lemma reliable_answers R (request : Api R) w :
  is_creation (Called request) = true ->
  match fst (respond reliable R request w) with
  | Ok _ => True
  | Throw _ => False
  end.
Proof. destruct request; cbn; (discriminate || trivial). Qed.

Lemma reliable_accepts : accepts_creations reliable.
Proof.
  intros request w H. pose proof (reliable_answers unit request w H) as Hok.
  destruct (fst (respond reliable unit request w)) as [[]|e];
    [reflexivity | contradiction].
Qed.

(** An empty video collection on a backend that is never down: the ten
    declared attributes are created in the order of the table, a pause
    after each. *)
Lemma reconciliation_creates_all_missing_witness :
  exists requests s',
    reconcile reliable Fixtures.config Videos (Fixtures.provisioned []) = (Ok tt, s')
    /\ trace s' = Called (getCollection "main" "videos")
                  :: flat_map (fun request => [request; Slept 1000]) requests
    /\ map created_key requests = map (fun attr => Some (key attr)) videoAttributes
    /\ Forall (reconciliation_step Fixtures.config "videos") requests.
Proof.
  apply (reconciliation_creates_all_missing reliable Fixtures.config Videos
           (Fixtures.provisioned []) {| attributes := [] |}
           (world (Fixtures.provisioned []))).
  - exact reliable_accepts.
  - reflexivity.
Defined.

(** The video collection with every declared attribute but [views], on a
    backend that accepts the creation: both revisions pause after it. *)
Lemma views_created_without_default_witness :
  (exists s',
     ensureVideoCollectionAttributes Fixtures.backend Fixtures.config
       (Fixtures.provisioned (map (fun k => ("videos", k)) all_but_views))
     = (Ok tt, s')
     /\ trace s'
        = [ Called (getCollection "main" "videos");
            Called (createIntegerAttribute "main" "videos" "views" false JNull
                      (JNum (int 0)) JUndefined);
            Slept 1000 ])
  /\ (exists s',
        ensureVideoCollectionAttributes_revised Fixtures.backend Fixtures.config
          (Fixtures.provisioned (map (fun k => ("videos", k)) all_but_views))
        = (Ok tt, s')
        /\ trace s'
           = [ Called (listAttributes "main" "videos");
               Called (createIntegerAttribute "main" "videos" "views" false JNull
                         JNull JNull);
               Slept 1000 ]).
Proof.
  pose proof (views_created_without_default Fixtures.backend Fixtures.config
                (Fixtures.provisioned (map (fun k => ("videos", k)) all_but_views))
                {| attributes := map (fun k => {| Effects.key := k |}) all_but_views |}
                (world (Fixtures.provisioned
                          (map (fun k => ("videos", k)) all_but_views)))) as H.
  cbv zeta in H.
  destruct H as (Hfirst & Hsecond).
  - intros attr Hin. cbn in Hin.
    repeat (destruct Hin as [<-|Hin]); [..|contradiction];
      vm_compute; split; intros H; try discriminate; try tauto;
      try (exfalso; apply H; reflexivity); intuition congruence.
  - split; [apply Hfirst | apply Hsecond]; vm_compute; reflexivity.
Defined.

End ReconciliationFacts.

(* ===================================================================== *)
(** * Pages, taken together and out of range *)
(* ===================================================================== *)

Module PageFacts.
Import JS Effects VideoService Observations.
Import EffectFacts JSFacts PaginationFacts.

(** Consecutive windows of [p] elements cover a list. *)
Lemma windows_cover {A} (p : nat) (n : nat) (l : list A) :
  (List.length l <= n * p)%nat ->
  concat (map (fun i => firstn p (skipn (i * p) l)) (seq 0 n)) = l.
Proof.
  revert l. induction n as [|n IH]; intros l Hlen.
  - destruct l; [reflexivity | cbn in Hlen; lia].
  - cbn [seq map concat]. rewrite <- seq_shift, map_map.
    cbn [Nat.mul skipn].
    rewrite (map_ext _ (fun i => firstn p (skipn (i * p) (skipn p l)))).
    + rewrite IH; [apply firstn_skipn|]. rewrite length_skipn. lia.
    + intros i. rewrite skipn_skipn. f_equal. f_equal. lia.
Qed.

Lemma relative_index_negative len a :
  a < 0 -> relative_index len (int a) = Z.to_nat (Z.max (Z.of_nat len + a) 0).
Proof.
  intros Ha. unfold relative_index, int. rewrite Qtrunc_int.
  destruct (Z.ltb_spec a 0); [reflexivity | lia].
Qed.

Section Pages.

Context {W : Type}.
Variable backend : Backend W.
Variable config : Config.
Variable engine : Engine.

(** The run of a paginated listing on top of a listing that returns. *)
Lemma paginated_run sortOption searchQuery s s' all page perPage :
  getAllVideos backend config engine sortOption searchQuery s = (Ok all, s') ->
  getVideosWithPagination backend config engine page perPage sortOption searchQuery s
  = (Ok {| videos := slice all (num_mul (num_sub page (int 1)) perPage)
                       (num_add (num_mul (num_sub page (int 1)) perPage) perPage);
           totalPages := Math_ceil (num_div (int (Z.of_nat (List.length all))) perPage) |},
     s').
Proof.
  intros Hall. unfold getVideosWithPagination. rewrite try_rethrow.
  rewrite (bind_ok _ _ _ _ _ Hall). reflexivity.
Qed.

(** X13.  The pages of a listing, taken from the same catalogue, are
    consecutive and cover it: put end to end, pages 1 to [pages] give back
    the whole listing as soon as [pages * perPage] reaches its length, and
    no page holds more than [perPage] views. *)
Theorem pages_cover_the_listing (sortOption : SortOption) (searchQuery : string)
    (s s' : State W) (all : list Video) (perPage : Z) (pages : nat) :
  getAllVideos backend config engine sortOption searchQuery s = (Ok all, s') ->
  1 <= perPage ->
  Z.of_nat (List.length all) <= Z.of_nat pages * perPage ->
  concat (map (fun page =>
                 page_videos
                   (getVideosWithPagination backend config engine
                      (int (Z.of_nat page)) (int perPage) sortOption searchQuery s))
              (seq 1 pages)) = all
  /\ forall page : nat,
       (1 <= page)%nat ->
       Z.of_nat (List.length
                   (page_videos
                      (getVideosWithPagination backend config engine
                         (int (Z.of_nat page)) (int perPage) sortOption searchQuery s)))
       <= perPage.
Proof.
  intros Hall Hper Hpages.
  assert (Hpage : forall page : nat, (1 <= page)%nat ->
            page_videos
              (getVideosWithPagination backend config engine
                 (int (Z.of_nat page)) (int perPage) sortOption searchQuery s)
            = firstn (Z.to_nat perPage) (skipn ((page - 1) * Z.to_nat perPage) all)).
  { intros page Hp. rewrite (paginated_run _ _ _ _ _ _ _ Hall).
    unfold page_videos. cbn [fst videos].
    rewrite num_sub_int, num_mul_int, num_add_int.
    rewrite slice_window by nia. f_equal. f_equal. nia. }
  split.
  - rewrite <- seq_shift, map_map.
    rewrite (map_ext _ (fun i => firstn (Z.to_nat perPage)
                                   (skipn (i * Z.to_nat perPage) all))).
    + apply windows_cover. nia.
    + intros i. rewrite Hpage by lia. f_equal. f_equal. lia.
  - intros page Hp. rewrite Hpage by exact Hp. rewrite length_firstn. lia.
Qed.

(** X14.  With [perPage = 0] every page is empty, and [totalPages] is
    [Infinity] for a catalogue with views and [NaN] for an empty one:
    the division by zero is not guarded. *)
Theorem zero_per_page (sortOption : SortOption) (searchQuery : string)
    (s s' : State W) (all : list Video) (page : Z) :
  getAllVideos backend config engine sortOption searchQuery s = (Ok all, s') ->
  getVideosWithPagination backend config engine (int page) (int 0)
    sortOption searchQuery s
  = (Ok {| videos := [];
           totalPages := match all with
                         | [] => NaN
                         | _ :: _ => Infinity false
                         end |}, s').
Proof.
  intros Hall. rewrite (paginated_run _ _ _ _ _ _ _ Hall).
  rewrite num_sub_int, num_mul_int, num_add_int.
  replace ((page - 1) * 0) with 0 by lia. change (0 + 0) with 0.
  assert (Ewindow : slice all (int 0) (int 0) = [])
    by (unfold slice; rewrite relative_index_int by lia;
        rewrite Nat.sub_diag; reflexivity).
  assert (Etotal : Math_ceil (num_div (int (Z.of_nat (List.length all))) (int 0))
                   = match all with
                     | [] => NaN
                     | _ :: _ => Infinity false
                     end)
    by (destruct all; reflexivity).
  rewrite Ewindow, Etotal. reflexivity.
Qed.

(** X15.  Page numbers below 1 are not rejected.  Page 0 is empty; a
    negative page is counted from the end of the listing: it holds the
    views from position [n + (page-1)*perPage] up to, not including,
    [n + page*perPage], both raised to 0 when negative. *)
Theorem pages_below_one (sortOption : SortOption) (searchQuery : string)
    (s s' : State W) (all : list Video) (page perPage : Z) :
  getAllVideos backend config engine sortOption searchQuery s = (Ok all, s') ->
  page <= 0 -> 1 <= perPage ->
  let n := Z.of_nat (List.length all) in
  let first := Z.to_nat (Z.max (n + (page - 1) * perPage) 0) in
  let last := Z.to_nat (Z.max (n + page * perPage) 0) in
  let window :=
    page_videos
      (getVideosWithPagination backend config engine (int page) (int perPage)
         sortOption searchQuery s) in
  (page = 0 -> window = [])
  /\ (page < 0 ->
      window = firstn (last - first) (skipn first all)
      /\ List.length window = (last - first)%nat).
Proof.
  intros Hall Hpage Hper n first last window.
  unfold window. rewrite (paginated_run _ _ _ _ _ _ _ Hall).
  unfold page_videos. cbn [fst videos].
  rewrite num_sub_int, num_mul_int, num_add_int. unfold slice.
  rewrite (relative_index_negative _ ((page - 1) * perPage)) by nia.
  split.
  - intros ->. rewrite relative_index_int by lia.
    replace (Z.to_nat (Z.min ((0 - 1) * perPage + perPage) (Z.of_nat (List.length all))))
      with 0%nat by lia.
    reflexivity.
  - intros Hneg. rewrite relative_index_negative by nia.
    replace ((page - 1) * perPage + perPage) with (page * perPage) by lia.
    fold n first last. split; [reflexivity|].
    rewrite length_firstn, length_skipn. unfold first, last, n. lia.
Qed.

End Pages.

(** Ten records, four per page: three pages give back the ten records. *)
Lemma pages_cover_the_listing_witness :
  concat (map (fun page =>
                 page_videos
                   (getVideosWithPagination Fixtures.backend Fixtures.config
                      Fixtures.engine (int (Z.of_nat page)) (int 4) PRICE_ASC ""
                      (Fixtures.start Fixtures.ten_records)))
              (seq 1 3))
  = listed PRICE_ASC "" Fixtures.ten_records.
Proof.
  apply (pages_cover_the_listing Fixtures.backend Fixtures.config Fixtures.engine
           PRICE_ASC "" (Fixtures.start Fixtures.ten_records)
           (snd (getAllVideos Fixtures.backend Fixtures.config Fixtures.engine
                   PRICE_ASC "" (Fixtures.start Fixtures.ten_records)))
           (listed PRICE_ASC "" Fixtures.ten_records) 4 3).
  - vm_compute. reflexivity.
  - lia.
  - assert (L : List.length (listed PRICE_ASC "" Fixtures.ten_records) = 10%nat)
      by (vm_compute; reflexivity).
    rewrite L. lia.
Defined.

(** Two records, none per page: an empty page out of infinitely many. *)
Lemma zero_per_page_witness :
  fst (getVideosWithPagination Fixtures.backend Fixtures.config Fixtures.engine
         (int 1) (int 0) NEWEST "" (Fixtures.start Fixtures.pets))
  = Ok {| videos := []; totalPages := Infinity false |}.
Proof.
  rewrite (zero_per_page Fixtures.backend Fixtures.config Fixtures.engine
             NEWEST "" (Fixtures.start Fixtures.pets)
             (snd (getAllVideos Fixtures.backend Fixtures.config Fixtures.engine
                     NEWEST "" (Fixtures.start Fixtures.pets)))
             (listed NEWEST "" Fixtures.pets) 1).
  - vm_compute. reflexivity.
  - vm_compute. reflexivity.
Defined.

(** Ten records, four per page, page -1: the records 2 to 5. *)
Lemma pages_below_one_witness :
  map dollar_id
    (page_videos
       (getVideosWithPagination Fixtures.backend Fixtures.config Fixtures.engine
          (int (-1)) (int 4) PRICE_ASC "" (Fixtures.start Fixtures.ten_records)))
  = [JStr "2"; JStr "3"; JStr "4"; JStr "5"].
Proof.
  destruct (pages_below_one Fixtures.backend Fixtures.config Fixtures.engine
              PRICE_ASC "" (Fixtures.start Fixtures.ten_records)
              (snd (getAllVideos Fixtures.backend Fixtures.config Fixtures.engine
                      PRICE_ASC "" (Fixtures.start Fixtures.ten_records)))
              (listed PRICE_ASC "" Fixtures.ten_records) (-1) 4)
    as (_ & Hneg).
  - vm_compute. reflexivity.
  - lia.
  - lia.
  - destruct (Hneg ltac:(lia)) as (Hwindow & _). rewrite Hwindow.
    vm_compute. reflexivity.
Defined.

End PageFacts.

(* ===================================================================== *)
(** * Durations of any length, and negative ones *)
(* ===================================================================== *)

Module NumeralFacts.
Import JS Effects VideoService Observations JSFacts.

(** ** Decimal numerals *)

Lemma Qred_int z : Qred (inject_Z z) = inject_Z z.
Proof.
  unfold Qred, inject_Z. cbn [Qnum Qden].
  pose proof (Z.ggcd_gcd z 1) as Hg.
  pose proof (Z.ggcd_correct_divisors z 1) as Hd.
  destruct (Z.ggcd z 1) as (g, (aa, bb)). cbn [fst snd] in *.
  rewrite Z.gcd_1_r in Hg. subst g. destruct Hd as (Ha & Hb).
  assert (aa = z) as -> by lia. assert (bb = 1) as -> by lia. reflexivity.
Qed.

Lemma number_toString_int other z :
  Z.abs z < 10 ^ 21 -> number_toString other (int z) = integer_numeral z.
Proof.
  intros Hz. unfold number_toString, int. rewrite Qred_int. cbn [inject_Z Qden Qnum].
  destruct (Z.ltb_spec (Z.abs z) (10 ^ 21)); [reflexivity | lia].
Qed.

Local Abbreviation digits_of := NilEmpty.string_of_uint.

Lemma scan_digit_step c r acc cnt v :
  digit_value 10 c = Some v ->
  scan_digits 10 (String c r) acc cnt = scan_digits 10 r (acc * 10 + v) (S cnt).
Proof. intros H. cbn [scan_digits]. rewrite H. reflexivity. Qed.

Ltac scan_one_digit :=
  match goal with
  | |- context [scan_digits 10 (String ?c _) _ _] =>
      let v := eval vm_compute in (digit_value 10 c) in
      match v with
      | Some ?z => rewrite (scan_digit_step c _ _ _ z) by reflexivity
      end
  end.

Lemma scan_numeral_from d (p : positive) cnt :
  scan_digits 10 (digits_of d) (Z.pos p) cnt
  = (Z.pos (Pos.of_uint_acc d p), (cnt + Decimal.nb_digits d)%nat, EmptyString).
Proof.
  revert p cnt.
  induction d; intros p cnt;
    cbn [NilEmpty.string_of_uint Pos.of_uint_acc Decimal.nb_digits];
    [rewrite Nat.add_0_r; reflexivity|..];
    scan_one_digit;
    match goal with
    | |- scan_digits 10 _ ?acc _ = (Z.pos (Pos.of_uint_acc _ ?q), _, _) =>
        replace acc with (Z.pos q) by lia
    end;
    rewrite IHd; f_equal; f_equal; lia.
Qed.

Lemma scan_numeral d cnt :
  scan_digits 10 (digits_of d) 0 cnt
  = (Z.of_N (Pos.of_uint d), (cnt + Decimal.nb_digits d)%nat, EmptyString).
Proof.
  revert cnt.
  induction d; intros cnt;
    cbn [NilEmpty.string_of_uint Pos.of_uint Decimal.nb_digits];
    [rewrite Nat.add_0_r; reflexivity|..];
    scan_one_digit; rewrite Z.mul_0_l, Z.add_0_l;
    [rewrite IHd; f_equal; f_equal; lia|..];
    rewrite scan_numeral_from; cbn [Z.of_N]; f_equal; f_equal; lia.
Qed.

Lemma numeral_no_colon d : split ":" (digits_of d) = [digits_of d].
Proof.
  induction d; cbn [NilEmpty.string_of_uint split]; [reflexivity|..];
    match goal with
    | |- context [Ascii.eqb ?c ":"] =>
        change (Ascii.eqb c ":") with false
    end;
    rewrite IHd; reflexivity.
Qed.

Lemma trimEnd_char c r :
  is_whitespace c = false -> starts_blank c = false ->
  trimEnd (String c r) = String c (trimEnd r).
Proof. intros H1 H2. cbn [trimEnd all_blank]. rewrite H1, H2. reflexivity. Qed.

Lemma numeral_trimEnd d : trimEnd (digits_of d) = digits_of d.
Proof.
  induction d; cbn [NilEmpty.string_of_uint]; [reflexivity|..];
    rewrite trimEnd_char by reflexivity; rewrite IHd; reflexivity.
Qed.

Lemma numeral_length d : String.length (digits_of d) = Decimal.nb_digits d.
Proof.
  induction d; cbn [NilEmpty.string_of_uint String.length Decimal.nb_digits];
    congruence.
Qed.

(** A non-empty string of decimal digits converts to the number it
    writes. *)
Lemma Number_of_numeral d :
  d <> Decimal.Nil ->
  StringToNumber (digits_of d) = int (Z.of_N (Pos.of_uint d)).
Proof.
  intros Hd.
  assert (Hdec : decimal_literal (digits_of d) = int (Z.of_N (Pos.of_uint d))).
  { unfold decimal_literal, scan_StrDecimalLiteral.
    assert (Hsign : scan_sign (digits_of d) = (false, digits_of d))
      by (destruct d; reflexivity).
    assert (Hinf : String.prefix "Infinity" (digits_of d) = false)
      by (destruct d; reflexivity).
    rewrite Hsign, Hinf. unfold scan_unsigned_decimal.
    rewrite scan_numeral. cbn [Nat.add].
    destruct (Decimal.nb_digits d) eqn:Hn; [destruct d; (congruence || discriminate Hn)|].
    cbn [scan_exponent]. unfold decimal_value.
    change (Z.of_nat 0) with 0. change (0 - 0) with 0.
    change (Qpower (inject_Z 10) 0) with 1%Q. change (10 ^ 0) with 1.
    unfold inject_Z, Qmult. cbn [Qnum Qden].
    apply int_eq; [reflexivity | lia]. }
  rewrite <- Hdec. unfold StringToNumber, trim.
  assert (Hstart : trimStart (digits_of d) = digits_of d) by (destruct d; reflexivity).
  rewrite Hstart, numeral_trimEnd.
  destruct d as [|d|d|d|d|d|d|d|d|d|d]; try congruence; try reflexivity.
  destruct d; reflexivity.
Qed.

(** The numeral of a whole number that is not negative. *)
Lemma numeral_of_nonnegative z :
  0 <= z ->
  exists d, integer_numeral z = digits_of d
            /\ Z.of_N (Pos.of_uint d) = z /\ d <> Decimal.Nil.
Proof.
  intros Hz. pose proof (DecimalZ.of_to z) as Hof.
  unfold integer_numeral. destruct z as [|p|p]; [| |lia].
  - exists (Decimal.D0 Decimal.Nil).
    split; [reflexivity|]. split; [reflexivity | discriminate].
  - cbn [Z.to_int Z.of_int] in *. unfold Z.of_uint in Hof.
    cbn [NilZero.string_of_int]. unfold NilZero.string_of_uint.
    destruct (Pos.to_uint p) eqn:Hp;
      try (eexists; split; [reflexivity|]; split; [exact Hof | discriminate]).
    cbn in Hof. discriminate Hof.
Qed.

(** A string of digits as an unsigned decimal literal. *)
Lemma scan_unsigned_numeral d :
  d <> Decimal.Nil ->
  exists n, scan_unsigned_decimal (digits_of d) = Some (n # 1, EmptyString)
            /\ n = Z.of_N (Pos.of_uint d).
Proof.
  intros Hd. unfold scan_unsigned_decimal.
  rewrite scan_numeral. cbn [Nat.add].
  destruct (Decimal.nb_digits d) eqn:Hn; [destruct d; (congruence || discriminate Hn)|].
  cbn [scan_exponent]. unfold decimal_value.
  change (Z.of_nat 0) with 0. change (0 - 0) with 0.
  change (Qpower (inject_Z 10) 0) with 1%Q. change (10 ^ 0) with 1.
  unfold inject_Z, Qmult. cbn [Qnum Qden].
  eexists. split; [reflexivity | lia].
Qed.

(** The numeral of a negative whole number: a minus sign and digits. *)
Lemma numeral_of_negative z :
  z < 0 ->
  exists d, integer_numeral z = String "-" (digits_of d)
            /\ Z.of_N (Pos.of_uint d) = - z /\ d <> Decimal.Nil.
Proof.
  intros Hz. pose proof (DecimalZ.of_to z) as Hof.
  unfold integer_numeral. destruct z as [|p|p]; [lia|lia|].
  cbn [Z.to_int Z.of_int] in *. unfold Z.of_uint in Hof.
  cbn [NilZero.string_of_int]. unfold NilZero.string_of_uint.
  destruct (Pos.to_uint p) eqn:Hp;
    try (eexists; split; [reflexivity|]; split; [lia | discriminate]).
  cbn in Hof. discriminate Hof.
Qed.

Lemma Number_of_negative_numeral d :
  d <> Decimal.Nil ->
  StringToNumber (String "-" (digits_of d)) = int (- Z.of_N (Pos.of_uint d)).
Proof.
  intros Hd. destruct (scan_unsigned_numeral d Hd) as (n & Hscan & ->).
  unfold StringToNumber, trim.
  change (trimStart (String "-" (digits_of d))) with (String "-" (digits_of d)).
  rewrite trimEnd_char by reflexivity. rewrite numeral_trimEnd.
  assert (Hne : exists c r, digits_of d = String c r)
    by (destruct d; try congruence; eexists _, _; reflexivity).
  destruct Hne as (c & r & Hcr). rewrite Hcr. rewrite <- Hcr.
  unfold decimal_literal, scan_StrDecimalLiteral. cbn [scan_sign].
  assert (Hinf : String.prefix "Infinity" (digits_of d) = false)
    by (destruct d; reflexivity).
  rewrite Hinf, Hscan. unfold Qopp. cbn [Qnum Qden].
  apply int_eq; reflexivity.
Qed.

(** Digits followed by other text: the scan reads the digits and goes on
    with the text. *)
Lemma scan_numeral_from_then d rest (p : positive) cnt :
  scan_digits 10 (digits_of d ++ rest) (Z.pos p) cnt
  = scan_digits 10 rest (Z.pos (Pos.of_uint_acc d p)) (cnt + Decimal.nb_digits d).
Proof.
  revert p cnt.
  induction d; intros p cnt;
    cbn [NilEmpty.string_of_uint Pos.of_uint_acc Decimal.nb_digits];
    [rewrite append_empty, Nat.add_0_r; reflexivity|..];
    rewrite append_String; scan_one_digit;
    match goal with
    | |- scan_digits 10 _ ?acc _ = scan_digits 10 _ (Z.pos (Pos.of_uint_acc _ ?q)) _ =>
        replace acc with (Z.pos q) by lia
    end;
    rewrite IHd; f_equal; lia.
Qed.

Lemma scan_numeral_then d rest cnt :
  scan_digits 10 (digits_of d ++ rest) 0 cnt
  = scan_digits 10 rest (Z.of_N (Pos.of_uint d)) (cnt + Decimal.nb_digits d).
Proof.
  revert cnt.
  induction d; intros cnt;
    cbn [NilEmpty.string_of_uint Pos.of_uint Decimal.nb_digits];
    [rewrite append_empty, Nat.add_0_r; reflexivity|..];
    rewrite append_String; scan_one_digit; rewrite Z.mul_0_l, Z.add_0_l;
    [rewrite IHd; f_equal; lia|..];
    rewrite scan_numeral_from_then; cbn [Z.of_N]; f_equal; lia.
Qed.

(** At such a text the scan of digits stops, and neither a fraction nor an
    exponent follows. *)
Lemma ends_number_stops rest n cnt :
  ends_number rest = true ->
  scan_digits 10 rest n cnt = (n, cnt, rest)
  /\ scan_exponent rest = (0, rest)
  /\ match rest with
     | String "." _ => False
     | _ => True
     end.
Proof.
  destruct rest as [|c r]; [repeat split|].
  unfold ends_number. cbn [scan_digits scan_exponent].
  destruct (digit_value 10 c); [discriminate|].
  rewrite Bool.negb_true_iff. intros H.
  apply Bool.orb_false_iff in H. destruct H as (H & HE).
  apply Bool.orb_false_iff in H. destruct H as (Hdot & He).
  rewrite He, HE. cbn [orb]. split; [reflexivity|]. split; [reflexivity|].
  destruct c as [[] [] [] [] [] [] [] []]; try exact I. discriminate Hdot.
Qed.

(** [parseFloat] keeps the number its argument starts with. *)
Lemma parseFloat_numeral_then d rest :
  d <> Decimal.Nil ->
  ends_number rest = true ->
  parseFloat_string (digits_of d ++ rest) = int (Z.of_N (Pos.of_uint d)).
Proof.
  intros Hd Hrest. unfold parseFloat_string.
  assert (Hne : exists c r, digits_of d = String c r
                            /\ is_whitespace c = false
                            /\ starts_blank c = false
                            /\ scan_sign (String c (r ++ rest)) = (false, String c (r ++ rest))
                            /\ String.prefix "Infinity" (String c (r ++ rest)) = false).
  { destruct d; try congruence; eexists _, _; repeat split; reflexivity. }
  destruct Hne as (c & r & Hcr & Hws & Hlead & Hsign & Hinf).
  rewrite Hcr, append_String. cbn [trimStart]. rewrite Hws, Hlead.
  unfold scan_StrDecimalLiteral. rewrite Hsign, Hinf.
  rewrite <- append_String, <- Hcr.
  unfold scan_unsigned_decimal. rewrite scan_numeral_then. cbn [Nat.add].
  destruct (ends_number_stops rest (Z.of_N (Pos.of_uint d)) (Decimal.nb_digits d) Hrest)
    as (-> & Hexp & Hdot).
  destruct (Decimal.nb_digits d) eqn:Hn; [destruct d; (congruence || discriminate Hn)|].
  rewrite Hexp.
  assert (Hval : Fin (decimal_value (Z.of_N (Pos.of_uint d)) 0 0 0)
                 = int (Z.of_N (Pos.of_uint d))).
  { unfold decimal_value.
    change (Z.of_nat 0) with 0. change (0 - 0) with 0.
    change (Qpower (inject_Z 10) 0) with 1%Q. change (10 ^ 0) with 1.
    unfold inject_Z, Qmult. cbn [Qnum Qden].
    apply int_eq; [reflexivity | lia]. }
  destruct rest as [|c' r']; [exact Hval|].
  destruct c' as [[] [] [] [] [] [] [] []]; try exact Hval. contradiction.
Qed.

Section Fields.

Variable engine : Engine.
Context {W : Type}.
Variable backend : Backend W.

(** Every field of a display string, whatever its number of digits,
    prints without a colon and reads back. *)
Lemma pad2_any n :
  0 <= n < 10 ^ 21 ->
  split ":" (pad2 engine (int n)) = [pad2 engine (int n)]
  /\ StringToNumber (pad2 engine (int n)) = int n.
Proof.
  intros Hn. unfold pad2. rewrite number_toString_int by lia.
  destruct (numeral_of_nonnegative n) as (d & -> & Hv & Hd); [lia|].
  unfold padStart. rewrite numeral_length.
  assert (Hpad : exists d', (repeat_char "0" (2 - Decimal.nb_digits d) ++ digits_of d)%string
                            = digits_of d'
                            /\ Z.of_N (Pos.of_uint d') = n /\ d' <> Decimal.Nil).
  { destruct (Decimal.nb_digits d) as [|[|k]] eqn:Hk.
    - destruct d; (congruence || discriminate Hk).
    - exists (Decimal.D0 d). repeat split; [exact Hv | discriminate].
    - exists d. replace (2 - S (S k))%nat with 0%nat by lia.
      repeat split; assumption. }
  destruct Hpad as (d' & -> & Hv' & Hd').
  split; [apply numeral_no_colon|]. rewrite Number_of_numeral by exact Hd'.
  rewrite Hv'. reflexivity.
Qed.

Lemma read_two a b :
  0 <= a < 10 ^ 21 -> 0 <= b < 10 ^ 21 ->
  getDurationInSeconds (pad2 engine (int a) ++ ":" ++ pad2 engine (int b))
  = int (a * 60 + b).
Proof.
  intros Ha Hb.
  destruct (pad2_any a Ha) as (Sa & Na), (pad2_any b Hb) as (Sb & Nb).
  unfold getDurationInSeconds.
  change (":" ++ pad2 engine (int b))%string with (String ":" (pad2 engine (int b))).
  rewrite (split_app _ _ _ Sa), Sb. cbn [map].
  rewrite Na, Nb, num_mul_int, num_add_int. reflexivity.
Qed.

Lemma read_three a b c :
  0 <= a < 10 ^ 21 -> 0 <= b < 10 ^ 21 -> 0 <= c < 10 ^ 21 ->
  getDurationInSeconds
    (pad2 engine (int a) ++ ":" ++ pad2 engine (int b) ++ ":" ++ pad2 engine (int c))
  = int (a * 3600 + b * 60 + c).
Proof.
  intros Ha Hb Hc.
  destruct (pad2_any a Ha) as (Sa & Na), (pad2_any b Hb) as (Sb & Nb),
           (pad2_any c Hc) as (Sc & Nc).
  unfold getDurationInSeconds.
  change (":" ++ pad2 engine (int c))%string with (String ":" (pad2 engine (int c))).
  change (":" ++ ?x)%string with (String ":" x).
  rewrite (split_app _ _ _ Sa), (split_app _ _ _ Sb), Sc. cbn [map].
  rewrite Na, Nb, Nc, !num_mul_int, !num_add_int. reflexivity.
Qed.

(** A negative field: the sign takes the place of the padding. *)
Lemma pad2_negative n :
  - 10 ^ 21 < n < 0 ->
  split ":" (pad2 engine (int n)) = [pad2 engine (int n)]
  /\ StringToNumber (pad2 engine (int n)) = int n.
Proof.
  intros Hn. unfold pad2. rewrite number_toString_int by lia.
  destruct (numeral_of_negative n) as (d & -> & Hv & Hd); [lia|].
  unfold padStart. cbn [String.length]. rewrite numeral_length.
  destruct (Decimal.nb_digits d) as [|k] eqn:Hk;
    [destruct d; (congruence || discriminate Hk)|].
  replace (2 - S (S k))%nat with 0%nat by lia.
  cbn [repeat_char]. rewrite append_empty.
  split.
  - cbn [split]. change (Ascii.eqb "-" ":") with false.
    rewrite numeral_no_colon. reflexivity.
  - rewrite Number_of_negative_numeral by exact Hd. rewrite Hv. f_equal. lia.
Qed.

(** A field that is negative, zero or positive. *)
Lemma pad2_whole n :
  - 10 ^ 21 < n < 10 ^ 21 ->
  split ":" (pad2 engine (int n)) = [pad2 engine (int n)]
  /\ StringToNumber (pad2 engine (int n)) = int n.
Proof.
  intros Hn. destruct (Z.ltb_spec n 0); [apply pad2_negative | apply pad2_any]; lia.
Qed.

Lemma read_two_whole a b :
  - 10 ^ 21 < a < 10 ^ 21 -> - 10 ^ 21 < b < 10 ^ 21 ->
  getDurationInSeconds (pad2 engine (int a) ++ ":" ++ pad2 engine (int b))
  = int (a * 60 + b).
Proof.
  intros Ha Hb.
  destruct (pad2_whole a Ha) as (Sa & Na), (pad2_whole b Hb) as (Sb & Nb).
  unfold getDurationInSeconds.
  change (":" ++ pad2 engine (int b))%string with (String ":" (pad2 engine (int b))).
  rewrite (split_app _ _ _ Sa), Sb. cbn [map].
  rewrite Na, Nb, num_mul_int, num_add_int. reflexivity.
Qed.

(** X16.  The round trip of a duration does not stop at one day: for every
    whole number of seconds [S >= 0] among the safe integers, the display
    string [normalizeVideo] produces is read back by
    [getDurationInSeconds] as [S], the hours field taking as many digits
    as it needs. *)
Theorem long_durations_round_trip (video : Document) (S : Z) (s : State W) :
  0 <= S <= MAX_SAFE_INTEGER ->
  field video "duration" = JNum (int S) ->
  exists v s',
    normalizeVideo backend engine video s = (Ok v, s')
    /\ getDurationInSeconds (duration v) = int S.
Proof.
  intros HS Hd.
  assert (HS' : 0 <= S < 10 ^ 21)
    by (split; [lia | eapply Z.le_lt_trans; [apply HS | vm_compute; reflexivity]]).
  clear HS. destruct HS' as (HS0 & HS).
  destruct (DurationFacts.normalizeVideo_duration backend engine video s)
    as (v & s' & Hrun & Hdur).
  exists v, s'. split; [exact Hrun|]. rewrite Hdur, Hd.
  cbn [truthy]. rewrite truthy_int.
  destruct (Z.eqb_spec S 0) as [->|Hnz]; [reflexivity|]. cbn [negb].
  rewrite (DurationFacts.formattedDuration_int engine video S) by (lia || assumption).
  pose proof (Z.mod_pos_bound S 60 ltac:(lia)) as Hsec.
  pose proof (Z.div_mod S 60 ltac:(lia)) as Esec.
  assert (0 <= S / 60) by (apply Z.div_pos; lia).
  assert (60 < 10 ^ 21) by (vm_compute; reflexivity).
  destruct (Z.ltb_spec (S / 60) 60) as [Hlt|Hge].
  - rewrite read_two by lia. f_equal. lia.
  - pose proof (Z.mod_pos_bound (S / 60) 60 ltac:(lia)) as Hmin.
    pose proof (Z.div_mod (S / 60) 60 ltac:(lia)) as Emin.
    assert (0 <= S / 60 / 60 < 10 ^ 21).
    { split; [apply Z.div_pos; lia|].
      apply Z.div_lt_upper_bound; [lia|].
      apply Z.div_lt_upper_bound; lia. }
    rewrite read_three by lia. f_equal. lia.
Qed.

Lemma fields_two a b :
  0 <= a < 10 ^ 21 -> 0 <= b < 10 ^ 21 ->
  map StringToNumber (split ":" (pad2 engine (int a) ++ ":" ++ pad2 engine (int b)))
  = [int a; int b].
Proof.
  intros Ha Hb.
  destruct (pad2_any a Ha) as (Sa & Na), (pad2_any b Hb) as (Sb & Nb).
  change (":" ++ pad2 engine (int b))%string with (String ":" (pad2 engine (int b))).
  rewrite (split_app _ _ _ Sa), Sb. cbn [map]. rewrite Na, Nb. reflexivity.
Qed.

Lemma fields_three a b c :
  0 <= a < 10 ^ 21 -> 0 <= b < 10 ^ 21 -> 0 <= c < 10 ^ 21 ->
  map StringToNumber
    (split ":" (pad2 engine (int a) ++ ":" ++ pad2 engine (int b)
                ++ ":" ++ pad2 engine (int c)))
  = [int a; int b; int c].
Proof.
  intros Ha Hb Hc.
  destruct (pad2_any a Ha) as (Sa & Na), (pad2_any b Hb) as (Sb & Nb),
           (pad2_any c Hc) as (Sc & Nc).
  change (":" ++ pad2 engine (int c))%string with (String ":" (pad2 engine (int c))).
  change (":" ++ ?x)%string with (String ":" x).
  rewrite (split_app _ _ _ Sa), (split_app _ _ _ Sb), Sc. cbn [map].
  rewrite Na, Nb, Nc. reflexivity.
Qed.

(** The view of a record whose duration is a whole number of seconds
    among the safe integers is one whose display string has whole fields:
    the listings by duration of such records are among those X6 speaks
    of. *)
Lemma stored_seconds_are_comparable (video : Document) (S : Z) (s : State W) :
  0 <= S <= MAX_SAFE_INTEGER ->
  field video "duration" = JNum (int S) ->
  exists v s',
    normalizeVideo backend engine video s = (Ok v, s')
    /\ comparable engine DURATION_DESC v.
Proof.
  intros HS Hd.
  assert (HS' : 0 <= S < 10 ^ 21)
    by (split; [lia | eapply Z.le_lt_trans; [apply HS | vm_compute; reflexivity]]).
  destruct (DurationFacts.normalizeVideo_duration backend engine video s)
    as (v & s' & Hrun & Hdur).
  exists v, s'. split; [exact Hrun|]. cbn [comparable]. rewrite Hdur, Hd.
  cbn [truthy]. rewrite truthy_int.
  destruct (Z.eqb_spec S 0) as [->|Hnz]; cbn [negb].
  { split.
    - assert (F : map StringToNumber (split ":" "00:00") = [int 0; int 0])
        by (vm_compute; reflexivity).
      rewrite F. repeat constructor; exists 0; (split; [lia | reflexivity]).
    - exists 0. split; [vm_compute; discriminate | reflexivity]. }
  rewrite (DurationFacts.formattedDuration_int engine video S) by (lia || assumption).
  pose proof (Z.mod_pos_bound S 60 ltac:(lia)) as Hsec.
  pose proof (Z.div_mod S 60 ltac:(lia)) as Esec.
  assert (0 <= S / 60) by (apply Z.div_pos; lia).
  assert (60 < 10 ^ 21) by (vm_compute; reflexivity).
  destruct (Z.ltb_spec (S / 60) 60) as [Hlt|Hge].
  - split.
    + rewrite fields_two by lia.
      repeat constructor; eexists; (split; [|reflexivity]); lia.
    + exists S. split; [lia|]. rewrite read_two by lia. f_equal. lia.
  - pose proof (Z.mod_pos_bound (S / 60) 60 ltac:(lia)) as Hmin.
    pose proof (Z.div_mod (S / 60) 60 ltac:(lia)) as Emin.
    assert (0 <= S / 60 / 60 < 10 ^ 21).
    { split; [apply Z.div_pos; lia|].
      apply Z.div_lt_upper_bound; [lia|].
      apply Z.div_lt_upper_bound; lia. }
    split.
    + rewrite fields_three by lia.
      repeat constructor; eexists; (split; [|reflexivity]); lia.
    + exists S. split; [lia|]. rewrite read_three by lia. f_equal. lia.
Qed.

(** X17.  A negative duration is not rejected.  It is shown with signed
    fields, always as minutes and seconds (["-2:-30"] for -90), and the
    string does not read back as the duration unless this is a whole
    number of minutes: [getDurationInSeconds] gives 60 seconds less.  The
    bound keeps [S - 60] among the safe integers. *)
Theorem negative_durations_read_back_lower (video : Document) (S : Z) (s : State W) :
  60 - MAX_SAFE_INTEGER <= S < 0 ->
  field video "duration" = JNum (int S) ->
  exists v s',
    normalizeVideo backend engine video s = (Ok v, s')
    /\ duration v = (pad2 engine (int (S / 60)) ++ ":"
                     ++ pad2 engine (int (Z.rem S 60)))%string
    /\ getDurationInSeconds (duration v)
       = int (if S mod 60 =? 0 then S else S - 60).
Proof.
  intros HS Hd.
  assert (HS' : - 10 ^ 21 < S < 0)
    by (split; [eapply Z.lt_le_trans; [|apply HS]; vm_compute; reflexivity | lia]).
  clear HS. rename HS' into HS.
  destruct (DurationFacts.normalizeVideo_duration backend engine video s)
    as (v & s' & Hrun & Hdur).
  exists v, s'. split; [exact Hrun|]. rewrite Hdur, Hd.
  cbn [truthy]. rewrite truthy_int.
  destruct (Z.eqb_spec S 0) as [->|Hnz]; [lia|]. cbn [negb].
  unfold formattedDuration. rewrite Hd.
  rewrite floor_div_int, rem_int, num_lt_int by lia.
  assert (Hmin : S / 60 < 0) by (apply Z.div_lt_upper_bound; lia).
  assert (Hlow : - 10 ^ 21 < S / 60).
  { assert (S <= S / 60); [|lia].
    apply Z.div_le_lower_bound; lia. }
  destruct (Z.ltb_spec (S / 60) 60); [|lia].
  split; [reflexivity|].
  pose proof (Z.rem_bound_pos_neg S 60 ltac:(lia) ltac:(lia)) as Hrem.
  pose proof (Z.quot_rem' S 60) as Equot.
  pose proof (Z.div_mod S 60 ltac:(lia)) as Ediv.
  pose proof (Z.mod_pos_bound S 60 ltac:(lia)) as Hmod.
  assert (H21 : 60 < 10 ^ 21) by (vm_compute; reflexivity).
  rewrite read_two_whole by lia. f_equal.
  destruct (Z.eqb_spec (S mod 60) 0); lia.
Qed.

(** X18.  A price stored as text is read by its leading digits: the
    numeral of a whole number, alone or followed by text that does not
    continue a number (["25"], ["25 USD"], ["25,50"]), gives that number. *)
Theorem price_text_is_read (video : Document) (z : Z) (rest : string) (s : State W) :
  0 <= z <= MAX_SAFE_INTEGER ->
  ends_number rest = true ->
  field video "price" = JStr (integer_numeral z ++ rest) ->
  exists v s',
    normalizeVideo backend engine video s = (Ok v, s')
    /\ price v = int z.
Proof.
  intros (Hz & _) Hrest Hprice.
  destruct (NormalizationFacts.normalizeVideo_total backend engine video s)
    as (v & s' & Hrun).
  destruct (NormalizationFacts.normalizeVideo_numbers backend engine _ _ _ _ Hrun)
    as (Ep & _).
  exists v, s'. split; [exact Hrun|]. rewrite Ep, Hprice.
  destruct (numeral_of_nonnegative z Hz) as (d & -> & Hv & Hd).
  assert (Htruthy : truthy (JStr (digits_of d ++ rest)) = true)
    by (destruct d; try congruence; reflexivity).
  rewrite (NormalizationFacts.js_or_truthy _ _ Htruthy).
  unfold parseFloat. cbn [ToString].
  rewrite parseFloat_numeral_then by assumption. rewrite Hv. reflexivity.
Qed.

End Fields.

(** One hundred hours and one second: ["100:00:01"] and back. *)
Lemma long_durations_round_trip_witness :
  exists v s',
    normalizeVideo Fixtures.backend Fixtures.engine
      (Fixtures.record "b" "Dog Clip" 10 360001) (Fixtures.start []) = (Ok v, s')
    /\ getDurationInSeconds (duration v) = int 360001.
Proof.
  apply (long_durations_round_trip Fixtures.engine Fixtures.backend
           (Fixtures.record "b" "Dog Clip" 10 360001) 360001 (Fixtures.start [])).
  - vm_compute. split; discriminate.
  - vm_compute. reflexivity.
Defined.

(** Minus ninety seconds: ["-2:-30"], read back as -150. *)
Lemma negative_durations_read_back_lower_witness :
  exists v s',
    normalizeVideo Fixtures.backend Fixtures.engine
      (Fixtures.record "b" "Dog Clip" 10 (-90)) (Fixtures.start []) = (Ok v, s')
    /\ duration v = "-2:-30"
    /\ getDurationInSeconds (duration v) = int (-150).
Proof.
  apply (negative_durations_read_back_lower Fixtures.engine Fixtures.backend
           (Fixtures.record "b" "Dog Clip" 10 (-90)) (-90) (Fixtures.start [])).
  - vm_compute. split; [discriminate | reflexivity].
  - vm_compute. reflexivity.
Defined.

(** The price ["25 USD"] is read as 25. *)
Lemma price_text_is_read_witness :
  exists v s',
    normalizeVideo Fixtures.backend Fixtures.engine
      (<[ "price" := JStr "25 USD" ]> (Fixtures.record "b" "Dog Clip" 10 60))
      (Fixtures.start []) = (Ok v, s')
    /\ price v = int 25.
Proof.
  apply (price_text_is_read Fixtures.engine Fixtures.backend
           (<[ "price" := JStr "25 USD" ]> (Fixtures.record "b" "Dog Clip" 10 60))
           25 " USD" (Fixtures.start [])).
  - vm_compute. split; discriminate.
  - reflexivity.
  - vm_compute. reflexivity.
Defined.

End NumeralFacts.
